(** * AR classroom planner: camera, hit testing, interaction and history

    A shallow embedding of [src/objects.py], [src/camera.py] and of the
    history and input-handling methods of [src/app.py], followed by the
    properties established about them.

    Numbers.  Python [int] values (pixel coordinates, wheel ticks, object
    ids, the history cursor) are [Z].  Python [float] values are modelled
    by the real numbers [R]: arithmetic is exact, so rounding, underflow,
    infinities and NaN are outside the model.  What is kept of the float
    semantics is what raises: a division whose divisor is zero raises
    [ZeroDivisionError], and [x ** 2] raises [OverflowError] when the
    square leaves the float range.  Decimal literals denote the decimal
    fraction they spell ([0.5] is [1/2]).

    Because of this, a statement that a method returns bounds its inputs
    to a range in which the float computation stays far from overflow,
    underflow and cancellation (the predicates [ordinary_camera],
    [ordinary_point], [ordinary_window] and [ordinary_pixel] below), and
    a statement about an integer obtained by [int(...)] from a float
    allows for the rounding of that float: it is made for every integer
    the truncation can give when the float is off by up to half a unit.

    Effects.  Methods that can raise return a [result]; methods that only
    update fields of [self] are functions from state to state. *)

From Stdlib Require Import Reals Lra Lia ZArith List Bool String Psatz.
From Stdlib Require Import Permutation Sorted.
Import ListNotations.

Set Implicit Arguments.

(** ** Python run-time behaviour used by the sources *)

Module Py.

Inductive exn : Type :=
| ZeroDivisionError
| IndexError
| OverflowError.

Inductive result (A : Type) : Type :=
| Ok (a : A)
| Raise (e : exn).

Arguments Ok {A} a.
Arguments Raise {A} e.

Definition bind {A B : Type} (m : result A) (k : A -> result B) : result B :=
  match m with
  | Ok a => k a
  | Raise e => Raise e
  end.

(** [a / b] on floats. *)
Definition fdiv (a b : R) : result R :=
  if Req_dec_T b 0 then Raise ZeroDivisionError else Ok (a / b)%R.

(** The least magnitude that rounds to no finite float: half way between
    the largest float and [2 ^ 1024]. *)
Definition float_limit : R := (2 ^ 1024 - 2 ^ 970)%R.

(** [a ** 2] on floats: an [OverflowError] when the square is out of the
    float range. *)
Definition pow2 (a : R) : result R :=
  if Rle_dec float_limit (a ^ 2) then Raise OverflowError else Ok (a ^ 2)%R.

(** [a % b] on floats for a non-zero [b]: the result has the sign of [b].
    The sources only use it with the literal divisor [360]. *)
Definition fmod (a b : R) : R := (a - b * IZR (Zfloor (a / b)))%R.

(** [int(a)]: truncation toward zero. *)
Definition int (a : R) : Z := if Rle_dec 0 a then Zfloor a else Zceil a.

(** [v or 1.0] for a float [v]: zero is falsy. *)
Definition or_one (v : R) : R := if Req_dec_T v 0 then 1%R else v.

(** [math.radians]. *)
Definition radians (deg : R) : R := (deg * PI / 180)%R.

(** [l[i]] with Python's negative indices. *)
Definition index {A : Type} (l : list A) (i : Z) : result A :=
  let n := Z.of_nat (List.length l) in
  let j := (if i <? 0 then i + n else i)%Z in
  if ((0 <=? j) && (j <? n))%Z
  then match nth_error l (Z.to_nat j) with
       | Some a => Ok a
       | None => Raise IndexError
       end
  else Raise IndexError.

(** [l[:k]] with Python's negative bounds. *)
Definition take {A : Type} (l : list A) (k : Z) : list A :=
  let n := Z.of_nat (List.length l) in
  let j := (if k <? 0 then Z.max 0 (k + n) else k)%Z in
  firstn (Z.to_nat j) l.

(** [l.pop(0)] on a list known to be non-empty, keeping the rest. *)
Definition pop0 {A : Type} (l : list A) : list A := tl l.

End Py.

Import Py.

Notation "x <- m ;; k" := (Py.bind m (fun x => k))
  (at level 61, m at next level, right associativity).

(** ** [objects.py] *)

Record Point3D : Type := mkPoint3D { x : R; y : R; z : R }.

Module Point3D.

Definition dot (a b : Point3D) : R :=
  (x a * x b + y a * y b + z a * z b)%R.

Definition cross (a b : Point3D) : Point3D :=
  mkPoint3D (y a * z b - z a * y b)
            (z a * x b - x a * z b)
            (x a * y b - y a * x b).

(** The Euclidean norm: the value [length()] returns when it returns.
    The method itself, whose squares can overflow, is [Vector.length]
    below; this one serves to state lengths. *)
Definition length (a : Point3D) : R :=
  sqrt (x a ^ 2 + y a ^ 2 + z a ^ 2).

End Point3D.

Record Object3D : Type := mkObject3D {
  name : string;
  position : Point3D;
  rotation : R;
  obj_type : string;
  id : Z;
  scale : R;
  selected : bool
}.

(** The comprehension body shared by [save_state], [undo] and [redo]:
    a new [Object3D] built from six fields of [obj]; [selected] is not
    passed and takes its default [False]. *)
Definition copy_object (obj : Object3D) : Object3D :=
  mkObject3D (name obj)
             (mkPoint3D (x (position obj)) (y (position obj)) (z (position obj)))
             (rotation obj)
             (obj_type obj)
             (id obj)
             (scale obj)
             false.

(** ** [camera.py] *)

Record Camera : Type := mkCamera {
  distance : R;
  angle_h : R;
  angle_v : R;
  target : Point3D;
  fov : R
}.

Module Camera.

Local Open Scope R_scope.

(** [Camera.__init__]. *)
Definition init : Camera := mkCamera 700 45 35 (mkPoint3D 0 0 0) 60.

Definition get_position (c : Camera) : Point3D :=
  let rad_h := radians (angle_h c) in
  let rad_v := radians (angle_v c) in
  mkPoint3D (x (target c) + distance c * cos rad_v * cos rad_h)
            (y (target c) + distance c * sin rad_v)
            (z (target c) + distance c * cos rad_v * sin rad_h).

(** Returns [(right, up, f, cam_pos)]; callers bind the first
    component as [rgt], [right] being a constructor name here.  The
    squares are the [** 2] of the source and can overflow.  What floats
    do below that is not modelled: squares that underflow to zero (a
    distance under about 1e-162) and the cosine of 90 degrees, which is
    not zero in floats; the statements that [get_basis] returns keep the
    distance between 1 and [10^6] and the vertical angle within
    [[-85, 85]]. *)
Definition get_basis (c : Camera)
  : result (Point3D * Point3D * Point3D * Point3D) :=
  let cam_pos := get_position c in
  let f := mkPoint3D (x (target c) - x cam_pos)
                     (y (target c) - y cam_pos)
                     (z (target c) - z cam_pos) in
  fxx <- pow2 (x f) ;;
  fyy <- pow2 (y f) ;;
  fzz <- pow2 (z f) ;;
  let fl := sqrt (fxx + fyy + fzz) in
  fx <- fdiv (x f) fl ;;
  fy <- fdiv (y f) fl ;;
  fz <- fdiv (z f) fl ;;
  let f := mkPoint3D fx fy fz in
  let up_world := mkPoint3D 0 1 0 in
  let rx := y f * z up_world - z f * y up_world in
  let ry := z f * x up_world - x f * z up_world in
  let rz := x f * y up_world - y f * x up_world in
  rxx <- pow2 rx ;;
  ryy <- pow2 ry ;;
  rzz <- pow2 rz ;;
  let rl := or_one (sqrt (rxx + ryy + rzz)) in
  r_x <- fdiv rx rl ;;
  r_y <- fdiv ry rl ;;
  r_z <- fdiv rz rl ;;
  let right := mkPoint3D r_x r_y r_z in
  let ux := y right * z f - z right * y f in
  let uy := z right * x f - x right * z f in
  let uz := x right * y f - y right * x f in
  let up := mkPoint3D ux uy uz in
  Ok (right, up, f, cam_pos).

(** [tan_half = math.tan(math.radians(self.fov) / 2)]. *)
Definition tan_half (c : Camera) : R := tan (radians (fov c) / 2).

(** The two [int(...)] are applied to the exact screen position.  The
    float the program truncates differs from it by rounding, and so the
    pixel can be a neighbouring one; the statements about pixels allow
    for that (see [truncates_to]).  An infinite or NaN screen position,
    on which [int] raises, needs operands outside the ranges in which
    the statements are made. *)
Definition project (c : Camera) (point : Point3D)
           (screen_width screen_height : Z) : result (Z * Z) :=
  b <- get_basis c ;;
  let '(rgt, up, fwd, cam_pos) := b in
  let px := x point - x cam_pos in
  let py := y point - y cam_pos in
  let pz := z point - z cam_pos in
  let x_cam := px * x rgt + py * y rgt + pz * z rgt in
  let y_cam := px * x up + py * y up + pz * z up in
  let z_cam := px * x fwd + py * y fwd + pz * z fwd in
  if Rle_dec z_cam (1 / 1000)
  then Ok ((screen_width / 2)%Z, (screen_height / 2)%Z)
  else
    aspect <- fdiv (IZR screen_width) (IZR (Z.max 1 screen_height)) ;;
    qx <- fdiv x_cam (z_cam * tan_half c) ;;
    nx <- fdiv qx aspect ;;
    ny <- fdiv y_cam (z_cam * tan_half c) ;;
    let sx := int ((nx * (1 / 2) + 1 / 2) * IZR screen_width) in
    let sy := int ((1 - (ny * (1 / 2) + 1 / 2)) * IZR screen_height) in
    Ok (sx, sy).

(** The screen position [project] has in hand before the two
    [int(...)] conversions; [None] stands for the fallback taken at or
    behind the near threshold.  Used to state properties only. *)
Definition project_real (c : Camera) (point : Point3D)
           (screen_width screen_height : Z) : result (option (R * R)) :=
  b <- get_basis c ;;
  let '(rgt, up, fwd, cam_pos) := b in
  let px := x point - x cam_pos in
  let py := y point - y cam_pos in
  let pz := z point - z cam_pos in
  let x_cam := px * x rgt + py * y rgt + pz * z rgt in
  let y_cam := px * x up + py * y up + pz * z up in
  let z_cam := px * x fwd + py * y fwd + pz * z fwd in
  if Rle_dec z_cam (1 / 1000)
  then Ok None
  else
    aspect <- fdiv (IZR screen_width) (IZR (Z.max 1 screen_height)) ;;
    qx <- fdiv x_cam (z_cam * tan_half c) ;;
    nx <- fdiv qx aspect ;;
    ny <- fdiv y_cam (z_cam * tan_half c) ;;
    Ok (Some ((nx * (1 / 2) + 1 / 2) * IZR screen_width,
              (1 - (ny * (1 / 2) + 1 / 2)) * IZR screen_height)).

(** Returns [(cam_pos, direction)]. *)
Definition screen_to_ray (c : Camera) (sx sy : Z)
           (screen_width screen_height : Z) : result (Point3D * Point3D) :=
  b <- get_basis c ;;
  let '(rgt, up, fwd, cam_pos) := b in
  qx <- fdiv (IZR sx) (IZR (Z.max 1 screen_width)) ;;
  let x_ndc := qx * 2 - 1 in
  qy <- fdiv (IZR sy) (IZR (Z.max 1 screen_height)) ;;
  let y_ndc := 1 - qy * 2 in
  aspect <- fdiv (IZR screen_width) (IZR (Z.max 1 screen_height)) ;;
  let dx := x_ndc * aspect * tan_half c in
  let dy := y_ndc * tan_half c in
  let dir_x := dx * x rgt + dy * x up + x fwd in
  let dir_y := dx * y rgt + dy * y up + y fwd in
  let dir_z := dx * z rgt + dy * z up + z fwd in
  dxx <- pow2 dir_x ;;
  dyy <- pow2 dir_y ;;
  dzz <- pow2 dir_z ;;
  let dl := or_one (sqrt (dxx + dyy + dzz)) in
  d_x <- fdiv dir_x dl ;;
  d_y <- fdiv dir_y dl ;;
  d_z <- fdiv dir_z dl ;;
  Ok (cam_pos, mkPoint3D d_x d_y d_z).

(** [plane_y] is the keyword argument [y]. *)
Definition unproject (c : Camera) (screen_x screen_y : Z)
           (screen_width screen_height : Z) (plane_y : R) : result Point3D :=
  ray <- screen_to_ray c screen_x screen_y screen_width screen_height ;;
  let '(origin, direction) := ray in
  if Rlt_dec (Rabs (y direction)) (1 / 100000)
  then Ok (mkPoint3D (x origin) plane_y (z origin))
  else
    t <- fdiv (plane_y - y origin) (y direction) ;;
    if Rle_dec t 0
    then Ok (mkPoint3D (x origin + x direction * 1) plane_y
                       (z origin + z direction * 1))
    else Ok (mkPoint3D (x origin + x direction * t) plane_y
                       (z origin + z direction * t)).

End Camera.

(** ** [sorted(l, key=...)] with float keys

    Python's sort is stable: entries with equal keys keep their relative
    order.  [insert_by] therefore places a new head in front of the first
    entry whose key is not smaller. *)

Section SortedByKey.

Variable A : Type.
Variable key : A -> R.

Fixpoint insert_by (a : A) (l : list A) : list A :=
  match l with
  | [] => [a]
  | b :: l' =>
      if Rlt_dec (key b) (key a) then b :: insert_by a l' else a :: b :: l'
  end.

Definition sorted (l : list A) : list A := fold_right insert_by [] l.

End SortedByKey.

(** ** [app.py]: the planner state and its methods

    The fields kept are those read or written by the methods below.
    [objects] holds the scene by value: snapshots are built field by field
    from it and are never mutated afterwards, so no sharing is observable
    through the history.  [selected_object] holds the object the Python
    reference points to.  In the program that object is usually also an
    element of [objects] (not after an undo or redo, which rebuild the
    list), and what the wheel handler writes to it is then visible in the
    list as well.  This alias is not tracked: [on_mousewheel] gives the
    selected object and the camera after the event and leaves [objects]
    as it was, so it says nothing about the scale a later hit test or
    snapshot finds, and no property below combines the two. *)

Record AdvancedClassroomPlanner : Type := mkApp {
  window_width : Z;
  window_height : Z;
  camera : Camera;
  objects : list Object3D;
  selected_object : option Object3D;
  dragging_camera : bool;
  last_mouse_pos : Z * Z;
  right_click_start : option (Z * Z);
  history : list (list Object3D);
  history_index : Z;
  max_history : Z;
  ar_mode_active : bool
}.

Module App.

Definition t : Type := AdvancedClassroomPlanner.

(** Field assignments. *)

Definition set_camera (v : Camera) (s : t) : t :=
  mkApp (window_width s) (window_height s) v (objects s)
        (selected_object s) (dragging_camera s) (last_mouse_pos s)
        (right_click_start s) (history s) (history_index s)
        (max_history s) (ar_mode_active s).

Definition set_objects (v : list Object3D) (s : t) : t :=
  mkApp (window_width s) (window_height s) (camera s) v
        (selected_object s) (dragging_camera s) (last_mouse_pos s)
        (right_click_start s) (history s) (history_index s)
        (max_history s) (ar_mode_active s).

Definition set_selected_object (v : option Object3D) (s : t) : t :=
  mkApp (window_width s) (window_height s) (camera s) (objects s)
        v (dragging_camera s) (last_mouse_pos s)
        (right_click_start s) (history s) (history_index s)
        (max_history s) (ar_mode_active s).

Definition set_dragging_camera (v : bool) (s : t) : t :=
  mkApp (window_width s) (window_height s) (camera s) (objects s)
        (selected_object s) v (last_mouse_pos s)
        (right_click_start s) (history s) (history_index s)
        (max_history s) (ar_mode_active s).

Definition set_last_mouse_pos (v : Z * Z) (s : t) : t :=
  mkApp (window_width s) (window_height s) (camera s) (objects s)
        (selected_object s) (dragging_camera s) v
        (right_click_start s) (history s) (history_index s)
        (max_history s) (ar_mode_active s).

Definition set_right_click_start (v : option (Z * Z)) (s : t) : t :=
  mkApp (window_width s) (window_height s) (camera s) (objects s)
        (selected_object s) (dragging_camera s) (last_mouse_pos s)
        v (history s) (history_index s)
        (max_history s) (ar_mode_active s).

Definition set_history (v : list (list Object3D)) (s : t) : t :=
  mkApp (window_width s) (window_height s) (camera s) (objects s)
        (selected_object s) (dragging_camera s) (last_mouse_pos s)
        (right_click_start s) v (history_index s)
        (max_history s) (ar_mode_active s).

Definition set_history_index (v : Z) (s : t) : t :=
  mkApp (window_width s) (window_height s) (camera s) (objects s)
        (selected_object s) (dragging_camera s) (last_mouse_pos s)
        (right_click_start s) (history s) v
        (max_history s) (ar_mode_active s).

(** The state [__init__] leaves behind. *)
Definition init : t :=
  mkApp 1600 900 Camera.init [] None false (0, 0)%Z None [] (-1) 50 false.

Definition len {A : Type} (l : list A) : Z := Z.of_nat (List.length l).

(** *** History *)

Definition save_state (s : t) : t :=
  let s :=
    if (history_index s <? len (history s) - 1)%Z
    then set_history (Py.take (history s) (history_index s + 1)) s
    else s in
  let state := map copy_object (objects s) in
  let s := set_history (history s ++ [state]) s in
  if (len (history s) >? max_history s)%Z
  then set_history (Py.pop0 (history s)) s
  else set_history_index (history_index s + 1) s.

Definition undo (s : t) : result t :=
  if (history_index s >? 0)%Z
  then
    let s := set_history_index (history_index s - 1) s in
    snap <- Py.index (history s) (history_index s) ;;
    Ok (set_objects (map copy_object snap) s)
  else Ok s.

Definition redo (s : t) : result t :=
  if (history_index s <? len (history s) - 1)%Z
  then
    let s := set_history_index (history_index s + 1) s in
    snap <- Py.index (history s) (history_index s) ;;
    Ok (set_objects (map copy_object snap) s)
  else Ok s.

(** *** Hit testing *)

Local Open Scope string_scope.

(** [{"chair": 40, ...}.get(obj_type, 40)]. *)
Definition base_radius (ty : string) : R :=
  if String.eqb ty "chair" then 40%R
  else if String.eqb ty "desk" then 60%R
  else if String.eqb ty "table" then 80%R
  else if String.eqb ty "podium" then 45%R
  else if String.eqb ty "cabinet" then 50%R
  else 40%R.

Local Close Scope string_scope.

(** The key function [dist2] of [get_object_at_mouse]. *)
Definition dist2 (cam_pos : Point3D) (o : Object3D) : R :=
  let dx := (x (position o) - x cam_pos)%R in
  let dy := (y (position o) - y cam_pos)%R in
  let dz := (z (position o) - z cam_pos)%R in
  (dx * dx + dy * dy + dz * dz)%R.

(** The body of the [for obj in sorted(...)] loop, over the entries
    still to be visited. *)
Fixpoint hit_loop (s : t) (mouse_pos : Z * Z) (l : list Object3D)
  : result (option Object3D) :=
  match l with
  | [] => Ok None
  | obj :: rest =>
      screen_pt <- Camera.project (camera s) (position obj)
                                  (window_width s) (window_height s) ;;
      let dx := (fst mouse_pos - fst screen_pt)%Z in
      let dy := (snd mouse_pos - snd screen_pt)%Z in
      let d := sqrt (IZR dx ^ 2 + IZR dy ^ 2) in
      let base := base_radius (obj_type obj) in
      let hit_radius := (base * scale obj)%R in
      if Rle_dec d hit_radius then Ok (Some obj) else hit_loop s mouse_pos rest
  end.

Definition get_object_at_mouse (s : t) (mouse_pos : Z * Z)
  : result (option Object3D) :=
  match objects s with
  | [] => Ok None
  | _ :: _ =>
      b <- Camera.get_basis (camera s) ;;
      let '(_, _, _, cam_pos) := b in
      hit_loop s mouse_pos (sorted (dist2 cam_pos) (objects s))
  end.

(** *** Input handling: the cases of [handle_events] *)

(** [MOUSEBUTTONUP] with [event.button == 3]; the cursor change inside
    [try] does not touch the state. *)
Definition on_mousebuttonup_3 (pos : Z * Z) (s : t) : result t :=
  let was_drag :=
    match right_click_start s with
    | Some start =>
        let dx := (fst pos - fst start)%Z in
        let dy := (snd pos - snd start)%Z in
        (dx * dx + dy * dy >? 9)%Z
    | None => false
    end in
  let s := set_dragging_camera false s in
  let s := set_right_click_start None s in
  if negb was_drag
  then
    hit <- get_object_at_mouse s pos ;;
    match hit with
    | Some obj =>
        let s := set_objects
                   (filter (fun o => negb (id o =? id obj)%Z) (objects s)) s in
        let s := set_selected_object None s in
        Ok (save_state s)
    | None => Ok s
    end
  else Ok s.

(** [MOUSEMOTION]: the body of the [if self.dragging_camera:] branch. *)
Definition drag_camera (pos : Z * Z) (s : t) : t :=
  let dx := (fst pos - fst (last_mouse_pos s))%Z in
  let dy := (snd pos - snd (last_mouse_pos s))%Z in
  let c := camera s in
  let c := mkCamera (distance c)
                    (Py.fmod (angle_h c + IZR dx * (1 / 2)) 360)
                    (angle_v c) (target c) (fov c) in
  let c := mkCamera (distance c) (angle_h c)
                    (Rmax (-85) (Rmin 85 (angle_v c - IZR dy * (3 / 10))))
                    (target c) (fov c) in
  let s := set_camera c s in
  set_last_mouse_pos pos s.

(** [MOUSEWHEEL]; [lshift] is [keys[pygame.K_LSHIFT]] and [ev_y] is
    [event.y].  The object written is the one [selected_object] refers
    to; see the note on the alias with [objects] above. *)
Definition on_mousewheel (lshift : bool) (ev_y : Z) (s : t) : t :=
  let c := camera s in
  let zoomed :=
    set_camera (mkCamera (Rmax 200 (Rmin 1500 (distance c - IZR ev_y * 40)))
                         (angle_h c) (angle_v c) (target c) (fov c)) s in
  match selected_object s with
  | Some sel =>
      if lshift && negb (ar_mode_active s)
      then
        let sel := mkObject3D (name sel) (position sel) (rotation sel)
                              (obj_type sel) (id sel)
                              (scale sel + IZR ev_y * (1 / 10))%R
                              (selected sel) in
        let sel := mkObject3D (name sel) (position sel) (rotation sel)
                              (obj_type sel) (id sel)
                              (Rmax (1 / 2) (Rmin 2 (scale sel)))
                              (selected sel) in
        set_selected_object (Some sel) s
      else zoomed
  | None => zoomed
  end.

(** *** Sequences of operations, for stating properties *)

(** An edit of the scene followed by a commit. *)
Definition commit (scene : list Object3D) (s : t) : t :=
  save_state (set_objects scene s).

Definition commits (scenes : list (list Object3D)) (s : t) : t :=
  fold_left (fun s scene => commit scene s) scenes s.

Fixpoint undo_n (n : nat) (s : t) : result t :=
  match n with
  | O => Ok s
  | S n' => s' <- undo s ;; undo_n n' s'
  end.

Definition drags (moves : list (Z * Z)) (s : t) : t :=
  fold_left (fun s pos => drag_camera pos s) moves s.

Definition wheels (evs : list (bool * Z)) (s : t) : t :=
  fold_left (fun s ev => on_mousewheel (fst ev) (snd ev) s) evs s.

End App.

Import App.

(** ** Vocabulary for the properties

    Nothing below is part of the program: these definitions name the
    quantities the statements talk about. *)

(** *** History *)

(** The snapshot [save_state] takes of a scene. *)
Definition snapshot (scene : list Object3D) : list Object3D := map copy_object scene.

(** The last [k] entries of a list. *)
Definition lastn {A : Type} (k : nat) (l : list A) : list A :=
  skipn (List.length l - k) l.

(** The entries [save_state] keeps before appending: everything up to the
    cursor. *)
Definition kept (s : t) : list (list Object3D) :=
  if (history_index s <? len (history s) - 1)%Z
  then Py.take (history s) (history_index s + 1)
  else history s.

(** The capacity rule applied to a history that has just grown. *)
Definition trim (cap : Z) (h : list (list Object3D)) : list (list Object3D) :=
  if (len h >? cap)%Z then tl h else h.

(** The cursor sits on the newest entry and the capacity is respected. *)
Definition at_end (s : t) : Prop :=
  history_index s = (len (history s) - 1)%Z /\ (len (history s) <= max_history s)%Z.

(** The cursor designates an entry, or is [-1] on an empty history. *)
Definition cursor_ok (s : t) : Prop :=
  (-1 <= history_index s < len (history s))%Z.

Definition unselected (o : Object3D) : Prop := selected o = false.

(** *** Secondary-button release *)

(** What the handler does to the drag bookkeeping in every case. *)
Definition release_flags (s : t) : t :=
  set_right_click_start None (set_dragging_camera false s).

(** Squared pixel displacement between two pointer positions. *)
Definition displacement2 (pos start : Z * Z) : Z :=
  let dx := (fst pos - fst start)%Z in
  let dy := (snd pos - snd start)%Z in
  (dx * dx + dy * dy)%Z.

(** The state after the click deleted [obj] and committed. *)
Definition delete_clicked (obj : Object3D) (s : t) : t :=
  save_state
    (set_selected_object None
       (set_objects (filter (fun o => negb (id o =? id obj)%Z) (objects s)) s)).

(** *** Camera geometry, hit testing, wheel and drag ranges *)

Section GeometryVocabulary.

Local Open Scope R_scope.

(** The basis of a camera that is neither at its target nor looking
    straight up or down, in closed form. *)
Definition basis_right (c : Camera) : Point3D :=
  mkPoint3D (sin (radians (angle_h c))) 0 (- cos (radians (angle_h c))).

Definition basis_up (c : Camera) : Point3D :=
  mkPoint3D (- cos (radians (angle_h c)) * sin (radians (angle_v c)))
            (cos (radians (angle_v c)))
            (- sin (radians (angle_h c)) * sin (radians (angle_v c))).

Definition basis_forward (c : Camera) : Point3D :=
  mkPoint3D (- cos (radians (angle_v c)) * cos (radians (angle_h c)))
            (- sin (radians (angle_v c)))
            (- cos (radians (angle_v c)) * sin (radians (angle_h c))).

(** The vector from the camera to a point. *)
Definition offset (c : Camera) (p : Point3D) : Point3D :=
  let cam_pos := Camera.get_position c in
  mkPoint3D (x p - x cam_pos) (y p - y cam_pos) (z p - z cam_pos).

(** The direction whose camera-space coordinates are [(a, b, 1)]. *)
Definition along (c : Camera) (a b : R) : Point3D :=
  mkPoint3D (a * x (basis_right c) + b * x (basis_up c) + x (basis_forward c))
            (a * y (basis_right c) + b * y (basis_up c) + y (basis_forward c))
            (a * z (basis_right c) + b * z (basis_up c) + z (basis_forward c)).

(** [dx] and [dy] of [screen_to_ray] in a window at least one pixel wide
    and high, where [max(1, ...)] changes nothing. *)
Definition ray_dx (c : Camera) (sx w h : Z) : R :=
  (IZR sx / IZR w * 2 - 1) * (IZR w / IZR h) * Camera.tan_half c.

Definition ray_dy (c : Camera) (sy h : Z) : R :=
  (1 - IZR sy / IZR h * 2) * Camera.tan_half c.

(** Camera-space depth of a point: [z_cam] of [project]. *)
Definition depth (c : Camera) (p : Point3D) : R :=
  Point3D.dot (offset c p) (basis_forward c).

(** The ranges in which the statements that a method returns are made.
    They keep the float computation far from overflow, underflow and
    cancellation, and contain the zoom range [[200, 1500]], the orbit
    target [(0, 0, 0)] the program never moves, and the windows of any
    real display. *)
Definition ordinary_point (p : Point3D) : Prop :=
  Rabs (x p) <= 10 ^ 6 /\ Rabs (y p) <= 10 ^ 6 /\ Rabs (z p) <= 10 ^ 6.

Definition ordinary_camera (c : Camera) : Prop :=
  1 <= distance c <= 10 ^ 6 /\ Rabs (angle_h c) <= 10 ^ 6 /\
  -85 <= angle_v c <= 85 /\ ordinary_point (target c).

Definition ordinary_window (w h : Z) : Prop :=
  (1 <= w <= 10 ^ 5)%Z /\ (1 <= h <= 10 ^ 5)%Z.

Definition ordinary_pixel (pos : Z * Z) : Prop :=
  (Z.abs (fst pos) <= 10 ^ 6)%Z /\ (Z.abs (snd pos) <= 10 ^ 6)%Z.

(** A planner whose camera and window are in the ordinary range, with
    the field of view [__init__] sets and nothing changes. *)
Definition ordinary_view (s : t) : Prop :=
  ordinary_camera (camera s) /\ fov (camera s) = 60 /\
  ordinary_window (window_width s) (window_height s).

(** The integers [int(...)] can give for a float that is within half a
    unit of the exact value [v]. *)
Definition truncates_to (v : R) (n : Z) : Prop :=
  exists e : R, Rabs e <= 1 / 2 /\ n = Py.int (v + e).

Definition angles_in_range (c : Camera) : Prop :=
  0 <= angle_h c < 360 /\ -85 <= angle_v c <= 85.

Definition wheel_ranges (s : t) : Prop :=
  (forall sel : Object3D, selected_object s = Some sel -> 1 / 2 <= scale sel <= 2) /\
  200 <= distance (camera s) <= 1500.

(** Order of two entries by their sort key. *)
Definition key_le (A : Type) (key : A -> R) (a b : A) : Prop := key a <= key b.

(** The acceptance test of the loop body of [get_object_at_mouse], as a
    boolean. *)
Definition hitb (s : t) (mouse_pos : Z * Z) (obj : Object3D) : bool :=
  match Camera.project (camera s) (position obj)
                       (window_width s) (window_height s) with
  | Ok screen_pt =>
      let dx := (fst mouse_pos - fst screen_pt)%Z in
      let dy := (snd mouse_pos - snd screen_pt)%Z in
      if Rle_dec (sqrt (IZR dx ^ 2 + IZR dy ^ 2))
                 (base_radius (obj_type obj) * scale obj)
      then true else false
  | Raise _ => false
  end.

(** [project] returns for every point. *)
Definition projects (s : t) : Prop :=
  forall p : Point3D,
    exists pt : Z * Z,
      Camera.project (camera s) p (window_width s) (window_height s) = Ok pt.

End GeometryVocabulary.

(** *** Concrete states used as examples *)

Section Examples.

Local Open Scope string_scope.

Definition selected_chair : Object3D :=
  mkObject3D "chair" (mkPoint3D 0 0 0) 180 "chair" 1 1 true.

(** One chair placed (and committed by [place_object]), then clicked:
    the click sets [selected] on the live object. *)
Definition placed_then_selected : t :=
  mkApp 1600 900 Camera.init [selected_chair] (Some selected_chair)
        false (0, 0)%Z None [[copy_object selected_chair]] 0 50 false.

(** The chair placed and selected, then deleted with a commit. *)
Definition placed_then_deleted : t :=
  mkApp 1600 900 Camera.init [] None
        false (0, 0)%Z None [[copy_object selected_chair]; []] 1 50 false.

Definition origin_chair : Object3D :=
  mkObject3D "chair" (mkPoint3D 0 0 0) 180 "chair" 1 1 false.

(** One chair at the orbit target; the secondary button went down at
    (797, 450) and the pointer has since moved three pixels to the right,
    turning the camera by 1.5 degrees. *)
Definition release_at_threshold : t :=
  mkApp 1600 900 (mkCamera 700 (93 / 2) 35 (mkPoint3D 0 0 0) 60)
        [origin_chair] None true (800, 450)%Z (Some (797, 450)%Z)
        [[origin_chair]] 0 50 false.

(** A camera looking along the x axis, tilted 30 degrees down. *)
Definition tilted30 : Camera := mkCamera 700 0 30 (mkPoint3D 0 0 0) 60.

(** The ground point seen through pixel (688, 450) of [tilted30]. *)
Definition behind_pixel_688 : Point3D :=
  mkPoint3D 0 0 (1568 / (9 * sqrt 3)).

(** A camera whose orbit distance is zero, as [load_layout] installs it
    from a layout file that says so. *)
Definition collapsed_camera : Camera := mkCamera 0 45 35 (mkPoint3D 0 0 0) 60.

(** A camera whose orbit distance is 1e200, installed the same way. *)
Definition far_camera : Camera := mkCamera (10 ^ 200) 0 0 (mkPoint3D 0 0 0) 60.




End Examples.

(** * Further parts of the program

    The methods the editing, view, start-up and layout events reach
    besides the ones above, with the same conventions. *)

(** ** [objects.py]: the remaining methods of [Point3D] *)

Module Vector.

Local Open Scope R_scope.

(** [__add__]. *)
Definition add (a other : Point3D) : Point3D :=
  mkPoint3D (x a + x other) (y a + y other) (z a + z other).

(** [__sub__]. *)
Definition sub (a other : Point3D) : Point3D :=
  mkPoint3D (x a - x other) (y a - y other) (z a - z other).

(** [__mul__]. *)
Definition mul (a : Point3D) (scalar : R) : Point3D :=
  mkPoint3D (x a * scalar) (y a * scalar) (z a * scalar).

(** [length()], whose squares can leave the float range.  Squares that
    underflow to zero are not modelled; the statements about
    [normalize] are made for vectors of length [10^-6] or more. *)
Definition length (a : Point3D) : result R :=
  xx <- pow2 (x a) ;;
  yy <- pow2 (y a) ;;
  zz <- pow2 (z a) ;;
  Ok (sqrt (xx + yy + zz)).

Definition normalize (a : Point3D) : result Point3D :=
  l <- length a ;;
  if Req_dec_T l 0
  then Ok (mkPoint3D 0 0 0)
  else
    nx <- fdiv (x a) l ;;
    ny <- fdiv (y a) l ;;
    nz <- fdiv (z a) l ;;
    Ok (mkPoint3D nx ny nz).

End Vector.

(** ** [ui.py]: the shading of [draw_shaded_polygon] *)

Module UI.

Local Open Scope R_scope.

(** The colour [draw_shaded_polygon] fills the polygon with: the
    computation of [shaded_color], before the points are projected and
    drawn; [None] is the early [return] for fewer than three points.
    [color] is the [(r, g, b)] of [color[:3]]. *)
Definition shaded_color (points_3d : list Point3D) (color : Z * Z * Z)
  : result (option (Z * Z * Z)) :=
  match points_3d with
  | p0 :: p1 :: p2 :: _ =>
      LIGHT_VEC <- Vector.normalize (mkPoint3D (- (1 / 2)) (12 / 10) (- (8 / 10))) ;;
      let AMBIENT_LIGHT := 4 / 10 in
      let v1 := Vector.sub p1 p0 in
      let v2 := Vector.sub p2 p0 in
      normal <- Vector.normalize (Point3D.cross v1 v2) ;;
      let diffuse := Rmax 0 (Point3D.dot normal LIGHT_VEC) in
      let intensity := AMBIENT_LIGHT + diffuse * (1 - AMBIENT_LIGHT) in
      let intensity := Rmax 0 (Rmin 1 intensity) in
      let '(r, g, b) := color in
      Ok (Some (Py.int (IZR r * intensity),
                Py.int (IZR g * intensity),
                Py.int (IZR b * intensity)))
  | _ => Ok None
  end.

End UI.

(** ** More of Python's numbers *)

Module PyNum.

(** [round(a)] for a float [a]: the nearest integer, ties to the even one. *)
Definition round (a : R) : Z :=
  let f := Zfloor a in
  let r := (a - IZR f)%R in
  if Rlt_dec r (1 / 2) then f
  else if Rlt_dec (1 / 2) r then (f + 1)%Z
  else if Z.even f then f else (f + 1)%Z.

End PyNum.

(** ** [app.py]: the planner with the fields of the editing methods

    [core] is the part of the object modelled above; the other fields
    are further attributes of the same Python object. *)

Record Planner : Type := mkPlanner {
  core : AdvancedClassroomPlanner;
  app_state : string;
  door_angle : R;
  grid_width : R;
  grid_depth : R;
  grid_height : R;
  setup_error_msg : string;
  selected_object_type : string;
  next_id : Z;
  dragging_object : bool;
  snap_to_grid : bool
}.

Module Editing.

Local Open Scope R_scope.

Definition GRID_SIZE : R := 25.
Definition UNITS_PER_FOOT : R := 25.

Definition set_core (v : AdvancedClassroomPlanner) (p : Planner) : Planner :=
  mkPlanner v (app_state p) (door_angle p) (grid_width p) (grid_depth p)
            (grid_height p) (setup_error_msg p) (selected_object_type p)
            (next_id p) (dragging_object p) (snap_to_grid p).

Definition set_next_id (v : Z) (p : Planner) : Planner :=
  mkPlanner (core p) (app_state p) (door_angle p) (grid_width p) (grid_depth p)
            (grid_height p) (setup_error_msg p) (selected_object_type p)
            v (dragging_object p) (snap_to_grid p).

Definition set_dragging_object (v : bool) (p : Planner) : Planner :=
  mkPlanner (core p) (app_state p) (door_angle p) (grid_width p) (grid_depth p)
            (grid_height p) (setup_error_msg p) (selected_object_type p)
            (next_id p) v (snap_to_grid p).

(** The state [__init__] leaves behind. *)
Definition initial : Planner :=
  mkPlanner App.init "SETUP" 0 0 0 0 EmptyString "chair" 1 false true.

Definition clamp_to_grid (p : Planner) (pos : Point3D) : Point3D :=
  let hw := grid_width p / 2 in
  let hd := grid_depth p / 2 in
  let pos := mkPoint3D (Rmax (- hw) (Rmin hw (x pos))) (y pos) (z pos) in
  let pos := mkPoint3D (x pos) (y pos) (Rmax (- hd) (Rmin hd (z pos))) in
  pos.

(** The two assignments under [if self.snap_to_grid:], shared by
    [place_object] and the object-drag branch. *)
Definition snap_to_cells (world_pos : Point3D) : Point3D :=
  let world_pos :=
    mkPoint3D (IZR (PyNum.round (x world_pos / GRID_SIZE)) * GRID_SIZE)
              (y world_pos) (z world_pos) in
  mkPoint3D (x world_pos) (y world_pos)
            (IZR (PyNum.round (z world_pos / GRID_SIZE)) * GRID_SIZE).

Definition place_object (mouse_pos : Z * Z) (p : Planner) : result Planner :=
  world_pos <- Camera.unproject (camera (core p)) (fst mouse_pos) (snd mouse_pos)
                                (window_width (core p)) (window_height (core p)) 0 ;;
  let world_pos := if snap_to_grid p then snap_to_cells world_pos else world_pos in
  let world_pos := clamp_to_grid p world_pos in
  let default_rotation :=
    if String.eqb (selected_object_type p) "chair" then 180 else 0 in
  let obj := mkObject3D (selected_object_type p) world_pos default_rotation
                        (selected_object_type p) (next_id p) 1 false in
  let p := set_next_id (next_id p + 1) p in
  let p := set_core (set_objects (objects (core p) ++ [obj]) (core p)) p in
  Ok (set_core (save_state (core p)) p).

(** [KEYDOWN] with [event.key == pygame.K_DELETE]. *)
Definition on_keydown_delete (s : AdvancedClassroomPlanner) : AdvancedClassroomPlanner :=
  match selected_object s with
  | Some sel =>
      let s := set_objects
                 (filter (fun obj => negb (id obj =? id sel)%Z) (objects s)) s in
      let s := set_selected_object None s in
      save_state s
  | None => s
  end.

(** [o.selected = v] on one object. *)
Definition set_selected (v : bool) (o : Object3D) : Object3D :=
  mkObject3D (name o) (position o) (rotation o) (obj_type o) (id o) (scale o) v.

(** [MOUSEBUTTONDOWN] with [event.button == 1], after the two loops over
    the buttons: [clicked_ui] is what they computed. *)
Definition on_mousebuttondown_1 (clicked_ui : bool) (pos : Z * Z) (p : Planner)
  : result Planner :=
  if negb clicked_ui && (snd pos >? 70)%Z && negb (ar_mode_active (core p))
  then
    hit <- get_object_at_mouse (core p) pos ;;
    match hit with
    | Some obj =>
        let s := set_objects
                   (map (fun o => set_selected (id o =? id obj)%Z o) (objects (core p)))
                   (core p) in
        let s := set_selected_object (Some (set_selected true obj)) s in
        Ok (set_dragging_object true (set_core s p))
    | None =>
        let s := set_selected_object None (core p) in
        let s := set_objects (map (set_selected false) (objects s)) s in
        place_object pos (set_core s p)
    end
  else Ok p.

End Editing.

Import Editing.

(** *** Editing sessions *)

Module Session.

(** The branch [name == "clear"] of [MOUSEBUTTONUP] with
    [event.button == 1]. *)
Definition on_clear (s : AdvancedClassroomPlanner) : AdvancedClassroomPlanner :=
  let s := set_objects [] s in
  let s := set_selected_object None s in
  save_state s.

Definition set_selected_object_type (v : string) (p : Planner) : Planner :=
  mkPlanner (core p) (app_state p) (door_angle p) (grid_width p) (grid_depth p)
            (grid_height p) (setup_error_msg p) v
            (next_id p) (dragging_object p) (snap_to_grid p).

Definition set_snap_to_grid (v : bool) (p : Planner) : Planner :=
  mkPlanner (core p) (app_state p) (door_angle p) (grid_width p) (grid_depth p)
            (grid_height p) (setup_error_msg p) (selected_object_type p)
            (next_id p) (dragging_object p) v.

(** What a primary release activates: [active_button] with the pointer
    still on it.  [NoButton] is a release with no active button or off
    it; [TypeButton] is the [else] branch, reached by the five object
    types.  The buttons that save, load, take a screenshot, switch the AR
    view, make a marker or show the grid and the help are not among the
    cases. *)
Inductive released_on : Type :=
| NoButton
| ClearButton
| UndoButton
| RedoButton
| TypeButton (name : string)
| SnapToggle.

(** [MOUSEBUTTONUP] with [event.button == 1]. *)
Definition on_mousebuttonup_1 (b : released_on) (p : Planner) : result Planner :=
  p <- match b with
       | NoButton => Ok p
       | ClearButton => Ok (set_core (on_clear (core p)) p)
       | UndoButton => s <- undo (core p) ;; Ok (set_core s p)
       | RedoButton => s <- redo (core p) ;; Ok (set_core s p)
       | TypeButton name => Ok (set_selected_object_type name p)
       | SnapToggle => Ok (set_snap_to_grid (negb (snap_to_grid p)) p)
       end ;;
  let p := if dragging_object p then set_core (save_state (core p)) p else p in
  Ok (set_dragging_object false p).

(** The events of an editing session that change the scene or the
    history. *)
Inductive edit_op : Type :=
| Click (clicked_ui : bool) (pos : Z * Z)
| Release (b : released_on)
| PressDelete
| RightRelease (pos : Z * Z)
| CtrlZ
| CtrlY.

Definition run_edit (op : edit_op) (p : Planner) : result Planner :=
  match op with
  | Click clicked_ui pos => on_mousebuttondown_1 clicked_ui pos p
  | Release b => on_mousebuttonup_1 b p
  | PressDelete => Ok (set_core (on_keydown_delete (core p)) p)
  | RightRelease pos => s <- on_mousebuttonup_3 pos (core p) ;; Ok (set_core s p)
  | CtrlZ => s <- undo (core p) ;; Ok (set_core s p)
  | CtrlY => s <- redo (core p) ;; Ok (set_core s p)
  end.

Fixpoint run_edits (ops : list edit_op) (p : Planner) : result Planner :=
  match ops with
  | [] => Ok p
  | op :: rest => p' <- run_edit op p ;; run_edits rest p'
  end.

End Session.

Import Session.

(** *** Camera and window events *)

Module View.

Definition MIN_W : Z := 1024.
Definition MIN_H : Z := 640.

(** [VIDEORESIZE]: the two assignments to the window size; [w] and [h]
    are [event.w] and [event.h]. *)
Definition on_videoresize (w h : Z) (s : AdvancedClassroomPlanner)
  : AdvancedClassroomPlanner :=
  mkApp (Z.max MIN_W w) (Z.max MIN_H h) (camera s) (objects s)
        (selected_object s) (dragging_camera s) (last_mouse_pos s)
        (right_click_start s) (history s) (history_index s)
        (max_history s) (ar_mode_active s).

(** The events that change the camera or the window. *)
Inductive view_op : Type :=
| Wheel (lshift : bool) (ev_y : Z)
| DragTo (pos : Z * Z)
| Resize (w h : Z).

Definition run_view_op (op : view_op) (s : AdvancedClassroomPlanner)
  : AdvancedClassroomPlanner :=
  match op with
  | Wheel lshift ev_y => on_mousewheel lshift ev_y s
  | DragTo pos => drag_camera pos s
  | Resize w h => on_videoresize w h s
  end.

Definition run_view (ops : list view_op) (s : AdvancedClassroomPlanner)
  : AdvancedClassroomPlanner :=
  fold_left (fun s op => run_view_op op s) ops s.

End View.

Import View.

(** *** Start-up: the room dimensions and the welcome screen *)

Module Setup.

Local Open Scope R_scope.
Local Open Scope string_scope.

Definition set_setup_error_msg (v : string) (p : Planner) : Planner :=
  mkPlanner (core p) (app_state p) (door_angle p) (grid_width p) (grid_depth p)
            (grid_height p) v (selected_object_type p)
            (next_id p) (dragging_object p) (snap_to_grid p).

(** [validate_and_start]; [w], [d] and [h] are the outcomes of the three
    [float(...)] calls, [None] standing for [ValueError].  [int] is
    applied to the exact product; the float product can round up to the
    next integer, which the statement about the dimensions allows for. *)
Definition validate_and_start (w d h : option R) (p : Planner) : Planner :=
  match w, d, h with
  | Some w, Some d, Some h =>
      if Rlt_dec w 8 then set_setup_error_msg "Dimensions must be at least 8 feet" p
      else if Rlt_dec d 8 then set_setup_error_msg "Dimensions must be at least 8 feet" p
      else if Rlt_dec h 8 then set_setup_error_msg "Dimensions must be at least 8 feet" p
      else
        let gw := Py.int (w * UNITS_PER_FOOT) in
        let gd := Py.int (d * UNITS_PER_FOOT) in
        let gh := Py.int (h * UNITS_PER_FOOT) in
        let max_dim := Z.max (Z.max gw gd) gh in
        let c := camera (core p) in
        let c := mkCamera (Rmax 1100 (IZR max_dim * 2))
                          (angle_h c) (angle_v c) (target c) (fov c) in
        mkPlanner (set_camera c (core p)) "WELCOME" (door_angle p)
                  (IZR gw) (IZR gd) (IZR gh) (setup_error_msg p)
                  (selected_object_type p) (next_id p) (dragging_object p)
                  (snap_to_grid p)
  | _, _, _ => set_setup_error_msg "Please enter valid numbers." p
  end.

(** The last statements of [draw_welcome_screen], run once per frame
    while the welcome screen is shown. *)
Definition welcome_frame (p : Planner) : Planner :=
  if String.eqb (app_state p) "OPENING"
  then
    let a := door_angle p + (100 - door_angle p) * (6 / 100) in
    mkPlanner (core p) (if Rlt_dec 95 a then "RUNNING" else app_state p) a
              (grid_width p) (grid_depth p) (grid_height p) (setup_error_msg p)
              (selected_object_type p) (next_id p) (dragging_object p)
              (snap_to_grid p)
  else p.

End Setup.

Import Setup.

(** *** Drawing order *)

Module Render.

Local Open Scope R_scope.
Local Open Scope string_scope.





End Render.

Import Render.

(** *** Layout files

    [save_layout] and [load_layout] without the file system: [layout] is
    the JSON document written and read.  The keys [load_layout] reads
    with [.get] or tests with [in] are optional; a missing [objects] key
    is the [KeyError] its [except] clause swallows.  Values of the wrong
    JSON type are not represented. *)

Record obj_data : Type := mkObjData {
  d_id : Z;
  d_type : string;
  d_name : string;
  d_position : Point3D;
  d_rotation : R;
  d_scale : option R
}.

Record camera_data : Type := mkCameraData {
  d_distance : option R;
  d_angle_h : option R;
  d_angle_v : option R
}.

Record grid_data : Type := mkGridData {
  d_width : option R;
  d_depth : option R
}.

Record layout : Type := mkLayout {
  l_camera : option camera_data;
  l_grid : option grid_data;
  l_objects : option (list obj_data)
}.

Module Layout.

Local Open Scope R_scope.

(** [d.get(key, default)]. *)
Definition get {A : Type} (v : option A) (default : A) : A :=
  match v with
  | Some a => a
  | None => default
  end.

(** The document [save_layout] writes, apart from its version and time
    stamp. *)
Definition save_layout (p : Planner) : layout :=
  let c := camera (core p) in
  mkLayout
    (Some (mkCameraData (Some (distance c)) (Some (angle_h c)) (Some (angle_v c))))
    (Some (mkGridData (Some (grid_width p)) (Some (grid_depth p))))
    (Some (map (fun obj =>
                  mkObjData (id obj) (obj_type obj) (name obj)
                            (mkPoint3D (x (position obj)) (y (position obj))
                                       (z (position obj)))
                            (rotation obj) (Some (scale obj)))
               (objects (core p)))).

Definition set_grid (w d : R) (p : Planner) : Planner :=
  mkPlanner (core p) (app_state p) (door_angle p) w d
            (grid_height p) (setup_error_msg p) (selected_object_type p)
            (next_id p) (dragging_object p) (snap_to_grid p).

(** The body of the [for obj_data in data["objects"]] loop, over the
    entries still to be read. *)
Fixpoint load_objects (l : list obj_data) (p : Planner) : Planner :=
  match l with
  | [] => p
  | obj_data :: rest =>
      let obj := mkObject3D (d_name obj_data)
                            (mkPoint3D (x (d_position obj_data))
                                       (y (d_position obj_data))
                                       (z (d_position obj_data)))
                            (d_rotation obj_data) (d_type obj_data)
                            (d_id obj_data) (get (d_scale obj_data) 1) false in
      let p := set_core (set_objects (objects (core p) ++ [obj]) (core p)) p in
      let p := set_next_id (Z.max (next_id p) (id obj + 1)) p in
      load_objects rest p
  end.

(** [load_layout] from the point where the document has been read. *)
Definition load_layout (data : layout) (p : Planner) : Planner :=
  let p :=
    match l_camera data with
    | Some cd =>
        let c := camera (core p) in
        let c := mkCamera (get (d_distance cd) 700) (angle_h c) (angle_v c)
                          (target c) (fov c) in
        let c := mkCamera (distance c) (get (d_angle_h cd) 45) (angle_v c)
                          (target c) (fov c) in
        let c := mkCamera (distance c) (angle_h c) (get (d_angle_v cd) 35)
                          (target c) (fov c) in
        set_core (set_camera c (core p)) p
    | None => p
    end in
  let p :=
    match l_grid data with
    | Some gd => set_grid (get (d_width gd) 600) (get (d_depth gd) 600) p
    | None => set_grid 600 600 p
    end in
  let p := set_core (set_objects [] (core p)) p in
  match l_objects data with
  | Some l =>
      let p := load_objects l p in
      let p := set_core (set_selected_object None (core p)) p in
      set_core (save_state (core p)) p
  | None => p
  end.

End Layout.

(** *** History sessions *)

(** One step of a history session: an edit of the scene followed by a
    commit, an undo, or a redo. *)
Inductive history_op : Type :=
| Commit (scene : list Object3D)
| Undo
| Redo.

Definition run_op (op : history_op) (s : t) : result t :=
  match op with
  | Commit scene => Ok (commit scene s)
  | Undo => undo s
  | Redo => redo s
  end.

Fixpoint run_ops (ops : list history_op) (s : t) : result t :=
  match ops with
  | [] => Ok s
  | op :: rest => s' <- run_op op s ;; run_ops rest s'
  end.

(** ** Vocabulary for the further properties *)

Section SessionVocabulary.

Local Open Scope R_scope.

(** The cursor is [-1] on an empty history and designates an entry
    otherwise; the history respects its capacity. *)
Definition history_wf (s : t) : Prop :=
  ((history s = [] /\ history_index s = (-1)%Z) \/
   (0 <= history_index s < len (history s))%Z) /\
  (len (history s) <= max_history s)%Z.

(** The ids of a scene are pairwise distinct and below [n]. *)
Definition scene_ok (n : Z) (scene : list Object3D) : Prop :=
  NoDup (map id scene) /\ Forall (fun o => (id o < n)%Z) scene.

(** The history is well formed, and every scene the planner holds, live
    or in the history, has distinct ids below [n]. *)
Definition state_ok (n : Z) (s : t) : Prop :=
  history_wf s /\ scene_ok n (objects s) /\ Forall (scene_ok n) (history s).

Definition editor_ok (p : Planner) : Prop := state_ok (next_id p) (core p).

(** Camera and window are those of [s]. *)
Definition same_view (s s' : t) : Prop :=
  camera s' = camera s /\ window_width s' = window_width s /\
  window_height s' = window_height s.

(** The pointer of a click or of a secondary release is at an ordinary
    pixel. *)
Definition ordinary_op (op : edit_op) : Prop :=
  match op with
  | Click _ pos => ordinary_pixel pos
  | RightRelease pos => ordinary_pixel pos
  | _ => True
  end.

(** Every object of the scene is at an ordinary position. *)
Definition ordinary_scene (scene : list Object3D) : Prop :=
  Forall (fun o => ordinary_point (position o)) scene.

(** Room, live scene and history of an editor within the ordinary
    range. *)
Definition ordinary_editor (p : Planner) : Prop :=
  (0 <= grid_width p <= 10 ^ 6)%R /\ (0 <= grid_depth p <= 10 ^ 6)%R /\
  ordinary_scene (objects (core p)) /\
  Forall ordinary_scene (history (core p)).

(** The object [place_object] builds at [world_pos]. *)
Definition placed (p : Planner) (world_pos : Point3D) : Object3D :=
  mkObject3D (selected_object_type p) world_pos
             (if String.eqb (selected_object_type p) "chair" then 180 else 0)
             (selected_object_type p) (next_id p) 1 false.

(** A wheel tick count, a pointer position and a window size as an
    event can carry them. *)
Definition ordinary_view_op (op : view_op) : Prop :=
  match op with
  | Wheel _ ev_y => (Z.abs ev_y <= 10 ^ 6)%Z
  | DragTo pos => ordinary_pixel pos
  | Resize w h => (w <= 10 ^ 5)%Z /\ (h <= 10 ^ 5)%Z
  end.

(** The object [load_layout] builds from one entry of the document. *)
Definition of_data (d : obj_data) : Object3D :=
  mkObject3D (d_name d)
             (mkPoint3D (x (d_position d)) (y (d_position d)) (z (d_position d)))
             (d_rotation d) (d_type d) (d_id d) (Layout.get (d_scale d) 1) false.

(** [next_id] after reading the entries [l], starting from [n]. *)
Definition next_id_after (l : list obj_data) (n : Z) : Z :=
  fold_left (fun n d => Z.max n (d_id d + 1)) l n.

(** The welcome screen after [n] frames. *)
Fixpoint frames (n : nat) (p : Planner) : Planner :=
  match n with
  | O => p
  | S n' => welcome_frame (frames n' p)
  end.

(** What is left of the door's way to 100 degrees after [n] frames. *)
Definition door_gap (p : Planner) (n : nat) : R :=
  (100 - door_angle p) * (94 / 100) ^ n.

(** *** Concrete states used as examples *)

(** The deletion of [placed_then_deleted] undone. *)
Definition deletion_undone : t :=
  mkApp 1600 900 Camera.init [copy_object selected_chair] None
        false (0, 0)%Z None [[copy_object selected_chair]; []] 0 50 false.

(** A room of 20 by 12 feet with nothing in it. *)
Definition small_room : Planner :=
  mkPlanner App.init "RUNNING" 100 500 300 250 EmptyString "chair" 1 false true.

(** One chair in the scene, in front of the camera of
    [release_at_threshold]. *)
Definition chair_in_view : Planner :=
  mkPlanner release_at_threshold "RUNNING" 100 600 600 250 EmptyString "chair" 2 false true.

(** The welcome screen with the door just clicked. *)
Definition door_clicked : Planner :=
  mkPlanner App.init "OPENING" 0 600 600 250 EmptyString "chair" 1 false true.

(** A layout file that lacks the list of objects. *)
Definition no_objects_layout : layout := mkLayout None None None.

End SessionVocabulary.

(** * Properties *)

(** ** History manager *)

Lemma len_app {A : Type} (l1 l2 : list A) : len (l1 ++ l2) = (len l1 + len l2)%Z.
Proof. unfold len. rewrite length_app. lia. Qed.

Lemma len_nonneg {A : Type} (l : list A) : (0 <= len l)%Z.
Proof. unfold len. lia. Qed.

Lemma save_state_unfold (s : t) :
  save_state s =
  let h := kept s ++ [snapshot (objects s)] in
  if (len h >? max_history s)%Z
  then set_history (tl h) s
  else set_history_index (history_index s + 1) (set_history h s).
Proof.
  unfold save_state, kept, snapshot.
  destruct s as [ww wh c o so dc lm rc h i m ar]; simpl.
  destruct (i <? len h - 1)%Z; simpl;
  match goal with |- context [(?a >? m)%Z] => destruct (a >? m)%Z end; reflexivity.
Qed.

Lemma lastn_all {A : Type} (k : nat) (l : list A) :
  (List.length l <= k)%nat -> lastn k l = l.
Proof.
  intros H. unfold lastn. replace (List.length l - k)%nat with 0%nat by lia. reflexivity.
Qed.

Lemma length_lastn {A : Type} (k : nat) (l : list A) :
  List.length (lastn k l) = Nat.min k (List.length l).
Proof. unfold lastn. rewrite length_skipn. lia. Qed.

Lemma lastn_app_lastn {A : Type} (k : nat) (l r : list A) :
  lastn k (lastn k l ++ r) = lastn k (l ++ r).
Proof.
  destruct (Nat.le_gt_cases (List.length l) k) as [Hle | Hgt].
  - rewrite (lastn_all l Hle). reflexivity.
  - unfold lastn at 1 3.
    rewrite !length_app, length_lastn.
    replace (Nat.min k (List.length l)) with k by lia.
    replace (k + List.length r - k)%nat with (List.length r) by lia.
    unfold lastn.
    replace (List.length l + List.length r - k)%nat
      with (List.length r + (List.length l - k))%nat by lia.
    rewrite <- skipn_skipn.
    f_equal.
    rewrite skipn_app.
    replace (List.length l - k - List.length l)%nat with 0%nat by lia.
    reflexivity.
Qed.

Lemma lastn_snoc_full {A : Type} (k : nat) (l : list A) (a : A) :
  List.length l = k -> (1 <= k)%nat -> lastn k (l ++ [a]) = tl (l ++ [a]).
Proof.
  intros Hl Hk. unfold lastn. rewrite length_app. simpl.
  replace (List.length l + 1 - k)%nat with 1%nat by lia.
  destruct l; simpl in *; [lia | reflexivity].
Qed.

Lemma commit_at_end (scene : list Object3D) (s : t) :
  (1 <= max_history s)%Z -> at_end s ->
  history (commit scene s)
  = lastn (Z.to_nat (max_history s)) (history s ++ [snapshot scene]) /\
  at_end (commit scene s) /\
  max_history (commit scene s) = max_history s.
Proof.
  intros Hcap [Hi Hl]. unfold commit. rewrite save_state_unfold.
  unfold kept. simpl.
  rewrite Hi, Z.ltb_irrefl. cbv zeta.
  rewrite len_app. change (len [snapshot scene]) with 1%Z.
  destruct (len (history s) + 1 >? max_history s)%Z eqn:E.
  - assert (Hfull : len (history s) = max_history s) by lia.
    simpl. unfold at_end. simpl.
    rewrite lastn_snoc_full by (unfold len in *; lia).
    split; [reflexivity|]. split; [|reflexivity].
    assert (Hlen : len (tl (history s ++ [snapshot scene])) = len (history s)).
    { unfold len. destruct (history s); simpl; [reflexivity|]. rewrite length_app. simpl. lia. }
    rewrite Hlen. split; lia.
  - simpl. unfold at_end. simpl.
    rewrite lastn_all by (rewrite length_app; simpl; unfold len in *; lia).
    rewrite len_app. change (len [snapshot scene]) with 1%Z.
    repeat split; lia.
Qed.

Lemma commits_at_end (scenes : list (list Object3D)) : forall (s : t),
  (1 <= max_history s)%Z -> at_end s ->
  history (commits scenes s)
  = lastn (Z.to_nat (max_history s)) (history s ++ map snapshot scenes) /\
  at_end (commits scenes s) /\
  max_history (commits scenes s) = max_history s.
Proof.
  induction scenes as [| scene scenes IH]; intros s Hcap Hend.
  - simpl. rewrite app_nil_r. destruct Hend as [Hi Hl].
    rewrite lastn_all by (unfold len in *; lia). repeat split; assumption.
  - simpl. destruct (commit_at_end scene Hcap Hend) as (Hh & Hend' & Hm).
    destruct (IH (commit scene s)) as (Hh2 & Hend2 & Hm2); [lia | assumption |].
    rewrite Hm in *. rewrite Hh2, Hh, lastn_app_lastn, <- app_assoc.
    repeat split; try apply Hend2. lia.
Qed.

Lemma lastn_map {A B : Type} (f : A -> B) (k : nat) (l : list A) :
  lastn k (map f l) = map f (lastn k l).
Proof. unfold lastn. rewrite length_map, skipn_map. reflexivity. Qed.

Lemma index_in_range {A : Type} (l : list A) (i : Z) (d : A) :
  (0 <= i < len l)%Z -> Py.index l i = Ok (nth (Z.to_nat i) l d).
Proof.
  intros H. unfold Py.index. fold (len l).
  replace (i <? 0)%Z with false by lia.
  replace ((0 <=? i) && (i <? len l))%Z with true by lia.
  destruct (nth_error l (Z.to_nat i)) eqn:E.
  - rewrite (nth_error_nth _ _ d E). reflexivity.
  - apply nth_error_None in E. unfold len in H. lia.
Qed.

Lemma copy_object_idem (o : Object3D) : copy_object (copy_object o) = copy_object o.
Proof. reflexivity. Qed.

Lemma snapshot_idem (scene : list Object3D) : snapshot (snapshot scene) = snapshot scene.
Proof.
  unfold snapshot. rewrite map_map. apply map_ext. intros o. apply copy_object_idem.
Qed.

Lemma undo_at_zero (s : t) : (history_index s <= 0)%Z -> undo s = Ok s.
Proof. intros H. unfold undo. replace (history_index s >? 0)%Z with false by lia. reflexivity. Qed.

Lemma undo_n_at_zero (n : nat) (s : t) : (history_index s <= 0)%Z -> undo_n n s = Ok s.
Proof.
  intros H. induction n as [| n IH]; simpl; [reflexivity|].
  rewrite undo_at_zero by assumption. simpl. exact IH.
Qed.

Lemma undo_step (s : t) :
  (0 < history_index s < len (history s))%Z ->
  undo s = Ok (set_objects
                 (snapshot (nth (Z.to_nat (history_index s - 1)) (history s) []))
                 (set_history_index (history_index s - 1) s)).
Proof.
  intros H. unfold undo. replace (history_index s >? 0)%Z with true by lia.
  simpl. rewrite (@index_in_range _ (history s) (history_index s - 1) []) by lia.
  reflexivity.
Qed.

Lemma undo_n_to_zero (n : nat) : forall (s : t),
  history_index s = Z.of_nat n -> (history_index s < len (history s))%Z ->
  (1 <= n)%nat ->
  exists s', undo_n n s = Ok s' /\
             objects s' = snapshot (nth 0 (history s) []) /\
             history s' = history s /\
             history_index s' = 0%Z.
Proof.
  induction n as [| n IH]; intros s Hi Hlt Hn; [lia|].
  simpl. rewrite undo_step by lia. simpl.
  destruct n as [| n'].
  - eexists. split; [reflexivity|]. simpl. rewrite Hi. simpl. repeat split.
  - edestruct (IH (set_objects
                 (snapshot (nth (Z.to_nat (history_index s - 1)) (history s) []))
                 (set_history_index (history_index s - 1) s))) as (s' & Hu & Ho & Hh & Hz);
      [simpl; lia | simpl; lia | lia |].
    exists s'. split; [exact Hu|]. simpl in *. repeat split; assumption.
Qed.

(** C1.  History capacity bound.  Starting from an empty history with a
    capacity of at least two (the program uses 50), after more commits
    than the capacity the history holds exactly [capacity] entries, namely
    the snapshots of the last [capacity] scenes, and the cursor is on the
    newest.  Within any single commit exactly one of two branches runs:
    either the oldest entry is dropped and the cursor stays, or nothing is
    dropped and the cursor advances by one.  Undoing [capacity - 1] times
    succeeds and leaves the oldest retained snapshot as the live scene;
    any number of further undos changes nothing. *)
Theorem history_capacity_bound :
  forall (s0 : t) (scenes : list (list Object3D)),
    history s0 = [] -> history_index s0 = (-1)%Z ->
    (2 <= max_history s0)%Z -> (max_history s0 < len scenes)%Z ->
    let cap := max_history s0 in
    let s := commits scenes s0 in
    len (history s) = cap /\
    history s = map snapshot (lastn (Z.to_nat cap) scenes) /\
    history_index s = (cap - 1)%Z /\
    (forall s1 : t,
        let h := kept s1 ++ [snapshot (objects s1)] in
        ((len h > max_history s1)%Z /\
         history (save_state s1) = tl h /\
         history_index (save_state s1) = history_index s1)
        \/
        ((len h <= max_history s1)%Z /\
         history (save_state s1) = h /\
         history_index (save_state s1) = (history_index s1 + 1)%Z)) /\
    exists s' : t,
      undo_n (Z.to_nat (cap - 1)) s = Ok s' /\
      hd_error (history s) = Some (objects s') /\
      history s' = history s /\
      forall n : nat, undo_n n s' = Ok s'.
Proof.
  intros s0 scenes Hh Hi Hcap HN cap s.
  assert (Hend0 : at_end s0).
  { unfold at_end. rewrite Hh, Hi. simpl. unfold len. simpl. lia. }
  destruct (@commits_at_end scenes s0) as (Hhist & [Hidx Hle] & Hmax); [lia | assumption |].
  fold s in Hhist, Hidx, Hle, Hmax. fold cap in Hhist, Hmax.
  rewrite Hh in Hhist. simpl in Hhist. rewrite lastn_map in Hhist.
  assert (Hlen : len (history s) = cap).
  { rewrite Hhist. unfold len. rewrite length_map, length_lastn.
    unfold len in HN. fold cap in HN. lia. }
  split; [exact Hlen|]. split; [exact Hhist|].
  split; [lia|]. split.
  - intros s1 h. rewrite save_state_unfold. fold h. cbv zeta.
    destruct (len h >? max_history s1)%Z eqn:E; [left | right]; simpl;
      repeat split; lia.
  - destruct (@undo_n_to_zero (Z.to_nat (cap - 1)) s) as (s' & Hu & Ho & Hh' & Hz);
      [lia | lia | lia |].
    exists s'. split; [exact Hu|]. split; [|split; [exact Hh'|]].
    + rewrite Ho. rewrite Hhist.
      destruct (lastn (Z.to_nat cap) scenes) as [| sc rest] eqn:El.
      * exfalso. rewrite Hhist in Hlen. unfold len in Hlen. simpl in Hlen. lia.
      * simpl. rewrite snapshot_idem. reflexivity.
    + intros n. apply undo_n_at_zero. lia.
Qed.

Lemma history_capacity_bound_witness :
  let s := commits (repeat [] 51) init in
  len (history s) = 50%Z /\ history_index s = 49%Z.
Proof.
  destruct (@history_capacity_bound init (repeat [] 51)) as (H1 & _ & H3 & _);
    [reflexivity | reflexivity | simpl; lia | vm_compute; reflexivity |].
  split; [exact H1 | exact H3].
Defined.

Lemma take_firstn {A : Type} (l : list A) (k : Z) :
  (0 <= k)%Z -> Py.take l k = firstn (Z.to_nat k) l.
Proof. intros H. unfold Py.take. replace (k <? 0)%Z with false by lia. reflexivity. Qed.

Lemma kept_firstn (s : t) :
  cursor_ok s -> kept s = firstn (Z.to_nat (history_index s + 1)) (history s).
Proof.
  intros [Hlo Hhi]. unfold kept.
  destruct (history_index s <? len (history s) - 1)%Z eqn:E.
  - apply take_firstn. lia.
  - assert (Hi : history_index s = (len (history s) - 1)%Z) by lia.
    rewrite Hi. replace (len (history s) - 1 + 1)%Z with (len (history s)) by lia.
    unfold len. rewrite Nat2Z.id, firstn_all. reflexivity.
Qed.

Lemma len_kept (s : t) : cursor_ok s -> len (kept s) = (history_index s + 1)%Z.
Proof.
  intros H. rewrite kept_firstn by assumption. destruct H as [Hlo Hhi].
  unfold len in *. rewrite length_firstn. lia.
Qed.

Lemma len_tl {A : Type} (l : list A) : (1 <= len l)%Z -> len (tl l) = (len l - 1)%Z.
Proof. destruct l; unfold len; cbn [tl List.length]; lia. Qed.

Lemma save_state_cursor (s : t) :
  cursor_ok s ->
  history (save_state s) = trim (max_history s) (kept s ++ [snapshot (objects s)]) /\
  history_index (save_state s) = (len (history (save_state s)) - 1)%Z /\
  cursor_ok (save_state s) /\
  max_history (save_state s) = max_history s.
Proof.
  intros Hok. pose proof (len_kept Hok) as Hk. destruct Hok as [Hlo Hhi].
  rewrite save_state_unfold. cbv zeta. unfold trim, cursor_ok.
  assert (Hh : len (kept s ++ [snapshot (objects s)]) = (history_index s + 2)%Z).
  { rewrite len_app, Hk. unfold len. simpl. lia. }
  destruct (len (kept s ++ [snapshot (objects s)]) >? max_history s)%Z eqn:E; simpl.
  - rewrite len_tl by lia. repeat split; lia.
  - repeat split; lia.
Qed.

Lemma redo_at_end (s : t) :
  history_index s = (len (history s) - 1)%Z -> redo s = Ok s.
Proof.
  intros H. unfold redo. rewrite H, Z.ltb_irrefl. reflexivity.
Qed.

Lemma undo_total (s : t) :
  cursor_ok s ->
  exists s', undo s = Ok s' /\ cursor_ok s' /\ history s' = history s /\
             max_history s' = max_history s.
Proof.
  intros [Hlo Hhi]. destruct (Z_lt_le_dec 0 (history_index s)) as [Hpos | Hz].
  - rewrite undo_step by lia. eexists. split; [reflexivity|].
    unfold cursor_ok. simpl. repeat split; lia.
  - rewrite undo_at_zero by lia. exists s. unfold cursor_ok. repeat split; lia.
Qed.

Lemma undo_step_fields (s : t) :
  (0 < history_index s < len (history s))%Z ->
  exists s' : t,
    undo s = Ok s' /\
    history s' = history s /\
    history_index s' = (history_index s - 1)%Z /\
    max_history s' = max_history s.
Proof.
  intros H. rewrite undo_step by exact H. eexists. split; [reflexivity|].
  cbn [history history_index max_history set_objects set_history_index].
  repeat split.
Qed.

Lemma commit_cursor (scene : list Object3D) (s : t) :
  cursor_ok s ->
  history (commit scene s)
  = trim (max_history s)
         (firstn (Z.to_nat (history_index s + 1)) (history s) ++ [snapshot scene]) /\
  history_index (commit scene s) = (len (history (commit scene s)) - 1)%Z.
Proof.
  intros Hok.
  assert (Hok' : cursor_ok (set_objects scene s)) by exact Hok.
  destruct (save_state_cursor Hok') as (Hh & Hi & _ & _).
  rewrite (kept_firstn Hok') in Hh.
  split; [exact Hh | exact Hi].
Qed.

Lemma fresh_sequence (s0 : t) (scene1 scene2 scene3 : list Object3D) :
  history s0 = [] -> history_index s0 = (-1)%Z -> max_history s0 = 50%Z ->
  exists s3 : t,
    undo (commit scene2 (commit scene1 s0)) = Ok s3 /\
    history (commit scene3 s3) = [snapshot scene1; snapshot scene3] /\
    history_index (commit scene3 s3) = 1%Z /\
    redo (commit scene3 s3) = Ok (commit scene3 s3).
Proof.
  intros Hh Hi Hm.
  assert (Hend0 : at_end s0).
  { unfold at_end. rewrite Hh, Hi, Hm. unfold len. simpl. lia. }
  destruct (@commit_at_end scene1 s0) as (Hh1 & Hend1 & Hm1); [lia | exact Hend0 |].
  generalize dependent (commit scene1 s0). intros s1 Hh1 Hend1 Hm1.
  rewrite Hh, Hm in Hh1. rewrite Hm in Hm1.
  unfold lastn in Hh1. simpl in Hh1.
  destruct (@commit_at_end scene2 s1) as (Hh2 & Hend2 & Hm2); [lia | exact Hend1 |].
  generalize dependent (commit scene2 s1). intros s2 Hh2 Hend2 Hm2.
  rewrite Hh1, Hm1 in Hh2. rewrite Hm1 in Hm2.
  unfold lastn in Hh2. simpl in Hh2.
  assert (Hi2 : history_index s2 = 1%Z).
  { destruct Hend2 as [Hi2 _]. rewrite Hi2, Hh2. reflexivity. }
  destruct (@undo_step_fields s2) as (s3 & Hu & Hh3 & Hi3 & Hm3).
  { rewrite Hi2, Hh2. unfold len. simpl. lia. }
  exists s3. split; [exact Hu|].
  rewrite Hh2 in Hh3. rewrite Hi2 in Hi3. rewrite Hm2 in Hm3. simpl in Hi3.
  destruct (@commit_cursor scene3 s3) as (Hh4 & Hi4).
  { unfold cursor_ok. rewrite Hi3, Hh3. unfold len. simpl. lia. }
  rewrite Hi3, Hh3, Hm3 in Hh4. unfold trim in Hh4. simpl in Hh4.
  split; [exact Hh4|].
  split; [rewrite Hi4, Hh4; reflexivity|].
  apply redo_at_end. exact Hi4.
Qed.

Lemma init_sequence (scene1 scene2 scene3 : list Object3D) :
  exists s3 : t,
    undo (commit scene2 (commit scene1 init)) = Ok s3 /\
    history (commit scene3 s3) = [snapshot scene1; snapshot scene3] /\
    history_index (commit scene3 s3) = 1%Z /\
    redo (commit scene3 s3) = Ok (commit scene3 s3).
Proof. apply fresh_sequence; reflexivity. Qed.

(** C2.  Commit-after-undo truncation.  Whenever the cursor designates an
    entry (or the history is empty), a commit keeps the entries up to the
    cursor, discards every entry after it, appends the new snapshot and
    applies the capacity rule; a redo issued right after a commit returns
    the state unchanged.  In particular commit, commit, undo, commit
    leaves redo without effect, from any such state and from the initial
    state, where the history then holds the first and the third snapshot
    only. *)
Theorem commit_after_undo_truncation :
  forall (s : t) (scene1 scene2 scene3 : list Object3D),
    cursor_ok s ->
    history (save_state s)
    = trim (max_history s)
           (firstn (Z.to_nat (history_index s + 1)) (history s)
              ++ [snapshot (objects s)]) /\
    redo (save_state s) = Ok (save_state s) /\
    (exists s3 : t,
        undo (commit scene2 (commit scene1 s)) = Ok s3 /\
        redo (commit scene3 s3) = Ok (commit scene3 s3)) /\
    (exists s3 : t,
        undo (commit scene2 (commit scene1 init)) = Ok s3 /\
        history (commit scene3 s3) = [snapshot scene1; snapshot scene3] /\
        history_index (commit scene3 s3) = 1%Z /\
        redo (commit scene3 s3) = Ok (commit scene3 s3)).
Proof.
  intros s scene1 scene2 scene3 Hok.
  destruct (save_state_cursor Hok) as (Hh & Hi & _ & _).
  split; [rewrite Hh, kept_firstn by assumption; reflexivity|].
  split; [apply redo_at_end; exact Hi|].
  split.
  - assert (H1 : cursor_ok (commit scene1 s)).
    { unfold commit. apply save_state_cursor. exact Hok. }
    assert (H2 : cursor_ok (commit scene2 (commit scene1 s))).
    { unfold commit at 1. apply save_state_cursor. exact H1. }
    destruct (undo_total H2) as (s3 & Hu & Hok3 & _).
    exists s3. split; [exact Hu|].
    apply redo_at_end. unfold commit. apply save_state_cursor. exact Hok3.
  - apply init_sequence.
Qed.

Lemma commit_after_undo_truncation_witness :
  cursor_ok init /\ redo (save_state init) = Ok (save_state init).
Proof.
  assert (H : cursor_ok init).
  { unfold cursor_ok. cbn [history_index history init]. unfold len. simpl. lia. }
  split; [exact H|].
  destruct (@commit_after_undo_truncation init [] [] [] H) as (_ & Hr & _).
  exact Hr.
Defined.

Lemma snapshot_unselected (scene : list Object3D) : Forall unselected (snapshot scene).
Proof.
  unfold snapshot. induction scene as [| o scene IH]; simpl; constructor.
  - reflexivity.
  - exact IH.
Qed.

Lemma In_tl {A : Type} (a : A) (l : list A) : In a (tl l) -> In a l.
Proof. destruct l; simpl; auto. Qed.

Lemma In_take {A : Type} (a : A) (l : list A) (k : Z) : In a (Py.take l k) -> In a l.
Proof.
  unfold Py.take. intros H.
  rewrite <- (firstn_skipn (Z.to_nat
    (if (k <? 0)%Z then Z.max 0 (k + Z.of_nat (List.length l)) else k)) l).
  apply in_or_app. left. exact H.
Qed.

Lemma In_kept (snap : list Object3D) (s : t) : In snap (kept s) -> In snap (history s).
Proof.
  unfold kept. destruct (history_index s <? len (history s) - 1)%Z.
  - apply In_take.
  - auto.
Qed.

Lemma save_state_new_entry (s : t) (snap : list Object3D) :
  In snap (history (save_state s)) ->
  In snap (history s) \/ snap = snapshot (objects s).
Proof.
  rewrite save_state_unfold. cbv zeta.
  destruct (len (kept s ++ [snapshot (objects s)]) >? max_history s)%Z;
    cbn [history set_history set_history_index]; intros H.
  - apply In_tl in H. apply in_app_or in H. destruct H as [H | [H | []]].
    + left. apply In_kept. exact H.
    + right. symmetry. exact H.
  - apply in_app_or in H. destruct H as [H | [H | []]].
    + left. apply In_kept. exact H.
    + right. symmetry. exact H.
Qed.

Lemma undo_moved (s s' : t) :
  undo s = Ok s' -> history_index s' <> history_index s ->
  exists snap, objects s' = snapshot snap.
Proof.
  unfold undo. destruct (history_index s >? 0)%Z.
  - cbn [history history_index set_history_index].
    destruct (Py.index (history s) (history_index s - 1)) as [snap | e]; simpl.
    + intros [= <-] _. exists snap. reflexivity.
    + discriminate.
  - intros [= <-] Hne. contradiction.
Qed.

Lemma redo_moved (s s' : t) :
  redo s = Ok s' -> history_index s' <> history_index s ->
  exists snap, objects s' = snapshot snap.
Proof.
  unfold redo. destruct (history_index s <? len (history s) - 1)%Z.
  - cbn [history history_index set_history_index].
    destruct (Py.index (history s) (history_index s + 1)) as [snap | e]; simpl.
    + intros [= <-] _. exists snap. reflexivity.
    + discriminate.
  - intros [= <-] Hne. contradiction.
Qed.

(** C10, as stated, fails: an undo that finds the cursor at index 0
    returns the state unchanged, so a selected object stays selected. *)
Lemma undo_without_effect_keeps_selection :
  ~ (forall s s' : t, undo s = Ok s' -> Forall unselected (objects s')).
Proof.
  intros H.
  specialize (H placed_then_selected placed_then_selected eq_refl).
  inversion H as [| o l Ho _]. discriminate Ho.
Qed.

(** C10, amended.  An undo or redo that moves the cursor leaves only
    unselected objects in the live list, whatever the flags were when the
    snapshot was committed; the copies [save_state] makes are unselected,
    and they are the only entries a commit adds to the history. *)
Theorem restored_scene_is_unselected :
  forall (s s' : t),
    undo s = Ok s' \/ redo s = Ok s' ->
    history_index s' <> history_index s ->
    Forall unselected (objects s') /\
    Forall unselected (snapshot (objects s)) /\
    (forall snap : list Object3D,
        In snap (history (save_state s)) ->
        In snap (history s) \/ snap = snapshot (objects s)).
Proof.
  intros s s' Hop Hmoved. split; [|split].
  - destruct Hop as [Hu | Hr].
    + destruct (undo_moved _ Hu Hmoved) as [snap ->]. apply snapshot_unselected.
    + destruct (redo_moved _ Hr Hmoved) as [snap ->]. apply snapshot_unselected.
  - apply snapshot_unselected.
  - apply save_state_new_entry.
Qed.

Lemma restored_scene_is_unselected_witness :
  exists s' : t,
    undo placed_then_deleted = Ok s' /\
    objects s' = [copy_object selected_chair] /\
    Forall unselected (objects s').
Proof.
  eexists. split; [reflexivity|]. split; [reflexivity|].
  refine (proj1 (@restored_scene_is_unselected placed_then_deleted _ (or_introl eq_refl) _)).
  cbn. discriminate.
Defined.

(** ** Camera *)

Local Open Scope R_scope.

Lemma fdiv_ok (a b : R) : b <> 0 -> fdiv a b = Ok (a / b).
Proof. intros H. unfold fdiv. destruct (Req_dec_T b 0); [contradiction | reflexivity]. Qed.

Lemma fdiv_zero (a : R) : fdiv a 0 = Raise ZeroDivisionError.
Proof. unfold fdiv. destruct (Req_dec_T 0 0); [reflexivity | contradiction]. Qed.

Lemma or_one_pos (v : R) : 0 < v -> or_one v = v.
Proof. intros H. unfold or_one. destruct (Req_dec_T v 0); [lra | reflexivity]. Qed.

Lemma or_one_nonzero (v : R) : or_one v <> 0.
Proof. unfold or_one. destruct (Req_dec_T v 0); lra. Qed.

Lemma or_one_sqrt_pos (v : R) : 0 < or_one (sqrt v).
Proof.
  unfold or_one. destruct (Req_dec_T (sqrt v) 0) as [E | N]; [lra|].
  pose proof (sqrt_pos v). lra.
Qed.

Lemma sqrt_of_square (a b : R) : 0 <= b -> a = b * b -> sqrt a = b.
Proof. intros Hb ->. apply sqrt_square. exact Hb. Qed.

Lemma sin_cos_sqr (a : R) : sin a * sin a + cos a * cos a = 1.
Proof. pose proof (sin2_cos2 a) as H. unfold Rsqr in H. exact H. Qed.

Lemma float_limit_gt : 10 ^ 40 < float_limit.
Proof.
  unfold float_limit.
  replace 10 with (IZR 10) by reflexivity. replace 2 with (IZR 2) by reflexivity.
  rewrite !pow_IZR, <- minus_IZR. apply IZR_lt. vm_compute. reflexivity.
Qed.

Lemma float_limit_lt : float_limit < 10 ^ 400.
Proof.
  unfold float_limit.
  replace 10 with (IZR 10) by reflexivity. replace 2 with (IZR 2) by reflexivity.
  rewrite !pow_IZR, <- minus_IZR. apply IZR_lt. vm_compute. reflexivity.
Qed.

Lemma pow2_ok (a : R) : a ^ 2 < float_limit -> pow2 a = Ok (a ^ 2).
Proof.
  intros H. unfold pow2.
  destruct (Rle_dec float_limit (a ^ 2)) as [Hle | _]; [lra | reflexivity].
Qed.

Lemma pow2_overflow (a : R) : float_limit <= a ^ 2 -> pow2 a = Raise OverflowError.
Proof.
  intros H. unfold pow2.
  destruct (Rle_dec float_limit (a ^ 2)) as [_ | Hn]; [reflexivity | contradiction].
Qed.

Lemma pow_10_20_sqr : (10 ^ 20) ^ 2 = 10 ^ 40.
Proof. rewrite <- pow_mult. reflexivity. Qed.

(** A square that stays within the square of a bound up to [10 ^ 20]
    does not overflow. *)
Lemma pow2_bounded (a d : R) :
  a ^ 2 <= d ^ 2 -> 0 <= d <= 10 ^ 20 -> pow2 a = Ok (a ^ 2).
Proof.
  intros Ha [Hd0 Hd1]. apply pow2_ok.
  apply Rle_lt_trans with (10 ^ 40); [| exact float_limit_gt].
  rewrite <- pow_10_20_sqr. apply Rle_trans with (d ^ 2); [exact Ha|].
  apply pow_incr. split; assumption.
Qed.

Lemma pow_10_6_le : 10 ^ 6 <= 10 ^ 20.
Proof. apply Rle_pow; [lra | lia]. Qed.

Lemma pow2_zero : pow2 0 = Ok 0.
Proof.
  rewrite pow2_ok; [f_equal; ring|].
  apply Rlt_trans with (10 ^ 40); [| exact float_limit_gt].
  replace (0 ^ 2) with 0 by ring. apply pow_lt. lra.
Qed.

(** Squared length of the offset from the camera to its target. *)
Lemma offset_norm (c : Camera) :
  let p := Camera.get_position c in
  (x (target c) - x p) ^ 2 + (y (target c) - y p) ^ 2 + (z (target c) - z p) ^ 2
  = distance c * distance c.
Proof.
  unfold Camera.get_position. cbn [x y z].
  set (h := radians (angle_h c)). set (v := radians (angle_v c)).
  pose proof (sin_cos_sqr h) as Hh. pose proof (sin_cos_sqr v) as Hv.
  replace ((x (target c) - (x (target c) + distance c * cos v * cos h)) ^ 2 +
           (y (target c) - (y (target c) + distance c * sin v)) ^ 2 +
           (z (target c) - (z (target c) + distance c * cos v * sin h)) ^ 2)
    with (distance c * distance c *
          (cos v * cos v * (sin h * sin h + cos h * cos h) + sin v * sin v)) by ring.
  rewrite Hh. replace (cos v * cos v * 1 + sin v * sin v) with 1 by lra. ring.
Qed.

Lemma offset_length (c : Camera) :
  let p := Camera.get_position c in
  sqrt ((x (target c) - x p) ^ 2 + (y (target c) - y p) ^ 2 + (z (target c) - z p) ^ 2)
  = Rabs (distance c).
Proof.
  intros p. unfold p. rewrite offset_norm.
  replace (distance c * distance c) with (Rsqr (distance c)) by reflexivity.
  apply sqrt_Rsqr_abs.
Qed.

(** A zero orbit distance makes [get_basis] divide by zero. *)
Lemma get_basis_zero_distance (c : Camera) :
  distance c = 0 -> Camera.get_basis c = Raise ZeroDivisionError.
Proof.
  intros Hd. unfold Camera.get_basis. cbv zeta. cbn [x y z].
  assert (Hx : x (target c) - x (Camera.get_position c) = 0)
    by (unfold Camera.get_position; cbn [x]; rewrite Hd; ring).
  assert (Hy : y (target c) - y (Camera.get_position c) = 0)
    by (unfold Camera.get_position; cbn [y]; rewrite Hd; ring).
  assert (Hz : z (target c) - z (Camera.get_position c) = 0)
    by (unfold Camera.get_position; cbn [z]; rewrite Hd; ring).
  rewrite Hx, Hy, Hz, pow2_zero. cbn [bind].
  replace (0 + 0 + 0) with 0 by ring. rewrite sqrt_0, fdiv_zero. reflexivity.
Qed.

Lemma screen_to_ray_zero_distance (c : Camera) (sx sy w h : Z) :
  distance c = 0 -> Camera.screen_to_ray c sx sy w h = Raise ZeroDivisionError.
Proof.
  intros Hd. unfold Camera.screen_to_ray. rewrite get_basis_zero_distance by exact Hd.
  reflexivity.
Qed.

(** C3.  [unproject] does raise: with an orbit distance of zero the camera
    sits on its target, [get_basis] divides the zero offset by its zero
    length, and the [ZeroDivisionError] propagates through
    [screen_to_ray] to [unproject], for every screen point, window size
    and plane height. *)
Theorem unproject_raises_at_zero_distance :
  forall (c : Camera) (screen_x screen_y screen_width screen_height : Z) (plane_y : R),
    distance c = 0 ->
    Camera.unproject c screen_x screen_y screen_width screen_height plane_y
    = Raise ZeroDivisionError.
Proof.
  intros c sx sy w h py Hd. unfold Camera.unproject.
  rewrite screen_to_ray_zero_distance by exact Hd. reflexivity.
Qed.

Lemma unproject_raises_at_zero_distance_witness :
  distance collapsed_camera = 0 /\
  Camera.unproject collapsed_camera 800 450 1600 900 0 = Raise ZeroDivisionError.
Proof.
  split; [reflexivity|].
  apply (@unproject_raises_at_zero_distance collapsed_camera 800 450 1600 900 0).
  reflexivity.
Defined.

Lemma point_eq (a b c a' b' c' : R) :
  a = a' -> b = b' -> c = c' -> mkPoint3D a b c = mkPoint3D a' b' c'.
Proof. intros -> -> ->. reflexivity. Qed.

Lemma radians_0 : radians 0 = 0.
Proof. unfold radians. field. Qed.

Lemma cos_radians_pos (a : R) : -85 <= a <= 85 -> 0 < cos (radians a).
Proof.
  intros [Hlo Hhi]. pose proof PI_RGT_0 as Hpi. unfold radians.
  apply cos_gt_0; nra.
Qed.

Lemma length_one (p : Point3D) :
  x p * x p + y p * y p + z p * z p = 1 -> Point3D.length p = 1.
Proof.
  intros H. unfold Point3D.length.
  replace (x p ^ 2 + y p ^ 2 + z p ^ 2) with 1 by (rewrite <- H; ring).
  apply sqrt_1.
Qed.

Section BasisAlgebra.

Variable c : Camera.

Let h := radians (angle_h c).
Let v := radians (angle_v c).

Lemma right_unit : Point3D.dot (basis_right c) (basis_right c) = 1.
Proof.
  unfold Point3D.dot, basis_right. cbn [x y z]. fold h.
  pose proof (sin_cos_sqr h). lra.
Qed.

Lemma up_unit : Point3D.dot (basis_up c) (basis_up c) = 1.
Proof.
  unfold Point3D.dot, basis_up. cbn [x y z]. fold h v.
  pose proof (sin_cos_sqr h) as Hh. pose proof (sin_cos_sqr v) as Hv.
  replace (- cos h * sin v * (- cos h * sin v) + cos v * cos v +
           - sin h * sin v * (- sin h * sin v))
    with (sin v * sin v * (sin h * sin h + cos h * cos h) + cos v * cos v) by ring.
  rewrite Hh. lra.
Qed.

Lemma forward_unit : Point3D.dot (basis_forward c) (basis_forward c) = 1.
Proof.
  unfold Point3D.dot, basis_forward. cbn [x y z]. fold h v.
  pose proof (sin_cos_sqr h) as Hh. pose proof (sin_cos_sqr v) as Hv.
  replace (- cos v * cos h * (- cos v * cos h) + - sin v * - sin v +
           - cos v * sin h * (- cos v * sin h))
    with (cos v * cos v * (sin h * sin h + cos h * cos h) + sin v * sin v) by ring.
  rewrite Hh. lra.
Qed.

Lemma right_up_orth : Point3D.dot (basis_right c) (basis_up c) = 0.
Proof. unfold Point3D.dot, basis_right, basis_up. cbn [x y z]. ring. Qed.

Lemma right_forward_orth : Point3D.dot (basis_right c) (basis_forward c) = 0.
Proof. unfold Point3D.dot, basis_right, basis_forward. cbn [x y z]. ring. Qed.

Lemma up_forward_orth : Point3D.dot (basis_up c) (basis_forward c) = 0.
Proof.
  unfold Point3D.dot, basis_up, basis_forward. cbn [x y z]. fold h v.
  pose proof (sin_cos_sqr h) as Hh.
  replace (- cos h * sin v * (- cos v * cos h) + cos v * - sin v +
           - sin h * sin v * (- cos v * sin h))
    with (sin v * cos v * (sin h * sin h + cos h * cos h) - cos v * sin v) by ring.
  rewrite Hh. ring.
Qed.

(** Every vector is the sum of its three components along the basis. *)
Lemma basis_complete (p : Point3D) :
  let a := Point3D.dot p (basis_right c) in
  let b := Point3D.dot p (basis_up c) in
  let g := Point3D.dot p (basis_forward c) in
  x p = a * x (basis_right c) + b * x (basis_up c) + g * x (basis_forward c) /\
  y p = a * y (basis_right c) + b * y (basis_up c) + g * y (basis_forward c) /\
  z p = a * z (basis_right c) + b * z (basis_up c) + g * z (basis_forward c).
Proof.
  unfold Point3D.dot, basis_right, basis_up, basis_forward. cbn [x y z]. fold h v.
  pose proof (sin_cos_sqr h) as Hh. pose proof (sin_cos_sqr v) as Hv.
  set (sh := sin h) in *. set (ch := cos h) in *.
  set (sv := sin v) in *. set (cv := cos v) in *.
  assert (Hh' : sh * sh = 1 - ch * ch) by lra.
  assert (Hv' : sv * sv = 1 - cv * cv) by lra.
  repeat split.
  - transitivity (x p * (sh * sh + ch * ch * (sv * sv + cv * cv))
                  + y p * 0 + z p * (sh * ch * (sv * sv + cv * cv) - sh * ch)).
    + rewrite Hv, Hh'. ring.
    + ring.
  - transitivity (y p * (sv * sv + cv * cv)).
    + rewrite Hv. ring.
    + ring.
  - transitivity (z p * (ch * ch + sh * sh * (sv * sv + cv * cv))
                  + x p * (sh * ch * (sv * sv + cv * cv) - sh * ch)).
    + rewrite Hv, Hh'. ring.
    + ring.
Qed.

End BasisAlgebra.

(** The offset from the camera to its target is [distance] times the
    forward vector. *)
Lemma offset_to_target (c : Camera) :
  x (target c) - x (Camera.get_position c) = distance c * x (basis_forward c) /\
  y (target c) - y (Camera.get_position c) = distance c * y (basis_forward c) /\
  z (target c) - z (Camera.get_position c) = distance c * z (basis_forward c).
Proof.
  unfold Camera.get_position, basis_forward. cbn [x y z]. repeat split; ring.
Qed.

Lemma unit_components (p : Point3D) :
  Point3D.dot p p = 1 -> x p ^ 2 <= 1 /\ y p ^ 2 <= 1 /\ z p ^ 2 <= 1.
Proof.
  unfold Point3D.dot. intros H.
  pose proof (pow2_ge_0 (x p)). pose proof (pow2_ge_0 (y p)).
  pose proof (pow2_ge_0 (z p)). repeat split; nra.
Qed.

Lemma one_in_range : 0 <= 1 <= 10 ^ 20.
Proof. split; [lra | apply pow_R1_Rle; lra]. Qed.

Lemma get_basis_closed (c : Camera) :
  0 < distance c -> distance c <= 10 ^ 6 -> 0 < cos (radians (angle_v c)) ->
  Camera.get_basis c
  = Ok (basis_right c, basis_up c, basis_forward c, Camera.get_position c).
Proof.
  intros Hd Hmax Hcv.
  destruct (offset_to_target c) as (Hx & Hy & Hz).
  destruct (unit_components (forward_unit c)) as (Hfx & Hfy & Hfz).
  pose proof (forward_unit c) as Hfu. unfold Point3D.dot in Hfu.
  assert (Hrange : 0 <= distance c <= 10 ^ 20) by (pose proof pow_10_6_le; lra).
  unfold Camera.get_basis. cbv zeta. cbn [x y z]. rewrite Hx, Hy, Hz.
  clear Hx Hy Hz.
  set (d := distance c) in *.
  set (fx := x (basis_forward c)) in *.
  set (fy := y (basis_forward c)) in *.
  set (fz := z (basis_forward c)) in *.
  rewrite (@pow2_bounded (d * fx) d) by first [exact Hrange | nra].
  rewrite (@pow2_bounded (d * fy) d) by first [exact Hrange | nra].
  rewrite (@pow2_bounded (d * fz) d) by first [exact Hrange | nra].
  cbn [bind].
  assert (Hfl : sqrt ((d * fx) ^ 2 + (d * fy) ^ 2 + (d * fz) ^ 2) = d).
  { apply sqrt_of_square; [lra|].
    transitivity (d * d * (fx * fx + fy * fy + fz * fz)); [ring|].
    rewrite Hfu. ring. }
  rewrite Hfl. rewrite !fdiv_ok by lra. cbn [bind x y z].
  replace (d * fx / d) with fx by (field; lra).
  replace (d * fy / d) with fy by (field; lra).
  replace (d * fz / d) with fz by (field; lra).
  rewrite (@pow2_bounded (fy * 0 - fz * 1) 1) by first [exact one_in_range | nra].
  rewrite (@pow2_bounded (fz * 0 - fx * 0) 1) by first [exact one_in_range | nra].
  rewrite (@pow2_bounded (fx * 1 - fy * 0) 1) by first [exact one_in_range | nra].
  cbn [bind].
  subst fx fy fz. clear Hfx Hfy Hfz Hfu Hfl.
  unfold basis_right, basis_up, basis_forward, Camera.get_position. cbn [x y z].
  set (h := radians (angle_h c)). set (v := radians (angle_v c)). fold v in Hcv.
  pose proof (sin_cos_sqr h) as Hh.
  assert (Hrl : sqrt ((- sin v * 0 - - cos v * sin h * 1) ^ 2 +
                      (- cos v * sin h * 0 - - cos v * cos h * 0) ^ 2 +
                      (- cos v * cos h * 1 - - sin v * 0) ^ 2) = cos v).
  { apply sqrt_of_square; [lra|].
    replace ((- sin v * 0 - - cos v * sin h * 1) ^ 2 +
             (- cos v * sin h * 0 - - cos v * cos h * 0) ^ 2 +
             (- cos v * cos h * 1 - - sin v * 0) ^ 2)
      with (cos v * cos v * (sin h * sin h + cos h * cos h)) by ring.
    rewrite Hh. ring. }
  rewrite Hrl. rewrite or_one_pos by exact Hcv.
  rewrite !fdiv_ok by lra. cbn [bind x y z].
  f_equal. f_equal. f_equal. f_equal.
  - apply point_eq; field; lra.
  - apply point_eq.
    + field; lra.
    + transitivity (cos v * (sin h * sin h + cos h * cos h)).
      * field; lra.
      * rewrite Hh. ring.
    + field; lra.
Qed.

Lemma init_ordinary : ordinary_camera Camera.init.
Proof.
  unfold ordinary_camera, ordinary_point. cbn.
  rewrite Rabs_R0, (Rabs_pos_eq 45) by lra. lra.
Qed.

(** C8, as stated, fails: a positive distance and a vertical angle in
    range do not make [get_basis] return.  With a distance of 1e200 the
    squares taken for the length of the forward vector leave the float
    range and [get_basis] raises [OverflowError]. *)
Lemma get_basis_overflows_far_away :
  (-85 <= angle_v far_camera <= 85) /\ (0 < distance far_camera) /\
  Camera.get_basis far_camera = Raise OverflowError.
Proof.
  split; [cbn [far_camera angle_v]; lra|].
  split; [unfold far_camera; cbn [distance]; apply pow_lt; lra|].
  unfold Camera.get_basis, Camera.get_position, far_camera.
  cbn [distance angle_h angle_v target x y z bind].
  rewrite radians_0, cos_0, sin_0.
  rewrite pow2_overflow; [reflexivity|].
  replace ((0 - (0 + 10 ^ 200 * 1 * 1)) ^ 2) with (10 ^ 400).
  - left. exact float_limit_lt.
  - replace (0 - (0 + 10 ^ 200 * 1 * 1)) with (- 10 ^ 200) by ring.
    rewrite <- Rsqr_pow2, <- Rsqr_neg, Rsqr_pow2, <- pow_mult. reflexivity.
Qed.

(** C8, amended.  Basis orthonormality.  For a camera in the ordinary
    range (distance in [[1, 10^6]], [angle_v] in [[-85, 85]], [angle_h]
    and the target coordinates of magnitude at most [10^6]), [get_basis]
    returns; its three vectors are pairwise orthogonal and of length one
    (exactly so in real arithmetic), the fourth component is the camera
    position, and the forward vector points from the camera position to
    the target: the target is [distance] times forward away from the
    position. *)
Theorem basis_orthonormal :
  forall c : Camera,
    ordinary_camera c ->
    exists rgt up fwd cam_pos : Point3D,
      Camera.get_basis c = Ok (rgt, up, fwd, cam_pos) /\
      cam_pos = Camera.get_position c /\
      Point3D.dot rgt up = 0 /\
      Point3D.dot rgt fwd = 0 /\
      Point3D.dot up fwd = 0 /\
      Point3D.length rgt = 1 /\
      Point3D.length up = 1 /\
      Point3D.length fwd = 1 /\
      x (target c) - x cam_pos = distance c * x fwd /\
      y (target c) - y cam_pos = distance c * y fwd /\
      z (target c) - z cam_pos = distance c * z fwd.
Proof.
  intros c (Hd & _ & Hv & _).
  exists (basis_right c), (basis_up c), (basis_forward c), (Camera.get_position c).
  split; [apply get_basis_closed; [lra | lra | apply cos_radians_pos; exact Hv]|].
  split; [reflexivity|].
  split; [apply right_up_orth|].
  split; [apply right_forward_orth|].
  split; [apply up_forward_orth|].
  split; [apply length_one, right_unit|].
  split; [apply length_one, up_unit|].
  split; [apply length_one, forward_unit|].
  unfold Camera.get_position, basis_forward. cbn [x y z].
  repeat split; ring.
Qed.

Lemma basis_orthonormal_witness :
  exists rgt up fwd cam_pos : Point3D,
    Camera.get_basis Camera.init = Ok (rgt, up, fwd, cam_pos) /\
    Point3D.dot rgt up = 0 /\ Point3D.length fwd = 1.
Proof.
  destruct (@basis_orthonormal Camera.init init_ordinary)
    as (r & u & f & p & Hb & _ & Hru & _ & _ & _ & _ & Hf & _).
  exists r, u, f, p. repeat split; assumption.
Defined.

Lemma Zmax1_nonzero (n : Z) : IZR (Z.max 1 n) <> 0.
Proof. apply not_0_IZR. lia. Qed.

(** The three outcomes of [unproject] once the ray is known. *)
Lemma unproject_cases (c : Camera) (sx sy w h : Z) (plane_y : R)
      (origin direction : Point3D) :
  Camera.screen_to_ray c sx sy w h = Ok (origin, direction) ->
  (Rabs (y direction) < 1 / 100000 ->
   Camera.unproject c sx sy w h plane_y
   = Ok (mkPoint3D (x origin) plane_y (z origin))) /\
  (1 / 100000 <= Rabs (y direction) ->
   (plane_y - y origin) / y direction <= 0 ->
   Camera.unproject c sx sy w h plane_y
   = Ok (mkPoint3D (x origin + x direction * 1) plane_y
                   (z origin + z direction * 1))) /\
  (1 / 100000 <= Rabs (y direction) ->
   0 < (plane_y - y origin) / y direction ->
   Camera.unproject c sx sy w h plane_y
   = Ok (mkPoint3D
           (x origin + x direction * ((plane_y - y origin) / y direction))
           plane_y
           (z origin + z direction * ((plane_y - y origin) / y direction)))).
Proof.
  intros Hray. unfold Camera.unproject. rewrite Hray. cbn [bind].
  assert (Hnz : 1 / 100000 <= Rabs (y direction) -> y direction <> 0).
  { intros H E. rewrite E, Rabs_R0 in H. lra. }
  repeat split.
  - intros Hpar.
    destruct (Rlt_dec (Rabs (y direction)) (1 / 100000)); [reflexivity | contradiction].
  - intros Hnp Ht.
    destruct (Rlt_dec (Rabs (y direction)) (1 / 100000)); [lra|].
    rewrite (fdiv_ok _ (Hnz Hnp)). cbn [bind].
    destruct (Rle_dec ((plane_y - y origin) / y direction) 0); [reflexivity | contradiction].
  - intros Hnp Ht.
    destruct (Rlt_dec (Rabs (y direction)) (1 / 100000)); [lra|].
    rewrite (fdiv_ok _ (Hnz Hnp)). cbn [bind].
    destruct (Rle_dec ((plane_y - y origin) / y direction) 0); [lra | reflexivity].
Qed.

(** In the model [project] returns for every point once the basis is
    there. *)
Lemma project_valid (c : Camera) (p : Point3D) (w h : Z) :
  0 < distance c -> distance c <= 10 ^ 6 -> -85 <= angle_v c <= 85 ->
  Camera.tan_half c <> 0 -> w <> 0%Z ->
  exists pt : Z * Z, Camera.project c p w h = Ok pt.
Proof.
  intros Hd Hmax Hv HT Hw.
  unfold Camera.project.
  rewrite (@get_basis_closed c Hd Hmax (cos_radians_pos Hv)). cbn [bind].
  match goal with
  | |- context [Rle_dec ?g ?e] => destruct (Rle_dec g e) as [Hle | Hgt]; [eexists; reflexivity|];
      set (zc := g) in *
  end.
  rewrite (fdiv_ok _ (Zmax1_nonzero _)). cbn [bind].
  assert (HzT : zc * Camera.tan_half c <> 0).
  { apply Rmult_integral_contrapositive. split; [lra | exact HT]. }
  rewrite !(fdiv_ok _ HzT). cbn [bind].
  assert (Hasp : IZR w / IZR (Z.max 1 h) <> 0).
  { unfold Rdiv. apply Rmult_integral_contrapositive. split.
    - apply not_0_IZR. exact Hw.
    - apply Rinv_neq_0_compat. apply Zmax1_nonzero. }
  rewrite (fdiv_ok _ Hasp). cbn [bind].
  eexists. reflexivity.
Qed.

Lemma int_IZR (n : Z) : Py.int (IZR n) = n.
Proof.
  unfold Py.int. destruct (Rle_dec 0 (IZR n)).
  - apply ZfloorZ.
  - apply Zceil_eq. lra.
Qed.

Lemma sqrt3_pos : 0 < sqrt 3.
Proof. apply sqrt_lt_R0. lra. Qed.

Lemma tan_half_60 (c : Camera) : fov c = 60 -> Camera.tan_half c = 1 / sqrt 3.
Proof.
  intros H. unfold Camera.tan_half, radians. rewrite H.
  replace (60 * PI / 180 / 2) with (PI / 6) by field.
  apply tan_PI6.
Qed.

Lemma tan_half_60_pos (c : Camera) : fov c = 60 -> 0 < Camera.tan_half c.
Proof.
  intros H. rewrite tan_half_60 by exact H.
  pose proof sqrt3_pos. apply Rdiv_lt_0_compat; lra.
Qed.

(** *** Bounds, truncation and tolerance *)

Lemma Rabs_bounds (v M : R) : Rabs v <= M -> - M <= v <= M.
Proof. unfold Rabs. destruct (Rcase_abs v); lra. Qed.

Lemma bounds_Rabs (v M : R) : - M <= v <= M -> Rabs v <= M.
Proof. unfold Rabs. destruct (Rcase_abs v); lra. Qed.

Lemma Rabs_mult_le (a b A B : R) :
  Rabs a <= A -> Rabs b <= B -> Rabs (a * b) <= A * B.
Proof.
  intros Ha Hb. rewrite Rabs_mult.
  apply Rmult_le_compat; [apply Rabs_pos | apply Rabs_pos | exact Ha | exact Hb].
Qed.

Lemma IZR_abs_le (n M : Z) : (Z.abs n <= M)%Z -> Rabs (IZR n) <= IZR M.
Proof. intros H. rewrite <- abs_IZR. apply IZR_le. exact H. Qed.

Lemma pixel_bounds (pos : Z * Z) :
  ordinary_pixel pos ->
  Rabs (IZR (fst pos)) <= 10 ^ 6 /\ Rabs (IZR (snd pos)) <= 10 ^ 6.
Proof.
  intros [H1 H2].
  apply IZR_abs_le in H1. apply IZR_abs_le in H2.
  replace (IZR (10 ^ 6)) with (10 ^ 6) in H1, H2 by (simpl; lra).
  split; assumption.
Qed.

(** Truncation toward zero moves a value by less than one and never
    away from zero. *)
Lemma int_near (v : R) :
  Rabs (IZR (Py.int v) - v) < 1 /\ Rabs (IZR (Py.int v)) <= Rabs v.
Proof.
  unfold Py.int. destruct (Rle_dec 0 v) as [Hv | Hv].
  - destruct (Zfloor_bound v) as [Hlo Hhi].
    assert (H0 : 0 <= IZR (Zfloor v)).
    { apply IZR_le. apply Zfloor_lub. exact Hv. }
    split.
    + apply Rabs_def1; lra.
    + rewrite !Rabs_pos_eq by lra. lra.
  - destruct (Zceil_bound v) as [Hlo Hhi].
    assert (H0 : IZR (Zceil v) <= 0).
    { apply IZR_le. apply Z.lt_succ_r. apply lt_IZR. simpl. lra. }
    split.
    + apply Rabs_def1; lra.
    + rewrite !Rabs_left1 by lra. lra.
Qed.

Lemma truncates_exact (v : R) : truncates_to v (Py.int v).
Proof.
  exists 0. split; [rewrite Rabs_R0; lra | rewrite Rplus_0_r; reflexivity].
Qed.

Lemma truncates_near (v : R) (n : Z) :
  truncates_to v n ->
  Rabs (IZR n - v) < 3 / 2 /\ Rabs (IZR n) <= Rabs v + 1 / 2.
Proof.
  intros (e & He & ->).
  destruct (int_near (v + e)) as [H1 H2].
  pose proof (Rabs_triang v e) as H3.
  pose proof (@Rabs_bounds _ _ He) as He'.
  split.
  - apply Rabs_def2 in H1. apply Rabs_def1; lra.
  - lra.
Qed.

Lemma truncates_ordinary (v v' : R) (n m : Z) :
  truncates_to v n -> truncates_to v' m ->
  Rabs v <= 10 ^ 6 -> Rabs v' <= 10 ^ 6 ->
  ordinary_pixel (n, m).
Proof.
  intros Hn Hm Hv Hv'.
  destruct (@truncates_near _ _ Hn) as [_ H1]. destruct (@truncates_near _ _ Hm) as [_ H2].
  rewrite <- abs_IZR in H1, H2.
  split; cbn [fst snd]; apply Z.lt_succ_r; apply lt_IZR;
    replace (IZR (Z.succ (10 ^ 6))) with (10 ^ 6 + 1) by (simpl; lra); lra.
Qed.

(** A square below [10 ^ 40] is far from overflow. *)
Lemma pow2_le (a M : R) : a ^ 2 <= M -> M <= 10 ^ 40 -> pow2 a = Ok (a ^ 2).
Proof.
  intros Ha HM. apply pow2_ok.
  apply Rle_lt_trans with (10 ^ 40); [lra | exact float_limit_gt].
Qed.

Lemma sqrt3_sqr : sqrt 3 * sqrt 3 = 3.
Proof. apply sqrt_sqrt. lra. Qed.

Lemma sqrt3_bounds : 173 / 100 < sqrt 3 < 174 / 100.
Proof.
  pose proof sqrt3_sqr as H. pose proof sqrt3_pos as Hp.
  split.
  - destruct (Rlt_dec (173 / 100) (sqrt 3)) as [Hlt | Hge]; [exact Hlt | exfalso; nra].
  - destruct (Rlt_dec (sqrt 3) (174 / 100)) as [Hlt | Hge]; [exact Hlt | exfalso; nra].
Qed.

Lemma tan_half_60_le (c : Camera) : fov c = 60 -> Camera.tan_half c <= 1.
Proof.
  intros H. rewrite tan_half_60 by exact H.
  pose proof sqrt3_bounds as [Hlo Hhi].
  apply Rmult_le_reg_r with (sqrt 3); [lra|].
  unfold Rdiv. rewrite Rmult_assoc, Rinv_l by lra. lra.
Qed.

(** *** Directions given by camera-space coordinates *)

Section AlongAlgebra.

Variable c : Camera.
Variables a b : R.

Lemma along_norm :
  x (along c a b) ^ 2 + y (along c a b) ^ 2 + z (along c a b) ^ 2
  = a * a + b * b + 1.
Proof.
  unfold along. cbn [x y z].
  pose proof (right_unit c) as Hr. pose proof (up_unit c) as Hu.
  pose proof (forward_unit c) as Hf. pose proof (right_up_orth c) as Hru.
  pose proof (right_forward_orth c) as Hrf. pose proof (up_forward_orth c) as Huf.
  unfold Point3D.dot in *.
  set (rx := x (basis_right c)) in *. set (ry := y (basis_right c)) in *.
  set (rz := z (basis_right c)) in *. set (ux := x (basis_up c)) in *.
  set (uy := y (basis_up c)) in *. set (uz := z (basis_up c)) in *.
  set (fx := x (basis_forward c)) in *. set (fy := y (basis_forward c)) in *.
  set (fz := z (basis_forward c)) in *.
  transitivity (a * a * (rx * rx + ry * ry + rz * rz)
                + b * b * (ux * ux + uy * uy + uz * uz)
                + (fx * fx + fy * fy + fz * fz)
                + 2 * a * b * (rx * ux + ry * uy + rz * uz)
                + 2 * a * (rx * fx + ry * fy + rz * fz)
                + 2 * b * (ux * fx + uy * fy + uz * fz)).
  - ring.
  - rewrite Hr, Hu, Hf, Hru, Hrf, Huf. ring.
Qed.

Lemma along_right : Point3D.dot (along c a b) (basis_right c) = a.
Proof.
  pose proof (right_unit c) as Hr. pose proof (right_up_orth c) as Hru.
  pose proof (right_forward_orth c) as Hrf.
  unfold along, Point3D.dot in *. cbn [x y z].
  set (rx := x (basis_right c)) in *. set (ry := y (basis_right c)) in *.
  set (rz := z (basis_right c)) in *. set (ux := x (basis_up c)) in *.
  set (uy := y (basis_up c)) in *. set (uz := z (basis_up c)) in *.
  set (fx := x (basis_forward c)) in *. set (fy := y (basis_forward c)) in *.
  set (fz := z (basis_forward c)) in *.
  transitivity (a * (rx * rx + ry * ry + rz * rz)
                + b * (rx * ux + ry * uy + rz * uz)
                + (rx * fx + ry * fy + rz * fz)).
  - ring.
  - rewrite Hr, Hru, Hrf. ring.
Qed.

Lemma along_up : Point3D.dot (along c a b) (basis_up c) = b.
Proof.
  pose proof (up_unit c) as Hu. pose proof (right_up_orth c) as Hru.
  pose proof (up_forward_orth c) as Huf.
  unfold along, Point3D.dot in *. cbn [x y z].
  set (rx := x (basis_right c)) in *. set (ry := y (basis_right c)) in *.
  set (rz := z (basis_right c)) in *. set (ux := x (basis_up c)) in *.
  set (uy := y (basis_up c)) in *. set (uz := z (basis_up c)) in *.
  set (fx := x (basis_forward c)) in *. set (fy := y (basis_forward c)) in *.
  set (fz := z (basis_forward c)) in *.
  transitivity (a * (rx * ux + ry * uy + rz * uz)
                + b * (ux * ux + uy * uy + uz * uz)
                + (ux * fx + uy * fy + uz * fz)).
  - ring.
  - rewrite Hu, Hru, Huf. ring.
Qed.

Lemma along_forward : Point3D.dot (along c a b) (basis_forward c) = 1.
Proof.
  pose proof (forward_unit c) as Hf. pose proof (right_forward_orth c) as Hrf.
  pose proof (up_forward_orth c) as Huf.
  unfold along, Point3D.dot in *. cbn [x y z].
  set (rx := x (basis_right c)) in *. set (ry := y (basis_right c)) in *.
  set (rz := z (basis_right c)) in *. set (ux := x (basis_up c)) in *.
  set (uy := y (basis_up c)) in *. set (uz := z (basis_up c)) in *.
  set (fx := x (basis_forward c)) in *. set (fy := y (basis_forward c)) in *.
  set (fz := z (basis_forward c)) in *.
  transitivity (a * (rx * fx + ry * fy + rz * fz)
                + b * (ux * fx + uy * fy + uz * fz)
                + (fx * fx + fy * fy + fz * fz)).
  - ring.
  - rewrite Hf, Hrf, Huf. ring.
Qed.

Lemma along_length_ge_1 : 1 <= sqrt (a * a + b * b + 1).
Proof.
  rewrite <- sqrt_1 at 1. apply sqrt_le_1_alt. nra.
Qed.

End AlongAlgebra.

Lemma offset_length_pos (c : Camera) (p : Point3D) :
  0 < Point3D.dot (offset c p) (basis_forward c) ->
  0 < Point3D.length (offset c p).
Proof.
  intros Hg. unfold Point3D.length. apply sqrt_lt_R0.
  set (q := offset c p) in *. unfold Point3D.dot in Hg.
  destruct (Req_dec (x q ^ 2 + y q ^ 2 + z q ^ 2) 0) as [E | N].
  - assert (x q = 0) by nra. assert (y q = 0) by nra. assert (z q = 0) by nra.
    exfalso. nra.
  - pose proof (pow2_ge_0 (x q)). pose proof (pow2_ge_0 (y q)).
    pose proof (pow2_ge_0 (z q)). lra.
Qed.

Lemma length_sqr (q : Point3D) :
  Point3D.length q * Point3D.length q = x q ^ 2 + y q ^ 2 + z q ^ 2.
Proof.
  unfold Point3D.length. apply sqrt_sqrt.
  pose proof (pow2_ge_0 (x q)). pose proof (pow2_ge_0 (y q)).
  pose proof (pow2_ge_0 (z q)). lra.
Qed.

Section Projection.

Variable c : Camera.
Variables w h : Z.

Hypothesis Hcam : ordinary_camera c.
Hypothesis Hfov : fov c = 60.
Hypothesis Hwin : ordinary_window w h.

Lemma view_facts :
  0 < distance c /\ distance c <= 10 ^ 6 /\ -85 <= angle_v c <= 85 /\
  0 < Camera.tan_half c /\ Camera.tan_half c <= 1 /\
  (1 <= w)%Z /\ (w <= 10 ^ 5)%Z /\ (1 <= h)%Z.
Proof.
  destruct Hcam as ([Hd1 Hd2] & _ & Hv & _). destruct Hwin as ([Hw1 Hw2] & [Hh1 _]).
  split; [lra|]. split; [exact Hd2|]. split; [exact Hv|].
  split; [apply tan_half_60_pos; exact Hfov|].
  split; [apply tan_half_60_le; exact Hfov|].
  split; [exact Hw1|]. split; [exact Hw2 | exact Hh1].
Qed.

Ltac view :=
  destruct view_facts as (Hd & Hdmax & Hv & HT & HT1 & Hw & Hwmax & Hh).

Lemma IZR_w_pos : 0 < IZR w.
Proof. view. apply IZR_lt. lia. Qed.

Lemma IZR_h_pos : 0 < IZR h.
Proof. view. apply IZR_lt. lia. Qed.

Lemma basis_here :
  Camera.get_basis c
  = Ok (basis_right c, basis_up c, basis_forward c, Camera.get_position c).
Proof.
  destruct Hcam as ([Hd1 Hd2] & _ & Hv & _).
  apply get_basis_closed; [lra | exact Hd2 | apply cos_radians_pos; exact Hv].
Qed.

Lemma project_real_closed (p : Point3D) :
  let a := Point3D.dot (offset c p) (basis_right c) in
  let b := Point3D.dot (offset c p) (basis_up c) in
  let g := Point3D.dot (offset c p) (basis_forward c) in
  Camera.project_real c p w h
  = if Rle_dec g (1 / 1000) then Ok None
    else Ok (Some
      ((a / (g * Camera.tan_half c) / (IZR w / IZR h) * (1 / 2) + 1 / 2) * IZR w,
       (1 - (b / (g * Camera.tan_half c) * (1 / 2) + 1 / 2)) * IZR h)).
Proof.
  view.
  intros a b g. unfold Camera.project_real. rewrite basis_here. cbn [bind].
  change (x p - x (Camera.get_position c)) with (x (offset c p)).
  change (y p - y (Camera.get_position c)) with (y (offset c p)).
  change (z p - z (Camera.get_position c)) with (z (offset c p)).
  fold (Point3D.dot (offset c p) (basis_right c)).
  fold (Point3D.dot (offset c p) (basis_up c)).
  fold (Point3D.dot (offset c p) (basis_forward c)).
  fold a b g.
  destruct (Rle_dec g (1 / 1000)) as [Hle | Hgt]; [reflexivity|].
  rewrite Z.max_r by exact Hh.
  pose proof IZR_w_pos. pose proof IZR_h_pos.
  assert (Hasp : IZR w / IZR h <> 0).
  { apply Rgt_not_eq. apply Rdiv_lt_0_compat; assumption. }
  assert (HgT : g * Camera.tan_half c <> 0) by nra.
  rewrite (fdiv_ok (IZR w) (b := IZR h)) by lra. cbn [bind].
  rewrite (fdiv_ok a HgT). cbn [bind].
  rewrite (fdiv_ok _ Hasp). cbn [bind].
  rewrite (fdiv_ok b HgT). cbn [bind].
  reflexivity.
Qed.

Lemma project_from_real (p : Point3D) :
  Camera.project c p w h
  = r <- Camera.project_real c p w h ;;
    match r with
    | None => Ok ((w / 2)%Z, (h / 2)%Z)
    | Some (sxr, syr) => Ok (Py.int sxr, Py.int syr)
    end.
Proof.
  view.
  rewrite project_real_closed. cbv zeta.
  unfold Camera.project. rewrite basis_here. cbn [bind].
  change (x p - x (Camera.get_position c)) with (x (offset c p)).
  change (y p - y (Camera.get_position c)) with (y (offset c p)).
  change (z p - z (Camera.get_position c)) with (z (offset c p)).
  fold (Point3D.dot (offset c p) (basis_right c)).
  fold (Point3D.dot (offset c p) (basis_up c)).
  fold (Point3D.dot (offset c p) (basis_forward c)).
  set (a := Point3D.dot (offset c p) (basis_right c)).
  set (b := Point3D.dot (offset c p) (basis_up c)).
  set (g := Point3D.dot (offset c p) (basis_forward c)).
  destruct (Rle_dec g (1 / 1000)) as [Hle | Hgt]; [reflexivity|].
  rewrite Z.max_r by exact Hh.
  pose proof IZR_w_pos. pose proof IZR_h_pos.
  assert (Hasp : IZR w / IZR h <> 0).
  { apply Rgt_not_eq. apply Rdiv_lt_0_compat; assumption. }
  assert (HgT : g * Camera.tan_half c <> 0) by nra.
  rewrite (fdiv_ok (IZR w) (b := IZR h)) by lra. cbn [bind].
  rewrite (fdiv_ok a HgT). cbn [bind].
  rewrite (fdiv_ok _ Hasp). cbn [bind].
  rewrite (fdiv_ok b HgT). cbn [bind].
  reflexivity.
Qed.

(** [project] returns the truncation of the screen position. *)
Lemma project_truncates (p : Point3D) (sxr syr : R) :
  Camera.project_real c p w h = Ok (Some (sxr, syr)) ->
  Camera.project c p w h = Ok (Py.int sxr, Py.int syr).
Proof. intros H. rewrite project_from_real, H. reflexivity. Qed.

(** Size of the ray coefficients of an ordinary pixel. *)
Lemma ray_coefficients_bounded (sx sy : Z) :
  ordinary_pixel (sx, sy) ->
  Rabs (ray_dx c sx w h) <= 3 * 10 ^ 11 /\ Rabs (ray_dy c sy h) <= 3 * 10 ^ 6.
Proof.
  view.
  intros Hpx. destruct (pixel_bounds Hpx) as [Hsx Hsy]. cbn [fst snd] in Hsx, Hsy.
  pose proof IZR_w_pos as Hwp. pose proof IZR_h_pos as Hhp.
  assert (Hw1 : 1 <= IZR w) by (apply IZR_le; exact Hw).
  assert (Hh1 : 1 <= IZR h) by (apply IZR_le; exact Hh).
  assert (Hw5 : IZR w <= 10 ^ 5).
  { replace (10 ^ 5) with (IZR (10 ^ 5)) by (simpl; lra). apply IZR_le. exact Hwmax. }
  assert (Hiw : 0 < / IZR w <= 1).
  { split; [apply Rinv_0_lt_compat; exact Hwp|].
    rewrite <- Rinv_1. apply Rinv_le_contravar; lra. }
  assert (Hih : 0 < / IZR h <= 1).
  { split; [apply Rinv_0_lt_compat; exact Hhp|].
    rewrite <- Rinv_1. apply Rinv_le_contravar; lra. }
  assert (Hqx : Rabs (IZR sx / IZR w) <= 10 ^ 6).
  { unfold Rdiv. replace (10 ^ 6) with (10 ^ 6 * 1) by ring.
    apply Rabs_mult_le; [exact Hsx | apply bounds_Rabs; lra]. }
  assert (Hqy : Rabs (IZR sy / IZR h) <= 10 ^ 6).
  { unfold Rdiv. replace (10 ^ 6) with (10 ^ 6 * 1) by ring.
    apply Rabs_mult_le; [exact Hsy | apply bounds_Rabs; lra]. }
  assert (Hasp : Rabs (IZR w / IZR h) <= 10 ^ 5).
  { unfold Rdiv. replace (10 ^ 5) with (10 ^ 5 * 1) by ring.
    apply Rabs_mult_le; apply bounds_Rabs; lra. }
  assert (HTa : Rabs (Camera.tan_half c) <= 1) by (apply bounds_Rabs; lra).
  apply Rabs_bounds in Hqx. apply Rabs_bounds in Hqy.
  split.
  - unfold ray_dx.
    replace (3 * 10 ^ 11) with (3 * 10 ^ 6 * 10 ^ 5 * 1) by lra.
    apply Rabs_mult_le; [apply Rabs_mult_le|]; [apply bounds_Rabs; lra | exact Hasp | exact HTa].
  - unfold ray_dy.
    replace (3 * 10 ^ 6) with (3 * 10 ^ 6 * 1) by ring.
    apply Rabs_mult_le; [apply bounds_Rabs; lra | exact HTa].
Qed.

(** The ray through an ordinary pixel, in closed form: the direction
    with camera-space coordinates [(dx, dy, 1)], normalised. *)
Lemma screen_to_ray_closed (sx sy : Z) :
  ordinary_pixel (sx, sy) ->
  let dir := along c (ray_dx c sx w h) (ray_dy c sy h) in
  let dl := sqrt (ray_dx c sx w h * ray_dx c sx w h
                  + ray_dy c sy h * ray_dy c sy h + 1) in
  Camera.screen_to_ray c sx sy w h
  = Ok (Camera.get_position c,
        mkPoint3D (x dir / dl) (y dir / dl) (z dir / dl)).
Proof.
  view.
  intros Hpx dir dl.
  destruct (ray_coefficients_bounded Hpx) as [Hbx Hby].
  apply Rabs_bounds in Hbx. apply Rabs_bounds in Hby.
  pose proof IZR_w_pos as Hwp. pose proof IZR_h_pos as Hhp.
  unfold Camera.screen_to_ray. rewrite basis_here. cbn [bind].
  rewrite (Z.max_r 1 w) by exact Hw. rewrite (Z.max_r 1 h) by exact Hh.
  rewrite (fdiv_ok (IZR sx) (b := IZR w)) by lra. cbn [bind].
  rewrite (fdiv_ok (IZR sy) (b := IZR h)) by lra. cbn [bind].
  rewrite (fdiv_ok (IZR w) (b := IZR h)) by lra. cbn [bind].
  fold (ray_dx c sx w h). fold (ray_dy c sy h).
  pose proof (along_norm c (ray_dx c sx w h) (ray_dy c sy h)) as Hn.
  pose proof (along_length_ge_1 (ray_dx c sx w h) (ray_dy c sy h)) as Hl.
  fold dir in Hn. fold dl in Hl.
  set (dx := ray_dx c sx w h) in *. set (dy := ray_dy c sy h) in *.
  change (dx * x (basis_right c) + dy * x (basis_up c) + x (basis_forward c))
    with (x dir).
  change (dx * y (basis_right c) + dy * y (basis_up c) + y (basis_forward c))
    with (y dir).
  change (dx * z (basis_right c) + dy * z (basis_up c) + z (basis_forward c))
    with (z dir).
  pose proof (pow2_ge_0 (x dir)). pose proof (pow2_ge_0 (y dir)).
  pose proof (pow2_ge_0 (z dir)).
  assert (HS : dx * dx + dy * dy + 1 <= 10 ^ 40) by nra.
  rewrite (@pow2_le (x dir) (dx * dx + dy * dy + 1)) by lra.
  rewrite (@pow2_le (y dir) (dx * dx + dy * dy + 1)) by lra.
  rewrite (@pow2_le (z dir) (dx * dx + dy * dy + 1)) by lra.
  cbn [bind]. rewrite Hn. fold dl.
  rewrite or_one_pos by lra.
  rewrite !fdiv_ok by lra. cbn [bind]. reflexivity.
Qed.

(** A point [s] times the ray direction away from the camera, beyond the
    near threshold, has the pixel as its screen position. *)
Lemma project_real_along (q : Point3D) (s : R) (sx sy : Z) :
  let dir := along c (ray_dx c sx w h) (ray_dy c sy h) in
  x (offset c q) = s * x dir -> y (offset c q) = s * y dir ->
  z (offset c q) = s * z dir ->
  depth c q = s /\
  (1 / 1000 < s ->
   Camera.project_real c q w h = Ok (Some (IZR sx, IZR sy))).
Proof.
  view.
  intros dir Hx Hy Hz.
  pose proof (along_right c (ray_dx c sx w h) (ray_dy c sy h)) as Ha.
  pose proof (along_up c (ray_dx c sx w h) (ray_dy c sy h)) as Hb.
  pose proof (along_forward c (ray_dx c sx w h) (ray_dy c sy h)) as Hg.
  fold dir in Ha, Hb, Hg.
  assert (Ha' : Point3D.dot (offset c q) (basis_right c) = s * ray_dx c sx w h).
  { rewrite <- Ha. unfold Point3D.dot. rewrite Hx, Hy, Hz. ring. }
  assert (Hb' : Point3D.dot (offset c q) (basis_up c) = s * ray_dy c sy h).
  { rewrite <- Hb. unfold Point3D.dot. rewrite Hx, Hy, Hz. ring. }
  assert (Hg' : Point3D.dot (offset c q) (basis_forward c) = s).
  { transitivity (s * Point3D.dot dir (basis_forward c)).
    - unfold Point3D.dot. rewrite Hx, Hy, Hz. ring.
    - rewrite Hg. ring. }
  split; [exact Hg'|].
  intros Hs. rewrite project_real_closed. cbv zeta.
  rewrite Ha', Hb', Hg'.
  destruct (Rle_dec s (1 / 1000)) as [Hle | _]; [lra|].
  pose proof IZR_w_pos as Hwp. pose proof IZR_h_pos as Hhp.
  unfold ray_dx, ray_dy.
  f_equal. f_equal. f_equal; field; repeat split; lra.
Qed.

(** The ray through the pixel on which a point projects exactly passes
    through that point. *)
Lemma ray_through_point (p : Point3D) (sx sy : Z) :
  ordinary_pixel (sx, sy) ->
  Camera.project_real c p w h = Ok (Some (IZR sx, IZR sy)) ->
  let q := offset c p in
  let n := Point3D.length q in
  0 < n /\
  Camera.screen_to_ray c sx sy w h
  = Ok (Camera.get_position c, mkPoint3D (x q / n) (y q / n) (z q / n)).
Proof.
  view.
  intros Hpx. rewrite (screen_to_ray_closed Hpx). cbv zeta.
  rewrite project_real_closed. cbv zeta.
  set (q := offset c p).
  set (a := Point3D.dot q (basis_right c)).
  set (b := Point3D.dot q (basis_up c)).
  set (g := Point3D.dot q (basis_forward c)).
  destruct (Rle_dec g (1 / 1000)) as [Hle | Hgt]; [discriminate|].
  intros [= Hsx Hsy].
  assert (Hg : 0 < g) by lra.
  pose proof (@offset_length_pos c p Hg) as Hn. fold q in Hn.
  pose proof (length_sqr q) as Hnn.
  set (n := Point3D.length q) in *.
  split; [exact Hn|].
  destruct (basis_complete c q) as (Hx & Hy & Hz). fold a b g in Hx, Hy, Hz.
  pose proof IZR_w_pos as Hwp. pose proof IZR_h_pos as Hhp.
  assert (Hdx : ray_dx c sx w h = a / g).
  { unfold ray_dx. rewrite <- Hsx. field. repeat split; lra. }
  assert (Hdy : ray_dy c sy h = b / g).
  { unfold ray_dy. rewrite <- Hsy. field. repeat split; lra. }
  rewrite Hdx, Hdy. unfold along. cbn [x y z].
  replace (a / g * x (basis_right c) + b / g * x (basis_up c) + x (basis_forward c))
    with (x q / g) by (rewrite Hx; field; lra).
  replace (a / g * y (basis_right c) + b / g * y (basis_up c) + y (basis_forward c))
    with (y q / g) by (rewrite Hy; field; lra).
  replace (a / g * z (basis_right c) + b / g * z (basis_up c) + z (basis_forward c))
    with (z q / g) by (rewrite Hz; field; lra).
  assert (Hdl : sqrt (a / g * (a / g) + b / g * (b / g) + 1) = n / g).
  { apply sqrt_of_square.
    - apply Rlt_le. apply Rdiv_lt_0_compat; assumption.
    - transitivity ((a * a + b * b + g * g) / (g * g)); [field; lra|].
      replace (a * a + b * b + g * g) with (n * n); [field; lra|].
      rewrite Hnn.
      pose proof (along_norm c (a / g) (b / g)) as HN. unfold along in HN.
      cbn [x y z] in HN.
      replace (x q) with (g * (a / g * x (basis_right c) + b / g * x (basis_up c)
                               + x (basis_forward c))) by (rewrite Hx; field; lra).
      replace (y q) with (g * (a / g * y (basis_right c) + b / g * y (basis_up c)
                               + y (basis_forward c))) by (rewrite Hy; field; lra).
      replace (z q) with (g * (a / g * z (basis_right c) + b / g * z (basis_up c)
                               + z (basis_forward c))) by (rewrite Hz; field; lra).
      rewrite !Rpow_mult_distr.
      rewrite <- !Rmult_plus_distr_l. rewrite HN. field. lra. }
  rewrite Hdl.
  f_equal. f_equal. apply point_eq; field; lra.
Qed.

Lemma project_exact_pixel (p : Point3D) (sx sy : Z) :
  Camera.project_real c p w h = Ok (Some (IZR sx, IZR sy)) ->
  Camera.project c p w h = Ok (sx, sy).
Proof.
  view.
  intros H. rewrite project_from_real, H. cbn [bind].
  rewrite !int_IZR. reflexivity.
Qed.

Lemma unproject_exact_pixel (p : Point3D) (sx sy : Z) :
  ordinary_pixel (sx, sy) ->
  y p = 0 ->
  Camera.project_real c p w h = Ok (Some (IZR sx, IZR sy)) ->
  (forall o d : Point3D,
      Camera.screen_to_ray c sx sy w h = Ok (o, d) -> 1 / 100000 <= Rabs (y d)) ->
  Camera.unproject c sx sy w h 0 = Ok p.
Proof.
  view.
  intros Hpx Hy Hpr Hnd.
  destruct (ray_through_point p Hpx Hpr) as [Hn Hray].
  specialize (Hnd _ _ Hray). cbn [y] in Hnd.
  unfold Camera.unproject. rewrite Hray. cbn [bind x y z].
  set (q := offset c p) in *. set (n := Point3D.length q) in *.
  destruct (Rlt_dec (Rabs (y q / n)) (1 / 100000)) as [Hlt | _]; [lra|].
  assert (Hyq : y q / n <> 0).
  { intros E. rewrite E, Rabs_R0 in Hnd. lra. }
  assert (Hyq' : y q <> 0).
  { intros E. apply Hyq. rewrite E. unfold Rdiv. ring. }
  rewrite fdiv_ok by exact Hyq. cbn [bind].
  assert (Ht : (0 - y (Camera.get_position c)) / (y q / n) = n).
  { replace (0 - y (Camera.get_position c)) with (y q)
      by (unfold q, offset; cbn [y]; rewrite Hy; ring).
    field. split; lra. }
  rewrite Ht.
  destruct (Rle_dec n 0) as [Hle | _]; [lra|].
  destruct p as [xp yp zp]. cbn [x y z] in *. subst yp.
  f_equal. apply point_eq.
  - unfold q, offset. cbn [x]. field. lra.
  - reflexivity.
  - unfold q, offset. cbn [z]. field. lra.
Qed.

(** [unproject] on the ground plane at a pixel whose ray is not
    degenerate and descends to the ground in front of the camera: the
    point returned is on the ground and, when it is beyond the near
    threshold, its screen position is the pixel. *)
Lemma unproject_then_project (sx sy : Z) :
  ordinary_pixel (sx, sy) ->
  (forall o d : Point3D,
      Camera.screen_to_ray c sx sy w h = Ok (o, d) ->
      1 / 100000 <= Rabs (y d) /\ 0 < (0 - y o) / y d) ->
  exists q : Point3D,
    Camera.unproject c sx sy w h 0 = Ok q /\ y q = 0 /\
    (1 / 1000 < depth c q ->
     Camera.project_real c q w h = Ok (Some (IZR sx, IZR sy))).
Proof.
  view.
  intros Hpx Hnd.
  pose proof (screen_to_ray_closed Hpx) as Hray. cbv zeta in Hray.
  pose proof (along_length_ge_1 (ray_dx c sx w h) (ray_dy c sy h)) as Hl.
  set (dir := along c (ray_dx c sx w h) (ray_dy c sy h)) in *.
  set (dl := sqrt (ray_dx c sx w h * ray_dx c sx w h
                   + ray_dy c sy h * ray_dy c sy h + 1)) in *.
  destruct (Hnd _ _ Hray) as [Hnp Ht]. cbn [y] in Hnp, Ht.
  destruct (@unproject_cases c sx sy w h 0 _ _ Hray) as (_ & _ & Hfront).
  cbn [x y z] in Hfront. specialize (Hfront Hnp Ht).
  set (t := (0 - y (Camera.get_position c)) / (y dir / dl)) in *.
  eexists. split; [exact Hfront|]. split; [reflexivity|].
  assert (Hyd : y dir / dl <> 0).
  { intros E. rewrite E, Rabs_R0 in Hnp. lra. }
  assert (Hty : 0 - y (Camera.get_position c) = t / dl * y dir).
  { unfold t. field. split; [lra|].
    intros E. apply Hyd. rewrite E. unfold Rdiv. ring. }
  match goal with
  | |- _ < depth c ?q -> _ =>
      destruct (@project_real_along q (t / dl) sx sy) as [Hdepth Hpr]
  end.
  - unfold offset. cbn [x]. fold dir. field. lra.
  - unfold offset. cbn [y]. fold dir. exact Hty.
  - unfold offset. cbn [z]. fold dir. field. lra.
  - rewrite Hdepth. exact Hpr.
Qed.

(** A point on the optical axis, beyond the near threshold, projects on
    the centre of the screen. *)
Lemma project_real_axis (p : Point3D) (k : R) :
  offset c p = mkPoint3D (k * x (basis_forward c)) (k * y (basis_forward c))
                         (k * z (basis_forward c)) ->
  1 / 1000 < k ->
  Camera.project_real c p w h = Ok (Some (1 / 2 * IZR w, 1 / 2 * IZR h)).
Proof.
  view.
  intros Hq Hnear. rewrite project_real_closed. cbv zeta.
  rewrite Hq. clear Hq.
  assert (Ha : Point3D.dot (mkPoint3D (k * x (basis_forward c))
                           (k * y (basis_forward c))
                           (k * z (basis_forward c))) (basis_right c) = 0).
  { pose proof (right_forward_orth c) as H. unfold Point3D.dot in *. cbn [x y z].
    transitivity (k *
      (x (basis_right c) * x (basis_forward c) + y (basis_right c) * y (basis_forward c) +
       z (basis_right c) * z (basis_forward c))); [ring|]. rewrite H. ring. }
  assert (Hb : Point3D.dot (mkPoint3D (k * x (basis_forward c))
                           (k * y (basis_forward c))
                           (k * z (basis_forward c))) (basis_up c) = 0).
  { pose proof (up_forward_orth c) as H. unfold Point3D.dot in *. cbn [x y z].
    transitivity (k *
      (x (basis_up c) * x (basis_forward c) + y (basis_up c) * y (basis_forward c) +
       z (basis_up c) * z (basis_forward c))); [ring|]. rewrite H. ring. }
  assert (Hg : Point3D.dot (mkPoint3D (k * x (basis_forward c))
                           (k * y (basis_forward c))
                           (k * z (basis_forward c))) (basis_forward c)
               = k).
  { pose proof (forward_unit c) as H. unfold Point3D.dot in *. cbn [x y z].
    transitivity (k *
      (x (basis_forward c) * x (basis_forward c) + y (basis_forward c) * y (basis_forward c) +
       z (basis_forward c) * z (basis_forward c))); [ring|]. rewrite H. ring. }
  rewrite Ha, Hb, Hg.
  destruct (Rle_dec k (1 / 1000)) as [Hle | _]; [lra|].
  f_equal. f_equal. f_equal; unfold Rdiv; rewrite ?Rmult_0_l; lra.
Qed.

(** The target projects on the centre of the screen. *)
Lemma project_real_target :
  Camera.project_real c (target c) w h
  = Ok (Some (1 / 2 * IZR w, 1 / 2 * IZR h)).
Proof.
  destruct Hcam as ([Hd1 _] & _).
  apply project_real_axis with (k := distance c); [| lra].
  unfold offset, Camera.get_position, basis_forward. cbn [x y z].
  apply point_eq; ring.
Qed.

End Projection.

(** C4, amended.  Projection round trip, up to the pixel.  For a camera
    in the ordinary range with the field of view of 60 degrees, an
    ordinary window, and a ground point at camera-space depth at least 1
    whose screen position [(sxr, syr)] lies within [10^6] pixels:
    [project] returns the pixel obtained by truncating the screen
    position (up to the rounding of the floats truncated).  At any such
    pixel whose ray is not degenerate and meets the ground in front of the
    camera, [unproject] with plane height 0 returns a ground point; when
    that point is beyond the near threshold its screen position is
    exactly the pixel, less than a pixel and a half from the original
    screen position in each coordinate; and it is the original point when
    the original screen position is the pixel itself. *)
Theorem project_unproject_round_trip :
  forall (c : Camera) (p : Point3D) (w h : Z) (sxr syr : R),
    ordinary_camera c -> fov c = 60 -> ordinary_window w h ->
    ordinary_point p -> y p = 0 -> 1 <= depth c p ->
    Camera.project_real c p w h = Ok (Some (sxr, syr)) ->
    Rabs sxr <= 10 ^ 6 -> Rabs syr <= 10 ^ 6 ->
    (exists pt : Z * Z,
        Camera.project c p w h = Ok pt /\
        truncates_to sxr (fst pt) /\ truncates_to syr (snd pt)) /\
    (forall sx sy : Z,
        truncates_to sxr sx -> truncates_to syr sy ->
        (forall o d : Point3D,
            Camera.screen_to_ray c sx sy w h = Ok (o, d) ->
            1 / 100000 <= Rabs (y d) /\ 0 < (0 - y o) / y d) ->
        exists q : Point3D,
          Camera.unproject c sx sy w h 0 = Ok q /\
          y q = 0 /\
          (1 / 1000 < depth c q ->
           Camera.project_real c q w h = Ok (Some (IZR sx, IZR sy))) /\
          Rabs (IZR sx - sxr) < 3 / 2 /\
          Rabs (IZR sy - syr) < 3 / 2 /\
          (sxr = IZR sx -> syr = IZR sy -> q = p)).
Proof.
  intros c p w h sxr syr Hcam Hfov Hwin Hp Hy Hdepth Hpr Hbx Hby.
  split.
  - exists (Py.int sxr, Py.int syr). cbn [fst snd].
    split; [apply project_truncates; assumption|].
    split; apply truncates_exact.
  - intros sx sy Htx Hty Hnd.
    pose proof (truncates_ordinary Htx Hty Hbx Hby) as Hpx.
    destruct (unproject_then_project Hcam Hfov Hwin Hpx Hnd) as (q & Hun & Hyq & Hback).
    exists q. split; [exact Hun|]. split; [exact Hyq|]. split; [exact Hback|].
    split; [exact (proj1 (truncates_near Htx))|].
    split; [exact (proj1 (truncates_near Hty))|].
    intros Ex Ey. subst sxr syr.
    assert (Hun' : Camera.unproject c sx sy w h 0 = Ok p).
    { apply unproject_exact_pixel; try assumption.
      intros o d Hray. exact (proj1 (Hnd o d Hray)). }
    rewrite Hun in Hun'. injection Hun' as E. exact E.
Qed.

Lemma radians_30 : radians 30 = PI / 6.
Proof. unfold radians. field. Qed.

Lemma tilted30_position :
  Camera.get_position tilted30 = mkPoint3D (350 * sqrt 3) 350 0.
Proof.
  unfold Camera.get_position, tilted30. cbn [x y z target distance angle_h angle_v].
  rewrite radians_0, radians_30, sin_0, cos_0, sin_PI6, cos_PI6.
  apply point_eq; field.
Qed.

Lemma tilted30_right : basis_right tilted30 = mkPoint3D 0 0 (-1).
Proof.
  unfold basis_right, tilted30. cbn [angle_h angle_v].
  rewrite radians_0, sin_0, cos_0. reflexivity.
Qed.

Lemma tilted30_up : basis_up tilted30 = mkPoint3D (- (1 / 2)) (sqrt 3 / 2) 0.
Proof.
  unfold basis_up, tilted30. cbn [angle_h angle_v].
  rewrite radians_0, radians_30, sin_0, cos_0, sin_PI6, cos_PI6.
  apply point_eq; field.
Qed.

Lemma tilted30_forward :
  basis_forward tilted30 = mkPoint3D (- (sqrt 3 / 2)) (- (1 / 2)) 0.
Proof.
  unfold basis_forward, tilted30. cbn [angle_h angle_v].
  rewrite radians_0, radians_30, sin_0, cos_0, sin_PI6, cos_PI6.
  apply point_eq; field.
Qed.

Lemma tilted30_offset (p : Point3D) :
  offset tilted30 p = mkPoint3D (x p - 350 * sqrt 3) (y p - 350) (z p - 0).
Proof. unfold offset. rewrite tilted30_position. reflexivity. Qed.

(** Camera-space coordinates of a ground point on the z axis. *)
Lemma tilted30_coords (zp : R) :
  let q := offset tilted30 (mkPoint3D 0 0 zp) in
  Point3D.dot q (basis_right tilted30) = - zp /\
  Point3D.dot q (basis_up tilted30) = 0 /\
  Point3D.dot q (basis_forward tilted30) = 700.
Proof.
  cbv zeta. rewrite tilted30_offset, tilted30_right, tilted30_up, tilted30_forward.
  unfold Point3D.dot. cbn [x y z]. pose proof sqrt3_sqr as H.
  repeat split.
  - field.
  - field.
  - transitivity (175 * (sqrt 3 * sqrt 3) + 175); [field | rewrite H; ring].
Qed.

Lemma zero_point_ordinary : ordinary_point (mkPoint3D 0 0 0).
Proof. unfold ordinary_point. cbn [x y z]. rewrite Rabs_R0. lra. Qed.

Lemma tilted30_ordinary : ordinary_camera tilted30.
Proof.
  unfold ordinary_camera, tilted30. cbn [distance angle_h angle_v target].
  rewrite Rabs_R0. pose proof zero_point_ordinary. repeat split; try lra; apply H.
Qed.

Lemma window_1600_900 : ordinary_window 1600 900.
Proof. unfold ordinary_window. lia. Qed.

Lemma tilted30_project_real (zp : R) :
  Camera.project_real tilted30 (mkPoint3D 0 0 zp) 1600 900
  = Ok (Some (800 - 9 / 14 * zp * sqrt 3, 450)).
Proof.
  assert (HT : Camera.tan_half tilted30 = 1 / sqrt 3) by (apply tan_half_60; reflexivity).
  rewrite (@project_real_closed tilted30 1600 900 tilted30_ordinary eq_refl
             window_1600_900).
  cbv zeta. destruct (tilted30_coords zp) as (Ha & Hb & Hg). cbv zeta in Ha, Hb, Hg.
  rewrite Ha, Hb, Hg, HT.
  destruct (Rle_dec 700 (1 / 1000)) as [Hle | _]; [lra|].
  pose proof sqrt3_pos as Hp.
  f_equal. f_equal. f_equal; field; lra.
Qed.

Lemma tilted30_project_100 :
  Camera.project tilted30 (mkPoint3D 0 0 100) 1600 900 = Ok (688, 450)%Z.
Proof.
  rewrite (@project_truncates tilted30 1600 900 tilted30_ordinary eq_refl
             window_1600_900 _ _ _ (tilted30_project_real 100)).
  pose proof sqrt3_bounds as [Hlo Hhi].
  f_equal. f_equal.
  - unfold Py.int.
    destruct (Rle_dec 0 (800 - 9 / 14 * 100 * sqrt 3)) as [_ | Hneg]; [| exfalso; lra].
    apply Zfloor_eq. split; lra.
  - apply int_IZR.
Qed.

Lemma tilted30_pixel_688 :
  Camera.project_real tilted30 behind_pixel_688 1600 900
  = Ok (Some (IZR 688, IZR 450)).
Proof.
  unfold behind_pixel_688. rewrite tilted30_project_real.
  pose proof sqrt3_pos as Hp.
  f_equal. f_equal. f_equal. field. lra.
Qed.

Lemma pixel_688_450 : ordinary_pixel (688, 450)%Z.
Proof. unfold ordinary_pixel. cbn [fst snd]. lia. Qed.

(** The ray of [tilted30] through pixel (688, 450): it comes from 350
    above the ground and reaches it within 1000 units. *)
Lemma tilted30_ray_688_closed :
  exists n : R,
    0 < n < 1000 /\
    Camera.screen_to_ray tilted30 688 450 1600 900
    = Ok (Camera.get_position tilted30,
          mkPoint3D (x (offset tilted30 behind_pixel_688) / n)
                    (- 350 / n)
                    (z (offset tilted30 behind_pixel_688) / n)).
Proof.
  destruct (@ray_through_point tilted30 1600 900 tilted30_ordinary eq_refl
              window_1600_900 behind_pixel_688 688 450 pixel_688_450
              tilted30_pixel_688) as [Hn Hray].
  pose proof (@length_sqr (offset tilted30 behind_pixel_688)) as Hnn.
  set (n := Point3D.length (offset tilted30 behind_pixel_688)) in *.
  exists n.
  assert (Hy : y (offset tilted30 behind_pixel_688) = - 350).
  { rewrite tilted30_offset. unfold behind_pixel_688. cbn [y]. ring. }
  rewrite Hy in Hray. split; [| exact Hray].
  split; [exact Hn|].
  unfold behind_pixel_688 in Hnn. rewrite tilted30_offset in Hnn.
  cbn [x y z] in Hnn.
  pose proof sqrt3_sqr as H3. pose proof sqrt3_pos as Hp.
  pose proof sqrt3_bounds as [Hlo Hhi].
  assert (Hz : 0 < 1568 / (9 * sqrt 3) < 101).
  { split.
    - apply Rdiv_lt_0_compat; lra.
    - apply Rmult_lt_reg_r with (9 * sqrt 3); [lra|].
      unfold Rdiv. rewrite Rmult_assoc, Rinv_l by lra. lra. }
  set (z1 := 1568 / (9 * sqrt 3)) in *.
  assert (Hn2 : n * n < 1000 * 1000) by (rewrite Hnn; nra).
  nra.
Qed.

Lemma tilted30_ray_688 (o d : Point3D) :
  Camera.screen_to_ray tilted30 688 450 1600 900 = Ok (o, d) ->
  1 / 100000 <= Rabs (y d) /\ 0 < (0 - y o) / y d.
Proof.
  destruct tilted30_ray_688_closed as (n & [Hn Hn'] & Hray).
  rewrite Hray. intros [= <- <-]. cbn [y]. rewrite tilted30_position. cbn [y].
  assert (Hq : 350 / n * n = 350) by (field; lra).
  assert (Hpos : 0 < 350 / n) by (apply Rdiv_lt_0_compat; lra).
  split.
  - replace (- 350 / n) with (- (350 / n)) by (field; lra).
    rewrite Rabs_Ropp, Rabs_pos_eq by lra. nra.
  - replace ((0 - 350) / (- 350 / n)) with n by (field; lra). exact Hn.
Qed.

Lemma tilted30_unproject_688 :
  Camera.unproject tilted30 688 450 1600 900 0 = Ok behind_pixel_688.
Proof.
  apply (@unproject_exact_pixel tilted30 1600 900 tilted30_ordinary eq_refl
           window_1600_900 behind_pixel_688 688 450 pixel_688_450).
  - reflexivity.
  - exact tilted30_pixel_688.
  - intros o d Hray. exact (proj1 (tilted30_ray_688 Hray)).
Qed.

(** C4, as stated, fails: [project] truncates to whole pixels, and the
    ground point under the truncated pixel is another point.  Here the
    point (0, 0, 100) is in front of the camera, projects on pixel
    (688, 450), whose ray is not degenerate, and [unproject] at that pixel
    returns a point whose z differs from 100. *)
Lemma round_trip_loses_subpixel_offset :
  let c := tilted30 in
  let p := mkPoint3D 0 0 100 in
  y p = 0 /\
  (exists sxr syr : R, Camera.project_real c p 1600 900 = Ok (Some (sxr, syr))) /\
  Camera.project c p 1600 900 = Ok (688, 450)%Z /\
  (forall o d : Point3D,
      Camera.screen_to_ray c 688 450 1600 900 = Ok (o, d) ->
      1 / 100000 <= Rabs (y d)) /\
  exists q : Point3D,
    Camera.unproject c 688 450 1600 900 0 = Ok q /\ z q <> z p.
Proof.
  cbv zeta. split; [reflexivity|].
  split; [eexists; eexists; apply tilted30_project_real|].
  split; [exact tilted30_project_100|].
  split; [intros o d Hray; exact (proj1 (tilted30_ray_688 Hray))|].
  exists behind_pixel_688. split; [exact tilted30_unproject_688|].
  unfold behind_pixel_688. cbn [z].
  pose proof sqrt3_bounds as [Hlo Hhi]. pose proof sqrt3_pos as Hp.
  intros E.
  assert (E' : 1568 = 100 * (9 * sqrt 3)).
  { rewrite <- E. field. lra. }
  lra.
Qed.

Lemma project_unproject_round_trip_witness :
  (exists pt : Z * Z,
      Camera.project tilted30 (mkPoint3D 0 0 100) 1600 900 = Ok pt /\
      truncates_to (800 - 9 / 14 * 100 * sqrt 3) (fst pt) /\
      truncates_to 450 (snd pt)) /\
  exists q : Point3D,
    Camera.unproject tilted30 688 450 1600 900 0 = Ok q /\ y q = 0 /\
    Rabs (IZR 688 - (800 - 9 / 14 * 100 * sqrt 3)) < 3 / 2.
Proof.
  pose proof sqrt3_bounds as [Hlo Hhi].
  destruct (@project_unproject_round_trip tilted30 (mkPoint3D 0 0 100) 1600 900
              (800 - 9 / 14 * 100 * sqrt 3) 450
              tilted30_ordinary eq_refl window_1600_900) as [Hpr Hback].
  - unfold ordinary_point. cbn [x y z]. rewrite Rabs_R0, (Rabs_pos_eq 100) by lra. lra.
  - reflexivity.
  - unfold depth. rewrite (proj2 (proj2 (tilted30_coords 100))). lra.
  - apply tilted30_project_real.
  - apply bounds_Rabs. lra.
  - apply bounds_Rabs. lra.
  - split; [exact Hpr|].
    destruct (Hback 688%Z 450%Z) as (q & Hun & Hy & _ & Hnear & _).
    + exists (1 / 5). split; [apply bounds_Rabs; lra|].
      unfold Py.int.
      destruct (Rle_dec 0 (800 - 9 / 14 * 100 * sqrt 3 + 1 / 5)) as [_ | Hneg];
        [| exfalso; lra].
      symmetry. apply Zfloor_eq. split; lra.
    + exists 0. split; [rewrite Rabs_R0; lra|].
      rewrite Rplus_0_r. symmetry. apply int_IZR.
    + exact tilted30_ray_688.
    + exists q. split; [exact Hun|]. split; [exact Hy | exact Hnear].
Defined.

(** ** Interaction *)

(** *** Wrap and clamp *)

Lemma fmod_range (a b : R) : 0 < b -> 0 <= Py.fmod a b < b.
Proof.
  intros Hb. unfold Py.fmod.
  destruct (Zfloor_bound (a / b)) as [Hlo Hhi].
  set (k := IZR (Zfloor (a / b))) in *.
  assert (Ha : a = a / b * b) by (field; lra).
  split.
  - assert (b * k <= a / b * b) by nra. lra.
  - assert (a / b * b < b * k + b) by nra. lra.
Qed.

Lemma fmod_congruent (a b : R) : exists k : Z, Py.fmod a b = a - b * IZR k.
Proof. exists (Zfloor (a / b)). reflexivity. Qed.

Lemma clamp_range (lo hi v : R) : lo <= hi -> lo <= Rmax lo (Rmin hi v) <= hi.
Proof.
  intros H. split.
  - apply Rmax_l.
  - apply Rmax_lub; [exact H | apply Rmin_l].
Qed.

Lemma clamp_inside (lo hi v : R) : lo <= v <= hi -> Rmax lo (Rmin hi v) = v.
Proof.
  intros [H1 H2]. rewrite Rmin_right by exact H2. apply Rmax_right. exact H1.
Qed.

(** *** Camera drags *)

Lemma camera_drag_camera (pos : Z * Z) (s : t) :
  camera (drag_camera pos s)
  = mkCamera (distance (camera s))
             (Py.fmod (angle_h (camera s)
                       + IZR (fst pos - fst (last_mouse_pos s)) * (1 / 2)) 360)
             (Rmax (-85) (Rmin 85 (angle_v (camera s)
                                   - IZR (snd pos - snd (last_mouse_pos s)) * (3 / 10))))
             (target (camera s)) (fov (camera s)).
Proof. reflexivity. Qed.

Lemma drag_camera_in_range (pos : Z * Z) (s : t) :
  angles_in_range (camera (drag_camera pos s)).
Proof.
  rewrite camera_drag_camera. unfold angles_in_range. cbn [angle_h angle_v].
  split.
  - apply fmod_range. lra.
  - apply clamp_range. lra.
Qed.

Lemma drags_in_range (moves : list (Z * Z)) : forall s : t,
  angles_in_range (camera s) -> angles_in_range (camera (drags moves s)).
Proof.
  induction moves as [| pos moves IH]; intros s Hs.
  - exact Hs.
  - apply (IH (drag_camera pos s)). apply drag_camera_in_range.
Qed.

(** C5.  Camera angles under orbit drags.  From a camera with [angle_h]
    in [[0, 360)] and [angle_v] in [[-85, 85]], any sequence of camera-drag
    pointer moves leaves both angles in these ranges.  A single move adds
    half the horizontal pixel delta to [angle_h] up to a multiple of 360,
    and sets [angle_v] to the old value minus 0.3 times the vertical
    delta, clamped to [[-85, 85]]. *)
Theorem camera_angles_stay_in_range :
  forall (s : t) (moves : list (Z * Z)),
    0 <= angle_h (camera s) < 360 ->
    -85 <= angle_v (camera s) <= 85 ->
    (0 <= angle_h (camera (drags moves s)) < 360 /\
     -85 <= angle_v (camera (drags moves s)) <= 85) /\
    (forall pos : Z * Z,
        let dx := (fst pos - fst (last_mouse_pos s))%Z in
        let dy := (snd pos - snd (last_mouse_pos s))%Z in
        (exists k : Z,
            angle_h (camera (drag_camera pos s))
            = angle_h (camera s) + IZR dx * (1 / 2) - 360 * IZR k) /\
        angle_v (camera (drag_camera pos s))
        = Rmax (-85) (Rmin 85 (angle_v (camera s) - IZR dy * (3 / 10)))).
Proof.
  intros s moves Hh Hv. split.
  - apply (drags_in_range moves). split; assumption.
  - intros pos dx dy. rewrite camera_drag_camera. cbn [angle_h angle_v]. split.
    + apply fmod_congruent.
    + reflexivity.
Qed.

Lemma camera_angles_stay_in_range_witness :
  0 <= angle_h (camera (drags [(10, 4); (-900, 700)]%Z init)) < 360 /\
  -85 <= angle_v (camera (drags [(10, 4); (-900, 700)]%Z init)) <= 85.
Proof.
  apply (@camera_angles_stay_in_range init [(10, 4); (-900, 700)]%Z).
  - cbn. lra.
  - cbn. lra.
Defined.

(** *** Wheel *)

Lemma on_mousewheel_scale (ev_y : Z) (s : t) (sel : Object3D) :
  selected_object s = Some sel -> ar_mode_active s = false ->
  on_mousewheel true ev_y s
  = set_selected_object
      (Some (mkObject3D (name sel) (position sel) (rotation sel) (obj_type sel)
                        (id sel)
                        (Rmax (1 / 2) (Rmin 2 (scale sel + IZR ev_y * (1 / 10))))
                        (selected sel))) s.
Proof.
  intros Hsel Har. unfold on_mousewheel. rewrite Hsel, Har. reflexivity.
Qed.

Lemma on_mousewheel_zoom (lshift : bool) (ev_y : Z) (s : t) :
  lshift = false \/ selected_object s = None \/ ar_mode_active s = true ->
  on_mousewheel lshift ev_y s
  = set_camera
      (mkCamera (Rmax 200 (Rmin 1500 (distance (camera s) - IZR ev_y * 40)))
                (angle_h (camera s)) (angle_v (camera s))
                (target (camera s)) (fov (camera s))) s.
Proof.
  intros H. unfold on_mousewheel.
  destruct (selected_object s) as [sel |]; [| reflexivity].
  destruct H as [-> | [H | ->]]; [reflexivity | discriminate |].
  rewrite andb_false_r. reflexivity.
Qed.

Lemma on_mousewheel_ranges (lshift : bool) (ev_y : Z) (s : t) :
  wheel_ranges s -> wheel_ranges (on_mousewheel lshift ev_y s).
Proof.
  intros [Hsc Hdist].
  assert (Hzoom : lshift = false \/ selected_object s = None \/ ar_mode_active s = true ->
                  wheel_ranges (on_mousewheel lshift ev_y s)).
  { intros H. rewrite on_mousewheel_zoom by exact H. split.
    - cbn [selected_object set_camera]. exact Hsc.
    - cbn [camera set_camera distance]. apply clamp_range. lra. }
  destruct lshift; [| auto].
  destruct (ar_mode_active s) eqn:Har; [auto|].
  destruct (selected_object s) as [sel |] eqn:Hsel; [| auto].
  rewrite (on_mousewheel_scale ev_y s Hsel Har). split.
  - cbn [selected_object set_selected_object]. intros sel' [= <-].
    cbn [scale]. apply clamp_range. lra.
  - cbn [camera set_selected_object]. exact Hdist.
Qed.

Lemma wheels_ranges (evs : list (bool * Z)) : forall s : t,
  wheel_ranges s -> wheel_ranges (wheels evs s).
Proof.
  induction evs as [| ev evs IH]; intros s Hs.
  - exact Hs.
  - apply (IH (on_mousewheel (fst ev) (snd ev) s)). apply on_mousewheel_ranges. exact Hs.
Qed.

(** C6.  Wheel clamps.  From a selected object (if any) whose scale is in
    [[0.5, 2]] and a camera distance in [[200, 1500]], any sequence of
    wheel events leaves both in range.  A wheel event with the modifier
    held, a selection and AR mode off sets the scale to the old value plus
    0.1 per tick, clamped, and leaves the camera alone; a wheel event
    without the modifier sets the distance to the old value minus 40 per
    tick, clamped, and leaves the selection alone. *)
Theorem wheel_clamps_hold :
  forall (s : t) (evs : list (bool * Z)),
    (forall sel : Object3D, selected_object s = Some sel -> 1 / 2 <= scale sel <= 2) ->
    200 <= distance (camera s) <= 1500 ->
    ((forall sel : Object3D,
         selected_object (wheels evs s) = Some sel -> 1 / 2 <= scale sel <= 2) /\
     200 <= distance (camera (wheels evs s)) <= 1500) /\
    (forall (ev_y : Z) (sel : Object3D),
        selected_object s = Some sel -> ar_mode_active s = false ->
        exists sel' : Object3D,
          selected_object (on_mousewheel true ev_y s) = Some sel' /\
          scale sel' = Rmax (1 / 2) (Rmin 2 (scale sel + IZR ev_y * (1 / 10))) /\
          camera (on_mousewheel true ev_y s) = camera s) /\
    (forall ev_y : Z,
        distance (camera (on_mousewheel false ev_y s))
        = Rmax 200 (Rmin 1500 (distance (camera s) - IZR ev_y * 40)) /\
        selected_object (on_mousewheel false ev_y s) = selected_object s).
Proof.
  intros s evs Hsc Hdist. split; [| split].
  - apply (wheels_ranges evs). split; assumption.
  - intros ev_y sel Hsel Har. rewrite (on_mousewheel_scale ev_y s Hsel Har).
    eexists. cbn [selected_object camera set_selected_object].
    split; [reflexivity|]. split; reflexivity.
  - intros ev_y. rewrite on_mousewheel_zoom by auto.
    cbn [selected_object camera set_camera distance]. split; reflexivity.
Qed.

Lemma wheel_clamps_hold_witness :
  200 <= distance (camera (wheels [(false, 100); (false, -100)]%Z init)) <= 1500.
Proof.
  apply (@wheel_clamps_hold init [(false, 100); (false, -100)]%Z).
  - cbn. intros sel H. discriminate H.
  - cbn. lra.
Defined.

(** *** Stable sort by key *)

Section SortedFacts.

Variable A : Type.
Variable key : A -> R.

Lemma insert_by_perm (a : A) (l : list A) : Permutation (insert_by key a l) (a :: l).
Proof.
  induction l as [| b l IH]; simpl.
  - apply Permutation_refl.
  - destruct (Rlt_dec (key b) (key a)).
    + apply perm_trans with (b :: a :: l).
      * apply perm_skip. exact IH.
      * apply perm_swap.
    + apply Permutation_refl.
Qed.

Lemma sorted_perm (l : list A) : Permutation (sorted key l) l.
Proof.
  induction l as [| a l IH]; simpl.
  - apply perm_nil.
  - apply perm_trans with (a :: sorted key l).
    + apply insert_by_perm.
    + apply perm_skip. exact IH.
Qed.

Lemma insert_by_sorted (a : A) (l : list A) :
  StronglySorted (key_le key) l -> StronglySorted (key_le key) (insert_by key a l).
Proof.
  induction l as [| b l IH]; intros Hs; simpl.
  - constructor; constructor.
  - inversion Hs as [| b' l' Hl Hb]; subst.
    destruct (Rlt_dec (key b) (key a)) as [Hlt | Hge].
    + constructor.
      * apply IH. exact Hl.
      * apply Forall_forall. intros e He.
        apply (Permutation_in _ (insert_by_perm a l)) in He.
        destruct He as [<- | He].
        -- unfold key_le. lra.
        -- rewrite Forall_forall in Hb. apply Hb. exact He.
    + constructor.
      * exact Hs.
      * constructor.
        -- unfold key_le. lra.
        -- apply Forall_forall. intros e He.
           rewrite Forall_forall in Hb. specialize (Hb e He).
           unfold key_le in *. lra.
Qed.

Lemma sorted_sorted (l : list A) : StronglySorted (key_le key) (sorted key l).
Proof.
  induction l as [| a l IH]; simpl.
  - constructor.
  - apply insert_by_sorted. exact IH.
Qed.

(** The first entry satisfying a test, in a list sorted by key, has the
    least key among the entries satisfying it. *)
Lemma find_sorted_least (f : A -> bool) (l : list A) (a : A) :
  StronglySorted (key_le key) l -> find f l = Some a ->
  forall b : A, In b l -> f b = true -> key a <= key b.
Proof.
  induction l as [| e l IH]; intros Hs Hf b Hb Hfb; simpl in *.
  - contradiction.
  - inversion Hs as [| e' l' Hl He]; subst.
    destruct (f e) eqn:Hfe.
    + injection Hf as <-. destruct Hb as [<- | Hb].
      * lra.
      * rewrite Forall_forall in He. apply He. exact Hb.
    + destruct Hb as [<- | Hb].
      * congruence.
      * apply IH; assumption.
Qed.


End SortedFacts.

(** *** Hit testing *)

Lemma hitb_spec (s : t) (mouse_pos : Z * Z) (obj : Object3D) :
  hitb s mouse_pos obj = true <->
  exists screen_pt : Z * Z,
    Camera.project (camera s) (position obj)
                   (window_width s) (window_height s) = Ok screen_pt /\
    sqrt (IZR (fst mouse_pos - fst screen_pt) ^ 2
          + IZR (snd mouse_pos - snd screen_pt) ^ 2)
    <= base_radius (obj_type obj) * scale obj.
Proof.
  unfold hitb.
  destruct (Camera.project (camera s) (position obj)
                           (window_width s) (window_height s)) as [pt | e].
  - match goal with |- context [Rle_dec ?a ?b] => destruct (Rle_dec a b) as [Hle | Hgt] end.
    + split; [| reflexivity]. intros _. exists pt. split; [reflexivity | exact Hle].
    + split; [discriminate|]. intros (pt' & [= <-] & Hle). contradiction.
  - split; [discriminate|]. intros (pt' & Hpt & _). discriminate Hpt.
Qed.


Lemma projects_usable (s : t) :
  ordinary_camera (camera s) -> fov (camera s) = 60 ->
  ordinary_window (window_width s) (window_height s) ->
  projects s.
Proof.
  intros (Hd & _ & Hv & _) Hf ([Hw _] & _) p. apply project_valid.
  - lra.
  - lra.
  - exact Hv.
  - apply Rgt_not_eq. apply tan_half_60_pos. exact Hf.
  - lia.
Qed.

Lemma hit_loop_find (s : t) (mouse_pos : Z * Z) (l : list Object3D) :
  projects s -> hit_loop s mouse_pos l = Ok (find (hitb s mouse_pos) l).
Proof.
  intros Hp. induction l as [| obj rest IH]; cbn [hit_loop find].
  - reflexivity.
  - unfold hitb at 1. destruct (Hp (position obj)) as [pt ->]. cbn [bind].
    match goal with |- context [Rle_dec ?a ?b] => destruct (Rle_dec a b) end.
    + reflexivity.
    + exact IH.
Qed.

Lemma get_object_at_mouse_find (s : t) (mouse_pos : Z * Z) :
  ordinary_camera (camera s) -> projects s ->
  get_object_at_mouse s mouse_pos
  = Ok (find (hitb s mouse_pos)
             (sorted (dist2 (Camera.get_position (camera s))) (objects s))).
Proof.
  intros Hcam Hp. unfold get_object_at_mouse.
  destruct (objects s) as [| o l] eqn:Ho.
  - reflexivity.
  - rewrite (basis_here Hcam). cbn [bind].
    apply hit_loop_find. exact Hp.
Qed.

(** An object drawn exactly under the pointer passes the test. *)
Lemma hitb_under_pointer (s : t) (mouse_pos : Z * Z) (obj : Object3D) :
  Camera.project (camera s) (position obj) (window_width s) (window_height s)
  = Ok mouse_pos ->
  0 <= base_radius (obj_type obj) * scale obj ->
  hitb s mouse_pos obj = true.
Proof.
  intros Hpr Hr. unfold hitb. rewrite Hpr.
  rewrite !Z.sub_diag. replace (0 ^ 2 + 0 ^ 2) with 0 by ring. rewrite sqrt_0.
  destruct (Rle_dec 0 (base_radius (obj_type obj) * scale obj)) as [_ | Hn];
    [reflexivity | contradiction].
Qed.


Lemma pixel_800_450 : ordinary_pixel (800, 450)%Z.
Proof. unfold ordinary_pixel. cbn [fst snd]. lia. Qed.





(** *** Secondary-button release *)

Lemma hit_loop_same_view (s s' : t) (mouse_pos : Z * Z) (l : list Object3D) :
  camera s' = camera s -> window_width s' = window_width s ->
  window_height s' = window_height s ->
  hit_loop s' mouse_pos l = hit_loop s mouse_pos l.
Proof.
  intros Hc Hw Hh. induction l as [| obj rest IH]; cbn [hit_loop].
  - reflexivity.
  - rewrite Hc, Hw, Hh, IH. reflexivity.
Qed.

Lemma get_object_at_mouse_release_flags (s : t) (mouse_pos : Z * Z) :
  get_object_at_mouse (release_flags s) mouse_pos = get_object_at_mouse s mouse_pos.
Proof.
  unfold get_object_at_mouse.
  change (objects (release_flags s)) with (objects s).
  change (camera (release_flags s)) with (camera s).
  destruct (objects s) as [| o l]; [reflexivity|].
  destruct (Camera.get_basis (camera s)) as [[[[r u] f] cam_pos] | e]; cbn [bind].
  - apply hit_loop_same_view; reflexivity.
  - reflexivity.
Qed.

Lemma on_mousebuttonup_3_unfold (pos : Z * Z) (s : t) :
  on_mousebuttonup_3 pos s
  = let was_drag :=
      match right_click_start s with
      | Some start => (displacement2 pos start >? 9)%Z
      | None => false
      end in
    if negb was_drag
    then hit <- get_object_at_mouse s pos ;;
         match hit with
         | Some obj => Ok (delete_clicked obj (release_flags s))
         | None => Ok (release_flags s)
         end
    else Ok (release_flags s).
Proof.
  unfold on_mousebuttonup_3. cbv zeta.
  fold (release_flags s). rewrite get_object_at_mouse_release_flags.
  unfold displacement2, delete_clicked.
  destruct (right_click_start s) as [start |]; cbv zeta.
  - destruct (_ >? 9)%Z; cbn [negb]; [reflexivity|].
    destruct (get_object_at_mouse s pos) as [[obj |] | e]; reflexivity.
  - cbn [negb].
    destruct (get_object_at_mouse s pos) as [[obj |] | e]; reflexivity.
Qed.

Lemma objects_delete_clicked (obj : Object3D) (s : t) :
  objects (delete_clicked obj s)
  = filter (fun o => negb (id o =? id obj)%Z) (objects s).
Proof.
  unfold delete_clicked. rewrite save_state_unfold. cbv zeta.
  match goal with |- context [(?a >? ?b)%Z] => destruct (a >? b)%Z end; reflexivity.
Qed.

(** C9, amended.  Secondary-button release.  With a recorded drag start,
    a squared pixel displacement greater than 9 makes the release a
    completed drag: only the drag bookkeeping is reset, scene and history
    are untouched.  A squared displacement of at most 9 makes it a click:
    the object under the pointer, if the hit test finds one, is removed
    from the scene (every object with its id), the selection is cleared
    and a snapshot is committed; if the hit test finds none only the
    bookkeeping is reset, and if it raises the handler raises. *)
Theorem secondary_release_click_or_drag :
  forall (s : t) (pos start : Z * Z),
    right_click_start s = Some start ->
    ((displacement2 pos start > 9)%Z ->
     on_mousebuttonup_3 pos s = Ok (release_flags s)) /\
    ((displacement2 pos start <= 9)%Z ->
     (forall obj : Object3D,
         get_object_at_mouse s pos = Ok (Some obj) ->
         on_mousebuttonup_3 pos s = Ok (delete_clicked obj (release_flags s))) /\
     (get_object_at_mouse s pos = Ok None ->
      on_mousebuttonup_3 pos s = Ok (release_flags s)) /\
     (forall e : exn,
         get_object_at_mouse s pos = Raise e ->
         on_mousebuttonup_3 pos s = Raise e)) /\
    objects (release_flags s) = objects s /\
    history (release_flags s) = history s /\
    history_index (release_flags s) = history_index s /\
    (forall obj : Object3D,
        objects (delete_clicked obj (release_flags s))
        = filter (fun o => negb (id o =? id obj)%Z) (objects s)).
Proof.
  intros s pos start Hstart.
  split; [| split].
  - intros Hd. rewrite on_mousebuttonup_3_unfold, Hstart. cbv zeta.
    replace (displacement2 pos start >? 9)%Z with true by lia. reflexivity.
  - intros Hd.
    assert (Hclick : on_mousebuttonup_3 pos s
                     = hit <- get_object_at_mouse s pos ;;
                       match hit with
                       | Some obj => Ok (delete_clicked obj (release_flags s))
                       | None => Ok (release_flags s)
                       end).
    { rewrite on_mousebuttonup_3_unfold, Hstart. cbv zeta.
      replace (displacement2 pos start >? 9)%Z with false by lia. reflexivity. }
    repeat split.
    + intros obj Hhit. rewrite Hclick, Hhit. reflexivity.
    + intros Hhit. rewrite Hclick, Hhit. reflexivity.
    + intros e Hhit. rewrite Hclick, Hhit. reflexivity.
  - repeat split. intros obj. exact (objects_delete_clicked obj (release_flags s)).
Qed.

Lemma secondary_release_click_or_drag_witness :
  on_mousebuttonup_3 (4, 0)%Z (set_right_click_start (Some (0, 0)%Z) init)
  = Ok (release_flags (set_right_click_start (Some (0, 0)%Z) init)).
Proof.
  refine (proj1 (@secondary_release_click_or_drag
           (set_right_click_start (Some (0, 0)%Z) init) (4, 0)%Z (0, 0)%Z eq_refl) _).
  unfold displacement2. simpl. lia.
Defined.

Lemma release_at_threshold_ordinary :
  ordinary_camera (camera release_at_threshold).
Proof.
  unfold ordinary_camera. cbn [camera release_at_threshold distance angle_h angle_v target].
  pose proof zero_point_ordinary.
  rewrite Rabs_pos_eq by lra. repeat split; try lra; apply H.
Qed.

Lemma release_at_threshold_projects : projects release_at_threshold.
Proof.
  apply projects_usable.
  - exact release_at_threshold_ordinary.
  - reflexivity.
  - exact window_1600_900.
Qed.

Lemma release_at_threshold_hit :
  hitb release_at_threshold (800, 450)%Z origin_chair = true.
Proof.
  apply hitb_under_pointer; [| cbn; lra].
  apply (@project_exact_pixel (camera release_at_threshold) 1600 900
           release_at_threshold_ordinary eq_refl window_1600_900).
  change (position origin_chair) with (target (camera release_at_threshold)).
  rewrite (@project_real_target (camera release_at_threshold) 1600 900
             release_at_threshold_ordinary eq_refl window_1600_900).
  f_equal. f_equal. f_equal; lra.
Qed.

Lemma release_at_threshold_target :
  get_object_at_mouse release_at_threshold (800, 450)%Z = Ok (Some origin_chair).
Proof.
  rewrite (@get_object_at_mouse_find release_at_threshold (800, 450)%Z
             release_at_threshold_ordinary release_at_threshold_projects).
  change (objects release_at_threshold) with [origin_chair].
  unfold sorted. cbn [fold_right insert_by find].
  rewrite release_at_threshold_hit. reflexivity.
Qed.

(** C9, as stated, fails at the threshold: a squared displacement of
    exactly 9 is not below 9, yet the release is treated as a click and
    the chair under the pointer is deleted. *)
Lemma release_at_threshold_deletes :
  right_click_start release_at_threshold = Some (797, 450)%Z /\
  displacement2 (800, 450)%Z (797, 450)%Z = 9%Z /\
  objects release_at_threshold = [origin_chair] /\
  exists s' : t,
    on_mousebuttonup_3 (800, 450)%Z release_at_threshold = Ok s' /\
    objects s' = [].
Proof.
  split; [reflexivity|]. split; [reflexivity|]. split; [reflexivity|].
  exists (delete_clicked origin_chair (release_flags release_at_threshold)).
  split.
  - rewrite on_mousebuttonup_3_unfold.
    change (right_click_start release_at_threshold) with (Some (797, 450)%Z).
    cbv zeta.
    change (displacement2 (800, 450)%Z (797, 450)%Z >? 9)%Z with false.
    cbn [negb]. rewrite release_at_threshold_target. reflexivity.
  - rewrite objects_delete_clicked. reflexivity.
Qed.

(** * Further properties of the code *)

(** ** Vectors *)

Lemma length_nonneg (a : Point3D) : 0 <= Point3D.length a.
Proof. unfold Point3D.length. apply sqrt_pos. Qed.

Lemma length_zero_iff (a : Point3D) :
  Point3D.length a = 0 <-> a = mkPoint3D 0 0 0.
Proof.
  split.
  - intros H. pose proof (length_sqr a) as Hs. rewrite H in Hs.
    destruct a as [ax ay az]. cbn [x y z] in Hs.
    assert (ax = 0) by nra. assert (ay = 0) by nra. assert (az = 0) by nra.
    subst. reflexivity.
  - intros ->. unfold Point3D.length. cbn [x y z].
    replace (0 ^ 2 + 0 ^ 2 + 0 ^ 2) with 0 by ring. apply sqrt_0.
Qed.

(** Below [10 ^ 20] in every component, [length()] returns the norm. *)
Lemma length_returns (a : Point3D) :
  Rabs (x a) <= 10 ^ 20 -> Rabs (y a) <= 10 ^ 20 -> Rabs (z a) <= 10 ^ 20 ->
  Vector.length a = Ok (Point3D.length a).
Proof.
  intros Hx Hy Hz. unfold Vector.length.
  apply Rabs_bounds in Hx. apply Rabs_bounds in Hy. apply Rabs_bounds in Hz.
  pose proof pow_10_20_sqr as H40.
  assert (H20 : 0 < 10 ^ 20) by (apply pow_lt; lra).
  rewrite (@pow2_le (x a) (10 ^ 40)) by (try lra; rewrite <- H40; nra).
  rewrite (@pow2_le (y a) (10 ^ 40)) by (try lra; rewrite <- H40; nra).
  rewrite (@pow2_le (z a) (10 ^ 40)) by (try lra; rewrite <- H40; nra).
  reflexivity.
Qed.

Lemma ordinary_point_small (a : Point3D) :
  ordinary_point a ->
  Rabs (x a) <= 10 ^ 20 /\ Rabs (y a) <= 10 ^ 20 /\ Rabs (z a) <= 10 ^ 20.
Proof.
  intros (Hx & Hy & Hz). pose proof pow_10_6_le. repeat split; lra.
Qed.

Lemma normalize_cases (a : Point3D) :
  Rabs (x a) <= 10 ^ 20 -> Rabs (y a) <= 10 ^ 20 -> Rabs (z a) <= 10 ^ 20 ->
  exists n : Point3D,
    Vector.normalize a = Ok n /\
    (a = mkPoint3D 0 0 0 -> n = mkPoint3D 0 0 0) /\
    (a <> mkPoint3D 0 0 0 ->
     Point3D.length n = 1 /\ a = Vector.mul n (Point3D.length a)).
Proof.
  intros Hx Hy Hz. unfold Vector.normalize.
  rewrite (length_returns a Hx Hy Hz). cbn [bind].
  destruct (Req_dec_T (Point3D.length a) 0) as [E | N].
  - exists (mkPoint3D 0 0 0). split; [reflexivity|]. split; [reflexivity|].
    intros Hne. exfalso. apply Hne. apply length_zero_iff. exact E.
  - rewrite !(fdiv_ok _ N). cbn [bind].
    eexists. split; [reflexivity|]. split.
    + intros Hz'. exfalso. apply N. apply length_zero_iff. exact Hz'.
    + intros _. pose proof (length_sqr a) as Hs.
      pose proof (length_nonneg a) as Hn.
      set (l := Point3D.length a) in *. split.
      * apply length_one. cbn [x y z].
        transitivity ((x a ^ 2 + y a ^ 2 + z a ^ 2) / (l * l)); [field; exact N|].
        rewrite <- Hs. field. exact N.
      * unfold Vector.mul. cbn [x y z]. destruct a as [ax ay az]. cbn [x y z].
        apply point_eq; field; exact N.
Qed.

Lemma length_overflows (a : Point3D) :
  10 ^ 200 <= Rabs (x a) -> Vector.length a = Raise OverflowError.
Proof.
  intros Hx. unfold Vector.length. rewrite pow2_overflow; [reflexivity|].
  apply Rle_trans with (10 ^ 400); [left; exact float_limit_lt|].
  replace (10 ^ 400) with ((10 ^ 200) ^ 2) by (rewrite <- pow_mult; reflexivity).
  rewrite <- (pow2_abs (x a)). apply pow_incr. split; [| exact Hx].
  apply pow_le. lra.
Qed.

(** X1.  [Point3D.normalize] on a vector with components of magnitude at
    most [10^6] returns; the zero vector is returned as the zero vector,
    and a vector of length at least [10^-6] is returned with length 1
    and pointing the same way: multiplying the result by the length of
    the argument gives the argument back.  On a vector whose [x] is at
    least [10^200] in magnitude it raises [OverflowError], from the
    squares taken by [length()]. *)
Theorem normalize_unit_zero_or_overflow :
  forall a : Point3D,
    (ordinary_point a ->
     exists n : Point3D,
       Vector.normalize a = Ok n /\
       (a = mkPoint3D 0 0 0 -> n = mkPoint3D 0 0 0) /\
       (1 / 10 ^ 6 <= Point3D.length a ->
        Point3D.length n = 1 /\ a = Vector.mul n (Point3D.length a))) /\
    (10 ^ 200 <= Rabs (x a) -> Vector.normalize a = Raise OverflowError).
Proof.
  intros a. split.
  - intros Ha. destruct (ordinary_point_small Ha) as (Hx & Hy & Hz).
    destruct (normalize_cases a Hx Hy Hz) as (n & Hn & Hzero & Hunit).
    exists n. split; [exact Hn|]. split; [exact Hzero|].
    intros Hl. apply Hunit. intros E. apply length_zero_iff in E.
    assert (0 < 1 / 10 ^ 6) by (apply Rdiv_lt_0_compat; [lra | apply pow_lt; lra]).
    lra.
  - intros Hx. unfold Vector.normalize. rewrite (length_overflows a Hx). reflexivity.
Qed.

Lemma normalize_unit_zero_or_overflow_witness :
  exists n : Point3D,
    Vector.normalize (mkPoint3D 3 0 4) = Ok n /\ Point3D.length n = 1.
Proof.
  assert (H5 : Point3D.length (mkPoint3D 3 0 4) = 5).
  { unfold Point3D.length. cbn [x y z]. apply sqrt_of_square; lra. }
  destruct (proj1 (normalize_unit_zero_or_overflow (mkPoint3D 3 0 4)))
    as (n & Hn & _ & Hu).
  - unfold ordinary_point. cbn [x y z]. rewrite Rabs_R0, !Rabs_pos_eq by lra. lra.
  - exists n. split; [exact Hn|]. apply Hu. rewrite H5. lra.
Defined.

(** Lagrange's identity. *)
Lemma cross_norm (a b : Point3D) :
  Point3D.dot (Point3D.cross a b) (Point3D.cross a b)
  = Point3D.dot a a * Point3D.dot b b - Point3D.dot a b * Point3D.dot a b.
Proof. unfold Point3D.dot, Point3D.cross. cbn [x y z]. ring. Qed.

(** X2.  The vector [a.cross(b)] is orthogonal to [a] and to [b]; its
    squared length is [|a|^2 |b|^2 - (a.b)^2]; swapping the arguments
    negates it. *)
Theorem cross_is_orthogonal :
  forall a b : Point3D,
    Point3D.dot (Point3D.cross a b) a = 0 /\
    Point3D.dot (Point3D.cross a b) b = 0 /\
    Point3D.dot (Point3D.cross a b) (Point3D.cross a b)
    = Point3D.dot a a * Point3D.dot b b - Point3D.dot a b * Point3D.dot a b /\
    Point3D.cross b a = Vector.mul (Point3D.cross a b) (-1).
Proof.
  intros a b. unfold Point3D.dot, Point3D.cross, Vector.mul. cbn [x y z].
  repeat split; try ring.
  apply point_eq; ring.
Qed.

(** X3.  [get_position] lies on the sphere around the target whose
    radius is the absolute value of [distance], at the height [distance
    * sin(angle_v)] above the target. *)
Theorem camera_orbits_its_target :
  forall c : Camera,
    Point3D.length (Vector.sub (Camera.get_position c) (target c))
    = Rabs (distance c) /\
    y (Camera.get_position c) - y (target c)
    = distance c * sin (radians (angle_v c)).
Proof.
  intros c. split.
  - pose proof (offset_length c) as H. cbv zeta in H.
    unfold Point3D.length, Vector.sub. cbn [x y z]. rewrite <- H.
    f_equal. ring.
  - unfold Camera.get_position. cbn [y]. ring.
Qed.

(** ** Rays and the ground plane *)

(** X4.  For a camera in the ordinary range with the field of view of 60
    degrees, an ordinary window and an ordinary pixel, [screen_to_ray]
    returns; the ray starts at the camera position, its direction has
    length 1 and points into the half space in front of the camera. *)
Theorem screen_to_ray_is_unit_ray_from_camera :
  forall (c : Camera) (sx sy screen_width screen_height : Z),
    ordinary_camera c -> fov c = 60 ->
    ordinary_window screen_width screen_height -> ordinary_pixel (sx, sy) ->
    exists direction : Point3D,
      Camera.screen_to_ray c sx sy screen_width screen_height
      = Ok (Camera.get_position c, direction) /\
      Point3D.length direction = 1 /\
      0 < Point3D.dot direction (basis_forward c).
Proof.
  intros c sx sy w h Hcam Hfov Hwin Hpx.
  pose proof (screen_to_ray_closed Hcam Hfov Hwin Hpx) as Hray. cbv zeta in Hray.
  pose proof (along_norm c (ray_dx c sx w h) (ray_dy c sy h)) as Hn.
  pose proof (along_forward c (ray_dx c sx w h) (ray_dy c sy h)) as Hf.
  pose proof (along_length_ge_1 (ray_dx c sx w h) (ray_dy c sy h)) as Hl.
  set (dir := along c (ray_dx c sx w h) (ray_dy c sy h)) in *.
  assert (Hll : sqrt (ray_dx c sx w h * ray_dx c sx w h
                      + ray_dy c sy h * ray_dy c sy h + 1)
                * sqrt (ray_dx c sx w h * ray_dx c sx w h
                        + ray_dy c sy h * ray_dy c sy h + 1)
                = x dir ^ 2 + y dir ^ 2 + z dir ^ 2).
  { rewrite Hn. apply sqrt_sqrt. nra. }
  set (dl := sqrt (ray_dx c sx w h * ray_dx c sx w h
                   + ray_dy c sy h * ray_dy c sy h + 1)) in *.
  eexists. split; [exact Hray|]. split.
  - apply length_one. unfold Point3D.dot. cbn [x y z].
    transitivity ((x dir ^ 2 + y dir ^ 2 + z dir ^ 2) / (dl * dl)); [field; lra|].
    rewrite <- Hll. field. lra.
  - unfold Point3D.dot in *. cbn [x y z].
    replace (x dir / dl * x (basis_forward c) + y dir / dl * y (basis_forward c)
             + z dir / dl * z (basis_forward c))
      with ((x dir * x (basis_forward c) + y dir * y (basis_forward c)
             + z dir * z (basis_forward c)) / dl) by (field; lra).
    rewrite Hf. apply Rdiv_lt_0_compat; lra.
Qed.

Lemma pixel_10_20 : ordinary_pixel (10, 20)%Z.
Proof. unfold ordinary_pixel. cbn [fst snd]. lia. Qed.

Lemma screen_to_ray_is_unit_ray_from_camera_witness :
  exists direction : Point3D,
    Camera.screen_to_ray Camera.init 10 20 1600 900
    = Ok (Camera.get_position Camera.init, direction) /\
    Point3D.length direction = 1.
Proof.
  destruct (@screen_to_ray_is_unit_ray_from_camera Camera.init 10 20 1600 900
              init_ordinary eq_refl window_1600_900 pixel_10_20)
    as (d & Hray & Hlen & _).
  exists d. split; assumption.
Defined.

(** Once the ray is there, [unproject] returns. *)
Lemma unproject_returns (c : Camera) (sx sy w h : Z) (plane_y : R)
      (o d : Point3D) :
  Camera.screen_to_ray c sx sy w h = Ok (o, d) ->
  exists p : Point3D, Camera.unproject c sx sy w h plane_y = Ok p.
Proof.
  intros Hray. unfold Camera.unproject. rewrite Hray. cbn [bind].
  destruct (Rlt_dec (Rabs (y d)) (1 / 100000)) as [Hlt | Hge];
    [eexists; reflexivity|].
  assert (Hyd : y d <> 0).
  { intros E. apply Hge. rewrite E, Rabs_R0. lra. }
  rewrite (fdiv_ok _ Hyd). cbn [bind].
  destruct (Rle_dec ((plane_y - y o) / y d) 0); eexists; reflexivity.
Qed.

Lemma unproject_ordinary (c : Camera) (sx sy w h : Z) (plane_y : R) :
  ordinary_camera c -> fov c = 60 -> ordinary_window w h -> ordinary_pixel (sx, sy) ->
  exists p : Point3D, Camera.unproject c sx sy w h plane_y = Ok p.
Proof.
  intros Hcam Hfov Hwin Hpx.
  pose proof (screen_to_ray_closed Hcam Hfov Hwin Hpx) as Hray. cbv zeta in Hray.
  exact (@unproject_returns _ _ _ _ _ plane_y _ _ Hray).
Qed.

Lemma unproject_on_plane (c : Camera) (sx sy w h : Z) (plane_y : R) (p : Point3D) :
  Camera.unproject c sx sy w h plane_y = Ok p -> y p = plane_y.
Proof.
  intros Hun. unfold Camera.unproject in Hun.
  destruct (Camera.screen_to_ray c sx sy w h) as [[o d] | e];
    cbn [bind] in Hun; [| discriminate].
  destruct (Rlt_dec (Rabs (y d)) (1 / 100000)).
  - injection Hun as <-. reflexivity.
  - destruct (fdiv (plane_y - y o) (y d)) as [t | e]; cbn [bind] in Hun; [| discriminate].
    destruct (Rle_dec t 0); injection Hun as <-; reflexivity.
Qed.

(** X5.  For a camera in the ordinary range with the field of view of 60
    degrees, an ordinary window, an ordinary pixel and a plane height of
    magnitude at most [10^6], [unproject] returns a point whose [y] is
    the plane height asked for.  When the ray is not parallel to the
    plane and meets it in front of the camera, the point is on the ray,
    at a positive parameter.  For a ray parallel to the plane the point
    is straight below or above the camera; for a plane behind the camera
    it is one unit along the ray in [x] and [z]. *)
Theorem unproject_hits_plane_on_ray :
  forall (c : Camera) (sx sy screen_width screen_height : Z) (plane_y : R),
    ordinary_camera c -> fov c = 60 ->
    ordinary_window screen_width screen_height -> ordinary_pixel (sx, sy) ->
    Rabs plane_y <= 10 ^ 6 ->
    exists p direction : Point3D,
      Camera.unproject c sx sy screen_width screen_height plane_y = Ok p /\
      Camera.screen_to_ray c sx sy screen_width screen_height
      = Ok (Camera.get_position c, direction) /\
      y p = plane_y /\
      (Rabs (y direction) < 1 / 100000 ->
       x p = x (Camera.get_position c) /\ z p = z (Camera.get_position c)) /\
      (1 / 100000 <= Rabs (y direction) ->
       (plane_y - y (Camera.get_position c)) / y direction <= 0 ->
       x p = x (Camera.get_position c) + x direction /\
       z p = z (Camera.get_position c) + z direction) /\
      (1 / 100000 <= Rabs (y direction) ->
       0 < (plane_y - y (Camera.get_position c)) / y direction ->
       exists t : R,
         0 < t /\
         p = mkPoint3D (x (Camera.get_position c) + x direction * t)
                       (y (Camera.get_position c) + y direction * t)
                       (z (Camera.get_position c) + z direction * t)).
Proof.
  intros c sx sy w h py Hcam Hfov Hwin Hpx _.
  pose proof (screen_to_ray_closed Hcam Hfov Hwin Hpx) as Hray. cbv zeta in Hray.
  destruct (@unproject_returns c sx sy w h py _ _ Hray) as [p Hun].
  destruct (@unproject_cases c sx sy w h py _ _ Hray) as (Hpar & Hback & Hfront).
  eexists p, _. split; [exact Hun|]. split; [exact Hray|].
  split; [exact (unproject_on_plane _ _ _ _ _ _ Hun)|].
  split; [| split].
  - intros H. rewrite (Hpar H) in Hun. injection Hun as <-. cbn [x z]. auto.
  - intros H1 H2. rewrite (Hback H1 H2) in Hun. injection Hun as <-.
    unfold Camera.get_position, along, basis_right, basis_up, basis_forward.
    cbn [x y z]. split; ring.
  - intros H1 H2. rewrite (Hfront H1 H2) in Hun. injection Hun as <-.
    eexists. split; [exact H2|].
    match type of H1 with _ <= Rabs ?yd =>
      assert (Hyd : yd <> 0) by (intros E; rewrite E, Rabs_R0 in H1; lra)
    end.
    apply point_eq; [reflexivity | field; exact Hyd | reflexivity].
Qed.

Lemma unproject_hits_plane_on_ray_witness :
  exists p : Point3D,
    Camera.unproject tilted30 688 450 1600 900 0 = Ok p /\ y p = 0.
Proof.
  destruct (@unproject_hits_plane_on_ray tilted30 688 450 1600 900 0
              tilted30_ordinary eq_refl window_1600_900 pixel_688_450)
    as (p & d & Hun & _ & Hy & _).
  - rewrite Rabs_R0. apply pow_le. lra.
  - exists p. split; [exact Hun | exact Hy].
Defined.

(** ** Projection: errors and the centre pixel *)

Lemma project_zero_distance (c : Camera) (p : Point3D) (w h : Z) :
  distance c = 0 -> Camera.project c p w h = Raise ZeroDivisionError.
Proof.
  intros Hd. unfold Camera.project. rewrite get_basis_zero_distance by exact Hd.
  reflexivity.
Qed.

Lemma float_limit_lt_309 : float_limit < 10 ^ 309.
Proof.
  unfold float_limit.
  replace 10 with (IZR 10) by reflexivity. replace 2 with (IZR 2) by reflexivity.
  rewrite !pow_IZR, <- minus_IZR. apply IZR_lt. vm_compute. reflexivity.
Qed.

(** Far enough from the target, one of the three squares taken for the
    length of the forward vector overflows. *)
Lemma get_basis_overflow (c : Camera) :
  10 ^ 200 <= Rabs (distance c) -> Camera.get_basis c = Raise OverflowError.
Proof.
  intros Hfar.
  destruct (offset_to_target c) as (Hx & Hy & Hz).
  pose proof (forward_unit c) as Hfu. unfold Point3D.dot in Hfu.
  unfold Camera.get_basis. cbv zeta. cbn [x y z]. rewrite Hx, Hy, Hz.
  clear Hx Hy Hz.
  set (d := distance c) in *.
  set (fx := x (basis_forward c)) in *.
  set (fy := y (basis_forward c)) in *.
  set (fz := z (basis_forward c)) in *.
  assert (Hdd : 10 ^ 400 <= d ^ 2).
  { replace (10 ^ 400) with ((10 ^ 200) ^ 2) by (rewrite <- pow_mult; reflexivity).
    rewrite <- (pow2_abs d). apply pow_incr. split; [apply pow_le; lra | exact Hfar]. }
  assert (Hsum : (d * fx) ^ 2 + (d * fy) ^ 2 + (d * fz) ^ 2 = d ^ 2).
  { transitivity (d ^ 2 * (fx * fx + fy * fy + fz * fz)); [ring|].
    rewrite Hfu. ring. }
  pose proof float_limit_lt_309 as Hlim.
  assert (H3 : 3 * 10 ^ 309 <= 10 ^ 400).
  { replace (10 ^ 400) with (10 ^ 309 * 10 ^ 91) by (rewrite <- pow_add; reflexivity).
    assert (0 < 10 ^ 309) by (apply pow_lt; lra).
    assert (3 <= 10 ^ 91) by (apply Rle_trans with (10 ^ 1); [lra | apply Rle_pow; [lra | lia]]).
    nra. }
  unfold pow2.
  destruct (Rle_dec float_limit ((d * fx) ^ 2)) as [_ | Nx]; [reflexivity|].
  cbn [bind].
  destruct (Rle_dec float_limit ((d * fy) ^ 2)) as [_ | Ny]; [reflexivity|].
  cbn [bind].
  destruct (Rle_dec float_limit ((d * fz) ^ 2)) as [_ | Nz]; [reflexivity|].
  exfalso. lra.
Qed.

(** X6.  [project] returns a pixel for a camera in the ordinary range
    with the field of view of 60 degrees, an ordinary window and an
    ordinary point.  At [distance] zero it raises [ZeroDivisionError]
    for every point, and at a distance of magnitude [10^200] or more,
    with an ordinary target, it raises [OverflowError] for every point:
    both come from [get_basis], the first from the division by the
    length of the forward vector, the second from the squares taken for
    that length. *)
Theorem project_returns_or_raises :
  forall (c : Camera) (p : Point3D) (screen_width screen_height : Z),
    (ordinary_camera c -> fov c = 60 ->
     ordinary_window screen_width screen_height -> ordinary_point p ->
     exists pt : Z * Z, Camera.project c p screen_width screen_height = Ok pt) /\
    (distance c = 0 ->
     Camera.project c p screen_width screen_height = Raise ZeroDivisionError) /\
    (ordinary_point (target c) -> 10 ^ 200 <= Rabs (distance c) ->
     Camera.project c p screen_width screen_height = Raise OverflowError).
Proof.
  intros c p w h. split; [| split].
  - intros (Hd & _ & Hv & _) Hf ([Hw _] & _) _. apply project_valid.
    + lra.
    + lra.
    + exact Hv.
    + apply Rgt_not_eq. apply tan_half_60_pos. exact Hf.
    + lia.
  - apply project_zero_distance.
  - intros _ Hfar. unfold Camera.project. rewrite (get_basis_overflow c Hfar).
    reflexivity.
Qed.

Lemma project_returns_or_raises_witness :
  exists pt : Z * Z, Camera.project Camera.init (mkPoint3D 1 2 3) 1600 900 = Ok pt.
Proof.
  apply (proj1 (@project_returns_or_raises Camera.init (mkPoint3D 1 2 3) 1600 900)).
  - exact init_ordinary.
  - reflexivity.
  - exact window_1600_900.
  - unfold ordinary_point. cbn [x y z]. rewrite !Rabs_pos_eq by lra. lra.
Defined.

(** X7.  For a camera in the ordinary range with the field of view of 60
    degrees and an ordinary window, the screen position of the orbit
    target, before truncation, is the centre [(w / 2, h / 2)]; the pixel
    [project] returns for it, and every pixel the truncation can give
    when the float is off by up to half a unit, is within one pixel of
    the centre in each coordinate.  Every ordinary point whose depth
    along the forward axis is at most 0.0005, and the camera position
    itself, is sent to the centre pixel [(w // 2, h // 2)] by the early
    return. *)
Theorem target_and_fallback_project_to_centre :
  forall (c : Camera) (screen_width screen_height : Z),
    ordinary_camera c -> fov c = 60 ->
    ordinary_window screen_width screen_height ->
    Camera.project_real c (target c) screen_width screen_height
    = Ok (Some (1 / 2 * IZR screen_width, 1 / 2 * IZR screen_height)) /\
    (exists pt : Z * Z,
        Camera.project c (target c) screen_width screen_height = Ok pt /\
        Rabs (IZR (fst pt) - IZR screen_width / 2) <= 1 /\
        Rabs (IZR (snd pt) - IZR screen_height / 2) <= 1) /\
    (forall n m : Z,
        truncates_to (1 / 2 * IZR screen_width) n ->
        truncates_to (1 / 2 * IZR screen_height) m ->
        Rabs (IZR n - IZR screen_width / 2) <= 1 /\
        Rabs (IZR m - IZR screen_height / 2) <= 1) /\
    (forall p : Point3D,
        ordinary_point p -> depth c p <= 1 / 2000 ->
        Camera.project c p screen_width screen_height
        = Ok ((screen_width / 2)%Z, (screen_height / 2)%Z)) /\
    Camera.project c (Camera.get_position c) screen_width screen_height
    = Ok ((screen_width / 2)%Z, (screen_height / 2)%Z).
Proof.
  intros c w h Hcam Hf Hwin.
  pose proof (project_real_target Hcam Hf Hwin) as Htarget.
  assert (Hbehind : forall p : Point3D,
             depth c p <= 1 / 1000 ->
             Camera.project c p w h = Ok ((w / 2)%Z, (h / 2)%Z)).
  { intros p Hp. unfold depth in Hp.
    rewrite (project_from_real Hcam Hf Hwin), (project_real_closed Hcam Hf Hwin).
    cbv zeta.
    destruct (Rle_dec (Point3D.dot (offset c p) (basis_forward c)) (1 / 1000));
      [reflexivity | contradiction]. }
  assert (Hcentre : forall (v : Z) (n : Z),
             (1 <= v)%Z -> truncates_to (1 / 2 * IZR v) n ->
             Rabs (IZR n - IZR v / 2) <= 1).
  { intros v n Hv (e & He & ->).
    assert (Hv1 : 1 <= IZR v) by (apply IZR_le; exact Hv).
    apply Rabs_bounds in He.
    unfold Py.int. destruct (Rle_dec 0 (1 / 2 * IZR v + e)) as [_ | Hneg];
      [| exfalso; lra].
    destruct (Zfloor_bound (1 / 2 * IZR v + e)) as [Hlo Hhi].
    pose proof (Z.div_mod v 2 ltac:(lia)) as Hdm.
    pose proof (Z.mod_pos_bound v 2 ltac:(lia)) as Hmod.
    assert (Hr : IZR v = 2 * IZR (v / 2) + IZR (v mod 2)).
    { rewrite <- mult_IZR, <- plus_IZR. f_equal. exact Hdm. }
    set (f := Zfloor (1 / 2 * IZR v + e)) in *.
    set (k := (v / 2)%Z) in *.
    assert (Hm : (v mod 2 = 0)%Z \/ (v mod 2 = 1)%Z) by lia.
    apply bounds_Rabs.
    destruct Hm as [Hm | Hm]; rewrite Hm in Hr.
    - assert (Hf1 : (k - 1 <= f)%Z).
      { apply Z.lt_succ_r. apply lt_IZR. rewrite succ_IZR, minus_IZR. lra. }
      assert (Hf2 : (f <= k)%Z).
      { apply Z.lt_succ_r. apply lt_IZR. rewrite succ_IZR. lra. }
      apply IZR_le in Hf1. apply IZR_le in Hf2. rewrite minus_IZR in Hf1. lra.
    - assert (Hf1 : (k <= f)%Z).
      { apply Z.lt_succ_r. apply lt_IZR. rewrite succ_IZR. lra. }
      assert (Hf2 : (f <= k + 1)%Z).
      { apply Z.lt_succ_r. apply lt_IZR. rewrite succ_IZR, plus_IZR. lra. }
      apply IZR_le in Hf1. apply IZR_le in Hf2. rewrite plus_IZR in Hf2. lra. }
  pose proof Hwin as ([Hw _] & [Hh _]).
  split; [exact Htarget|]. split; [| split; [| split]].
  - exists (Py.int (1 / 2 * IZR w), Py.int (1 / 2 * IZR h)). cbn [fst snd].
    split; [apply project_truncates; assumption|].
    split; apply Hcentre; try assumption; apply truncates_exact.
  - intros n m Hn Hm. split; apply Hcentre; assumption.
  - intros p _ Hp. apply Hbehind. lra.
  - apply Hbehind. unfold depth, offset, Point3D.dot. cbn [x y z]. lra.
Qed.

Lemma target_and_fallback_project_to_centre_witness :
  exists pt : Z * Z,
    Camera.project Camera.init (target Camera.init) 1600 900 = Ok pt /\
    Rabs (IZR (fst pt) - IZR 1600 / 2) <= 1 /\
    Rabs (IZR (snd pt) - IZR 900 / 2) <= 1.
Proof.
  exact (proj1 (proj2 (@target_and_fallback_project_to_centre Camera.init 1600 900
                         init_ordinary eq_refl window_1600_900))).
Defined.

(** ** Shading *)

Lemma dot_self_length (a : Point3D) :
  Point3D.dot a a = Point3D.length a * Point3D.length a.
Proof. rewrite length_sqr. unfold Point3D.dot. ring. Qed.

Lemma cauchy_schwarz (a b : Point3D) :
  Point3D.dot a b * Point3D.dot a b <= Point3D.dot a a * Point3D.dot b b.
Proof.
  pose proof (cross_norm a b) as H.
  pose proof (Rle_0_sqr (x (Point3D.cross a b))) as H1.
  pose proof (Rle_0_sqr (y (Point3D.cross a b))) as H2.
  pose proof (Rle_0_sqr (z (Point3D.cross a b))) as H3.
  unfold Rsqr in *. unfold Point3D.dot in *. lra.
Qed.

Lemma unit_dot_le_1 (n l : Point3D) :
  Point3D.dot n n <= 1 -> Point3D.dot l l = 1 -> Point3D.dot n l <= 1.
Proof.
  intros Hn Hl. pose proof (cauchy_schwarz n l) as H. rewrite Hl in H.
  destruct (Rle_dec (Point3D.dot n l) 1) as [Hle | Hgt]; [exact Hle | exfalso; nra].
Qed.

Lemma normalize_dot_self (a : Point3D) :
  Rabs (x a) <= 10 ^ 20 -> Rabs (y a) <= 10 ^ 20 -> Rabs (z a) <= 10 ^ 20 ->
  exists n : Point3D,
    Vector.normalize a = Ok n /\
    (a = mkPoint3D 0 0 0 -> n = mkPoint3D 0 0 0) /\
    (a <> mkPoint3D 0 0 0 -> Point3D.dot n n = 1) /\
    Point3D.dot n n <= 1.
Proof.
  intros Hx Hy Hz.
  destruct (normalize_cases a Hx Hy Hz) as (n & Hn & Hzero & Hu). exists n.
  split; [exact Hn|]. split; [exact Hzero|].
  assert (Hcase : a = mkPoint3D 0 0 0 \/ a <> mkPoint3D 0 0 0).
  { destruct (Req_dec_T (Point3D.length a) 0) as [E | N].
    - left. apply length_zero_iff. exact E.
    - right. intros E. apply N. apply length_zero_iff. exact E. }
  split.
  - intros Hne. destruct (Hu Hne) as [Hl _]. rewrite dot_self_length, Hl. ring.
  - destruct Hcase as [E | Hne].
    + rewrite (Hzero E). unfold Point3D.dot. cbn [x y z]. lra.
    + destruct (Hu Hne) as [Hl _]. rewrite dot_self_length, Hl. lra.
Qed.

(** The normal of a face with ordinary corners is far from overflow. *)
Lemma face_normal_small (p0 p1 p2 : Point3D) :
  ordinary_point p0 -> ordinary_point p1 -> ordinary_point p2 ->
  let n := Point3D.cross (Vector.sub p1 p0) (Vector.sub p2 p0) in
  Rabs (x n) <= 10 ^ 20 /\ Rabs (y n) <= 10 ^ 20 /\ Rabs (z n) <= 10 ^ 20.
Proof.
  intros (H0x & H0y & H0z) (H1x & H1y & H1z) (H2x & H2y & H2z).
  apply Rabs_bounds in H0x, H0y, H0z, H1x, H1y, H1z, H2x, H2y, H2z.
  cbv zeta. unfold Point3D.cross, Vector.sub. cbn [x y z].
  repeat split; apply bounds_Rabs; nra.
Qed.

Lemma int_scaled_bounds (r : Z) (i : R) :
  (0 <= r)%Z -> 0 <= i <= 1 -> (0 <= Py.int (IZR r * i) <= r)%Z.
Proof.
  intros Hr [Hi0 Hi1]. assert (H0 : 0 <= IZR r) by (apply IZR_le; exact Hr).
  unfold Py.int.
  destruct (Rle_dec 0 (IZR r * i)) as [_ | Hneg]; [| exfalso; nra].
  split.
  - apply Zfloor_lub. simpl. nra.
  - rewrite <- (ZfloorZ r) at 2. apply Zfloor_le. nra.
Qed.

Lemma light_vec_nonzero : mkPoint3D (- (1 / 2)) (12 / 10) (- (8 / 10)) <> mkPoint3D 0 0 0.
Proof. intros [= H _ _]. lra. Qed.

(** The intensity a unit (or zero) normal receives. *)
Lemma intensity_range (d : R) :
  d <= 1 ->
  4 / 10 <= Rmax 0 (Rmin 1 (4 / 10 + Rmax 0 d * (1 - 4 / 10))) <= 1.
Proof.
  intros Hd.
  assert (H : 0 <= Rmax 0 d <= 1).
  { split; [apply Rmax_l | apply Rmax_lub; lra]. }
  rewrite Rmin_right by nra. rewrite Rmax_right by nra. nra.
Qed.

Lemma cross_of_repeated_corner (p0 p1 p2 : Point3D) :
  p1 = p0 \/ p2 = p0 \/ p1 = p2 ->
  Point3D.cross (Vector.sub p1 p0) (Vector.sub p2 p0) = mkPoint3D 0 0 0.
Proof.
  unfold Point3D.cross, Vector.sub. cbn [x y z].
  intros [-> | [-> | ->]]; apply point_eq; ring.
Qed.

(** X8.  For a colour with components between 0 and 255,
    [draw_shaded_polygon] returns early on fewer than three points;
    otherwise, when the first three points are ordinary, the colour it
    fills with is the base colour scaled, component by component and
    truncated (up to the rounding of the float truncated), by one
    intensity between 0.4 and 1, so every component stays between 0 and
    its base value.  When two of the first three points coincide the
    intensity is exactly the ambient 0.4. *)
Theorem shaded_color_is_dimmed_base_color :
  forall r g b : Z,
    (0 <= r <= 255)%Z -> (0 <= g <= 255)%Z -> (0 <= b <= 255)%Z ->
    (forall points_3d : list Point3D,
        (List.length points_3d < 3)%nat ->
        UI.shaded_color points_3d (r, g, b) = Ok None) /\
    (forall (p0 p1 p2 : Point3D) (rest : list Point3D),
        ordinary_point p0 -> ordinary_point p1 -> ordinary_point p2 ->
        exists (intensity : R) (r' g' b' : Z),
          UI.shaded_color (p0 :: p1 :: p2 :: rest) (r, g, b)
          = Ok (Some (r', g', b')) /\
          4 / 10 <= intensity <= 1 /\
          truncates_to (IZR r * intensity) r' /\
          truncates_to (IZR g * intensity) g' /\
          truncates_to (IZR b * intensity) b' /\
          (0 <= r' <= r)%Z /\ (0 <= g' <= g)%Z /\ (0 <= b' <= b)%Z /\
          (p1 = p0 \/ p2 = p0 \/ p1 = p2 -> intensity = 4 / 10)).
Proof.
  intros r g b [Hr _] [Hg _] [Hb _]. split.
  - intros pts Hlen.
    destruct pts as [| p0 [| p1 [| p2 rest]]]; try reflexivity.
    cbn [List.length] in Hlen. lia.
  - intros p0 p1 p2 rest H0 H1 H2. unfold UI.shaded_color.
    destruct (@normalize_dot_self (mkPoint3D (- (1 / 2)) (12 / 10) (- (8 / 10))))
      as (L & HL & _ & HLu & _).
    { cbn [x]. apply bounds_Rabs. assert (0 < 10 ^ 20) by (apply pow_lt; lra). lra. }
    { cbn [y]. apply bounds_Rabs. pose proof pow_10_6_le. lra. }
    { cbn [z]. apply bounds_Rabs. pose proof pow_10_6_le. lra. }
    specialize (HLu light_vec_nonzero). rewrite HL. cbn [bind].
    destruct (face_normal_small H0 H1 H2) as (Hnx & Hny & Hnz'). cbv zeta in Hnx, Hny, Hnz'.
    destruct (@normalize_dot_self _ Hnx Hny Hnz') as (n & Hn & Hnz & _ & Hn1).
    rewrite Hn. cbn [bind]. cbv zeta.
    pose proof (intensity_range (unit_dot_le_1 Hn1 HLu)) as Hi.
    assert (Hflat : p1 = p0 \/ p2 = p0 \/ p1 = p2 ->
                    Rmax 0 (Rmin 1 (4 / 10 + Rmax 0 (Point3D.dot n L) * (1 - 4 / 10)))
                    = 4 / 10).
    { intros E. rewrite (Hnz (cross_of_repeated_corner E)).
      unfold Point3D.dot. cbn [x y z].
      replace (0 * x L + 0 * y L + 0 * z L) with 0 by ring.
      rewrite (Rmax_left 0 0) by lra.
      rewrite Rmin_right by lra. rewrite Rmax_right by lra. lra. }
    set (i := Rmax 0 (Rmin 1 (4 / 10 + Rmax 0 (Point3D.dot n L) * (1 - 4 / 10)))) in *.
    exists i. eexists. eexists. eexists.
    split; [reflexivity|]. split; [exact Hi|].
    split; [apply truncates_exact|]. split; [apply truncates_exact|].
    split; [apply truncates_exact|].
    split; [apply int_scaled_bounds; [assumption | lra]|].
    split; [apply int_scaled_bounds; [assumption | lra]|].
    split; [apply int_scaled_bounds; [assumption | lra]|].
    exact Hflat.
Qed.

Lemma shaded_color_is_dimmed_base_color_witness :
  exists (intensity : R) (r' g' b' : Z),
    UI.shaded_color [mkPoint3D 0 0 0; mkPoint3D 1 0 0; mkPoint3D 0 0 1] (80, 60, 45)%Z
    = Ok (Some (r', g', b')) /\
    4 / 10 <= intensity <= 1 /\
    (0 <= r' <= 80)%Z.
Proof.
  assert (Hp : forall a b c : R, 0 <= a <= 1 -> 0 <= b <= 1 -> 0 <= c <= 1 ->
                                 ordinary_point (mkPoint3D a b c)).
  { intros a b c Ha Hb Hc. unfold ordinary_point. cbn [x y z].
    rewrite !Rabs_pos_eq by lra. lra. }
  destruct (@shaded_color_is_dimmed_base_color 80 60 45) as [_ H]; try lia.
  destruct (H (mkPoint3D 0 0 0) (mkPoint3D 1 0 0) (mkPoint3D 0 0 1) [])
    as (i & r' & g' & b' & Hc & Hi & _ & _ & _ & Hr & _).
  - apply Hp; lra.
  - apply Hp; lra.
  - apply Hp; lra.
  - exists i, r', g', b'. split; [exact Hc|]. split; [exact Hi | exact Hr].
Defined.

(** ** History sessions *)

Lemma history_wf_cursor_ok (s : t) : history_wf s -> cursor_ok s.
Proof.
  intros [[[Hh Hi] | Hin] _]; unfold cursor_ok.
  - rewrite Hh, Hi. unfold len. simpl. lia.
  - lia.
Qed.

Lemma len_nil_inv {A : Type} (l : list A) : len l = 0%Z -> l = [].
Proof. destruct l; unfold len; cbn [List.length]; [reflexivity | lia]. Qed.

Lemma save_state_history_wf (s : t) :
  history_wf s -> history_wf (save_state s) /\ max_history (save_state s) = max_history s.
Proof.
  intros Hwf. pose proof (history_wf_cursor_ok Hwf) as Hok.
  destruct (save_state_cursor Hok) as (Hh & Hi & Hok' & Hm).
  pose proof (len_kept Hok) as Hk.
  destruct Hwf as [Hcur Hcap]. destruct Hok as [Hlo Hhi].
  split; [| exact Hm]. unfold history_wf. rewrite Hm.
  assert (Hlen : len (kept s ++ [snapshot (objects s)]) = (history_index s + 2)%Z).
  { rewrite len_app, Hk. unfold len. simpl. lia. }
  assert (Hnew : (len (history (save_state s)) <= max_history s)%Z /\
                 (len (history (save_state s)) = 0 -> history_index s = -1)%Z).
  { rewrite Hh. unfold trim.
    destruct (len (kept s ++ [snapshot (objects s)]) >? max_history s)%Z eqn:E.
    - rewrite len_tl by lia. lia.
    - lia. }
  destruct Hnew as [Hle Hzero]. split; [| exact Hle].
  destruct (Z.eq_dec (len (history (save_state s))) 0) as [E | N].
  - left. split; [apply len_nil_inv; exact E | lia].
  - right. pose proof (len_nonneg (history (save_state s))). lia.
Qed.

Lemma undo_history_wf (s : t) :
  history_wf s ->
  exists s' : t, undo s = Ok s' /\ history_wf s' /\ max_history s' = max_history s.
Proof.
  intros [Hcur Hcap].
  destruct (Z_lt_le_dec 0 (history_index s)) as [Hpos | Hz].
  - assert (Hin : (0 < history_index s < len (history s))%Z).
    { destruct Hcur as [[_ Hi] | Hin]; lia. }
    rewrite undo_step by exact Hin. eexists. split; [reflexivity|].
    unfold history_wf. cbn [history history_index max_history set_objects set_history_index].
    split; [split; [right; lia | exact Hcap] | reflexivity].
  - rewrite undo_at_zero by exact Hz. exists s. split; [reflexivity|].
    split; [split; assumption | reflexivity].
Qed.

Lemma redo_step (s : t) :
  (-1 <= history_index s < len (history s) - 1)%Z ->
  redo s = Ok (set_objects
                 (snapshot (nth (Z.to_nat (history_index s + 1)) (history s) []))
                 (set_history_index (history_index s + 1) s)).
Proof.
  intros H. unfold redo. replace (history_index s <? len (history s) - 1)%Z with true by lia.
  cbn [history history_index set_history_index].
  rewrite (@index_in_range _ (history s) (history_index s + 1) []) by lia.
  reflexivity.
Qed.

Lemma redo_history_wf (s : t) :
  history_wf s ->
  exists s' : t, redo s = Ok s' /\ history_wf s' /\ max_history s' = max_history s.
Proof.
  intros [Hcur Hcap].
  destruct (Z_lt_le_dec (history_index s) (len (history s) - 1)) as [Hlt | Hge].
  - assert (Hin : (-1 <= history_index s < len (history s) - 1)%Z).
    { destruct Hcur as [[_ Hi] | Hin]; lia. }
    rewrite redo_step by exact Hin. eexists. split; [reflexivity|].
    unfold history_wf. cbn [history history_index max_history set_objects set_history_index].
    split; [split; [right; lia | exact Hcap] | reflexivity].
  - unfold redo. replace (history_index s <? len (history s) - 1)%Z with false by lia.
    exists s. split; [reflexivity|]. split; [split; assumption | reflexivity].
Qed.

Lemma run_op_history_wf (op : history_op) (s : t) :
  history_wf s ->
  exists s' : t, run_op op s = Ok s' /\ history_wf s' /\ max_history s' = max_history s.
Proof.
  intros Hwf. destruct op as [scene | |]; cbn [run_op].
  - exists (commit scene s). split; [reflexivity|].
    unfold commit. apply (@save_state_history_wf (set_objects scene s)). exact Hwf.
  - apply undo_history_wf. exact Hwf.
  - apply redo_history_wf. exact Hwf.
Qed.

(** X9.  From a well-formed history (cursor [-1] on an empty history,
    otherwise designating an entry; length within [max_history]), any
    sequence of commits of arbitrary scenes, undos and redos runs
    without an exception and leaves the history well formed, with
    [max_history] unchanged. *)
Theorem history_session_keeps_cursor_in_range :
  forall (ops : list history_op) (s : t),
    history_wf s ->
    exists s' : t,
      run_ops ops s = Ok s' /\
      history_wf s' /\
      max_history s' = max_history s.
Proof.
  induction ops as [| op ops IH]; intros s Hwf.
  - exists s. split; [reflexivity|]. split; [exact Hwf | reflexivity].
  - destruct (run_op_history_wf op Hwf) as (s1 & Hop & Hwf1 & Hm1).
    destruct (IH s1 Hwf1) as (s' & Hrun & Hwf' & Hm').
    exists s'. cbn [run_ops]. rewrite Hop. cbn [bind].
    split; [exact Hrun|]. split; [exact Hwf' | congruence].
Qed.

Lemma init_history_wf : history_wf init.
Proof.
  unfold history_wf. cbn [history history_index max_history init]. split.
  - left. split; reflexivity.
  - unfold len. simpl. lia.
Qed.

Lemma history_session_keeps_cursor_in_range_witness :
  exists s' : t,
    run_ops [Commit []; Undo; Redo; Commit []] init = Ok s' /\ history_wf s'.
Proof.
  destruct (@history_session_keeps_cursor_in_range
              [Commit []; Undo; Redo; Commit []] init init_history_wf)
    as (s' & Hrun & Hwf & _).
  exists s'. split; assumption.
Defined.

(** X10.  When the cursor designates an entry other than the first,
    [undo] installs a copy of the previous entry and moves the cursor
    back by one; a [redo] straight after returns the cursor and installs
    a copy of the entry the cursor came from, every other field being as
    before the undo. *)
Theorem undo_redo_round_trip :
  forall s : t,
    (0 < history_index s < len (history s))%Z ->
    exists s1 : t,
      undo s = Ok s1 /\
      history_index s1 = (history_index s - 1)%Z /\
      objects s1 = snapshot (nth (Z.to_nat (history_index s - 1)) (history s) []) /\
      redo s1
      = Ok (set_objects
              (snapshot (nth (Z.to_nat (history_index s)) (history s) [])) s).
Proof.
  intros s Hin. rewrite undo_step by exact Hin.
  eexists. split; [reflexivity|].
  split; [reflexivity|]. split; [reflexivity|].
  rewrite redo_step
    by (cbn [history history_index set_objects set_history_index]; lia).
  cbn [history history_index set_objects set_history_index].
  replace (history_index s - 1 + 1)%Z with (history_index s) by lia.
  f_equal; destruct s; reflexivity.
Qed.

Lemma undo_redo_round_trip_witness :
  exists s1 : t,
    undo placed_then_deleted = Ok s1 /\
    redo s1 = Ok (set_objects (snapshot []) placed_then_deleted).
Proof.
  destruct (@undo_redo_round_trip placed_then_deleted) as (s1 & Hu & _ & _ & Hr).
  - cbn [history_index history placed_then_deleted]. unfold len. simpl. lia.
  - exists s1. split; [exact Hu | exact Hr].
Defined.

(** X11.  When the cursor designates an entry other than the last,
    [redo] installs a copy of the next entry and advances the cursor; an
    [undo] straight after returns the cursor and installs a copy of the
    entry it came from, every other field being as before the redo. *)
Theorem redo_undo_round_trip :
  forall s : t,
    (0 <= history_index s < len (history s) - 1)%Z ->
    exists s1 : t,
      redo s = Ok s1 /\
      history_index s1 = (history_index s + 1)%Z /\
      objects s1 = snapshot (nth (Z.to_nat (history_index s + 1)) (history s) []) /\
      undo s1
      = Ok (set_objects
              (snapshot (nth (Z.to_nat (history_index s)) (history s) [])) s).
Proof.
  intros s Hin. rewrite redo_step by lia.
  eexists. split; [reflexivity|].
  split; [reflexivity|]. split; [reflexivity|].
  rewrite undo_step
    by (cbn [history history_index set_objects set_history_index]; lia).
  cbn [history history_index set_objects set_history_index].
  replace (history_index s + 1 - 1)%Z with (history_index s) by lia.
  f_equal; destruct s; reflexivity.
Qed.

Lemma nth_firstn_lt {A : Type} (l : list A) (i n : nat) (d : A) :
  (i < n)%nat -> nth i (firstn n l) d = nth i l d.
Proof.
  revert i n. induction l as [| a l IH]; intros i n H.
  - rewrite firstn_nil. reflexivity.
  - destruct n as [| n]; [lia|]. destruct i as [| i]; cbn [firstn nth].
    + reflexivity.
    + apply IH. lia.
Qed.

Lemma nth_tl {A : Type} (l : list A) (i : nat) (d : A) :
  nth i (tl l) d = nth (S i) l d.
Proof. destruct l as [| a l]; [destruct i; reflexivity | reflexivity]. Qed.

Lemma save_state_frame (s : t) :
  objects (save_state s) = objects s /\
  camera (save_state s) = camera s /\
  window_width (save_state s) = window_width s /\
  window_height (save_state s) = window_height s /\
  selected_object (save_state s) = selected_object s.
Proof.
  rewrite save_state_unfold. cbv zeta.
  destruct (len (kept s ++ [snapshot (objects s)]) >? max_history s)%Z;
    repeat split; reflexivity.
Qed.

Lemma commit_undo_redo (s : t) (scene : list Object3D) :
  (0 <= history_index s < len (history s))%Z ->
  (2 <= max_history s)%Z ->
  exists s1 : t,
    undo (commit scene s) = Ok s1 /\
    objects s1 = snapshot (nth (Z.to_nat (history_index s)) (history s) []) /\
    selected_object s1 = selected_object s /\
    exists s2 : t,
      redo s1 = Ok s2 /\ objects s2 = snapshot scene.
Proof.
  intros Hin Hcap.
  assert (Hsel : selected_object (commit scene s) = selected_object s).
  { unfold commit. destruct (save_state_frame (set_objects scene s)) as (_ & _ & _ & _ & H).
    exact H. }
  assert (Hok : cursor_ok s) by (unfold cursor_ok; lia).
  destruct (commit_cursor scene Hok) as (Hh & Hi).
  set (h := firstn (Z.to_nat (history_index s + 1)) (history s) ++ [snapshot scene]) in *.
  assert (Hlenf : len (firstn (Z.to_nat (history_index s + 1)) (history s))
                  = (history_index s + 1)%Z).
  { unfold len in *. rewrite length_firstn. lia. }
  assert (Hlenh : len h = (history_index s + 2)%Z).
  { unfold h. rewrite len_app, Hlenf. unfold len. simpl. lia. }
  assert (Hnth_old : forall i : nat, (Z.of_nat i <= history_index s)%Z ->
                       nth i h [] = nth i (history s) []).
  { intros i Hi'. unfold h. rewrite app_nth1 by (unfold len in Hlenf; lia).
    apply nth_firstn_lt. lia. }
  assert (Hnth_new : nth (Z.to_nat (history_index s + 1)) h [] = snapshot scene).
  { unfold h. rewrite app_nth2 by (unfold len in Hlenf; lia).
    replace (Z.to_nat (history_index s + 1)
             - List.length (firstn (Z.to_nat (history_index s + 1)) (history s)))%nat
      with 0%nat by (unfold len in Hlenf; lia).
    reflexivity. }
  generalize dependent (commit scene s). intros c Hsel Hh Hi.
  unfold trim in Hh.
  destruct (len h >? max_history s)%Z eqn:E.
  - (* the oldest entry was dropped *)
    assert (Hlenc : len (history c) = (history_index s + 1)%Z).
    { rewrite Hh, len_tl by lia. lia. }
    assert (Hic : history_index c = history_index s) by lia.
    rewrite undo_step by lia.
    eexists. split; [reflexivity|].
    cbn [objects history history_index set_objects set_history_index].
    split; [| split; [exact Hsel|]].
    + rewrite Hh, Hic, nth_tl.
      replace (S (Z.to_nat (history_index s - 1))) with (Z.to_nat (history_index s)) by lia.
      rewrite Hnth_old by lia. reflexivity.
    + rewrite redo_step
        by (cbn [history history_index set_objects set_history_index]; lia).
      eexists. split; [reflexivity|].
      cbn [objects history history_index set_objects set_history_index].
      rewrite Hh, Hic, nth_tl.
      replace (S (Z.to_nat (history_index s - 1 + 1)))
        with (Z.to_nat (history_index s + 1)) by lia.
      rewrite Hnth_new. apply snapshot_idem.
  - (* nothing was dropped *)
    assert (Hlenc : len (history c) = (history_index s + 2)%Z) by (rewrite Hh; lia).
    assert (Hic : history_index c = (history_index s + 1)%Z) by lia.
    rewrite undo_step by lia.
    eexists. split; [reflexivity|].
    cbn [objects history history_index set_objects set_history_index].
    split; [| split; [exact Hsel|]].
    + rewrite Hh, Hic.
      replace (history_index s + 1 - 1)%Z with (history_index s) by lia.
      rewrite Hnth_old by lia. reflexivity.
    + rewrite redo_step
        by (cbn [history history_index set_objects set_history_index]; lia).
      eexists. split; [reflexivity|].
      cbn [objects history history_index set_objects set_history_index].
      rewrite Hh, Hic.
      replace (history_index s + 1 - 1 + 1)%Z with (history_index s + 1)%Z by lia.
      rewrite Hnth_new. apply snapshot_idem.
Qed.

(** X12.  With the cursor on an entry and room for at least two entries,
    committing a new scene and then undoing installs a copy of the entry
    the cursor was on before the commit, also when the commit dropped
    the oldest entry; a redo after that installs a copy of the committed
    scene. *)
Theorem commit_then_undo_restores_previous :
  forall (s : t) (scene : list Object3D),
    (0 <= history_index s < len (history s))%Z ->
    (2 <= max_history s)%Z ->
    exists s1 : t,
      undo (commit scene s) = Ok s1 /\
      objects s1 = snapshot (nth (Z.to_nat (history_index s)) (history s) []) /\
      exists s2 : t,
        redo s1 = Ok s2 /\ objects s2 = snapshot scene.
Proof.
  intros s scene Hin Hcap.
  destruct (@commit_undo_redo s scene Hin Hcap) as (s1 & Hu & Ho & _ & Hr).
  exists s1. auto.
Qed.

Lemma commit_then_undo_restores_previous_witness :
  exists s1 : t,
    undo (commit [selected_chair] placed_then_deleted) = Ok s1 /\
    objects s1 = snapshot [].
Proof.
  destruct (@commit_then_undo_restores_previous placed_then_deleted [selected_chair])
    as (s1 & Hu & Ho & _).
  - cbn [history_index history placed_then_deleted]. unfold len. simpl. lia.
  - cbn [max_history placed_then_deleted]. lia.
  - exists s1. split; [exact Hu | exact Ho].
Defined.

Lemma redo_undo_round_trip_witness :
  exists s1 : t,
    redo deletion_undone = Ok s1 /\
    undo s1 = Ok (set_objects (snapshot [copy_object selected_chair]) deletion_undone).
Proof.
  destruct (@redo_undo_round_trip deletion_undone) as (s1 & Hr & _ & _ & Hu).
  - cbn [history_index history deletion_undone]. unfold len. simpl. lia.
  - exists s1. split; [exact Hr | exact Hu].
Defined.

(** ** Grid snapping, clamping and placement *)

(** *** Rounding and the grid *)

Lemma round_near (a : R) : - (1 / 2) <= IZR (PyNum.round a) - a <= 1 / 2.
Proof.
  destruct (Zfloor_bound a) as [Hlo Hhi]. unfold PyNum.round.
  destruct (Rlt_dec (a - IZR (Zfloor a)) (1 / 2)) as [H1 | H1]; [lra|].
  destruct (Rlt_dec (1 / 2) (a - IZR (Zfloor a))) as [H2 | H2].
  - rewrite plus_IZR. lra.
  - destruct (Z.even (Zfloor a)); [lra | rewrite plus_IZR; lra].
Qed.

Lemma round_IZR (n : Z) : PyNum.round (IZR n) = n.
Proof.
  unfold PyNum.round. rewrite ZfloorZ.
  destruct (Rlt_dec (IZR n - IZR n) (1 / 2)) as [H | H]; [reflexivity | lra].
Qed.

Lemma round_tie_even (n : Z) : Z.even (PyNum.round (IZR n + 1 / 2)) = true.
Proof.
  assert (Hf : Zfloor (IZR n + 1 / 2) = n).
  { apply Zfloor_eq. split; lra. }
  unfold PyNum.round. rewrite Hf.
  destruct (Rlt_dec (IZR n + 1 / 2 - IZR n) (1 / 2)) as [H | H]; [lra|].
  destruct (Rlt_dec (1 / 2) (IZR n + 1 / 2 - IZR n)) as [H2 | H2]; [lra|].
  destruct (Z.even n) eqn:E; [exact E|].
  rewrite Z.even_add, E. reflexivity.
Qed.

(** X13.  The two snapping assignments move [x] and [z] to multiples of
    [GRID_SIZE] at most half a cell away and leave [y] alone; a position
    already on the grid is unchanged; an [x] half way between two grid
    lines goes to the even multiple, as [round] breaks ties to even. *)
Theorem snap_to_cells_nearest_grid_point :
  forall pos : Point3D,
    (exists i k : Z,
        snap_to_cells pos
        = mkPoint3D (IZR i * GRID_SIZE) (y pos) (IZR k * GRID_SIZE) /\
        Rabs (IZR i * GRID_SIZE - x pos) <= GRID_SIZE / 2 /\
        Rabs (IZR k * GRID_SIZE - z pos) <= GRID_SIZE / 2) /\
    (forall i k : Z,
        x pos = IZR i * GRID_SIZE -> z pos = IZR k * GRID_SIZE ->
        snap_to_cells pos = pos) /\
    (forall i : Z,
        x pos = (IZR i + 1 / 2) * GRID_SIZE ->
        exists j : Z, x (snap_to_cells pos) = IZR (2 * j) * GRID_SIZE).
Proof.
  intros pos. unfold snap_to_cells, GRID_SIZE. cbn [x y z]. repeat split.
  - exists (PyNum.round (x pos / 25)), (PyNum.round (z pos / 25)).
    split; [reflexivity|].
    pose proof (round_near (x pos / 25)) as Hx.
    pose proof (round_near (z pos / 25)) as Hz.
    split; apply Rabs_le; lra.
  - intros i k Hx Hz. rewrite Hx, Hz.
    replace (IZR i * 25 / 25) with (IZR i) by lra.
    replace (IZR k * 25 / 25) with (IZR k) by lra.
    rewrite !round_IZR. destruct pos as [px py pz]. cbn [x y z] in *.
    rewrite Hx, Hz. reflexivity.
  - intros i Hx. rewrite Hx.
    replace ((IZR i + 1 / 2) * 25 / 25) with (IZR i + 1 / 2) by lra.
    pose proof (round_tie_even i) as He.
    apply Z.even_spec in He. destruct He as [j Hj].
    exists j. rewrite Hj. reflexivity.
Qed.

Lemma snap_to_cells_nearest_grid_point_witness :
  snap_to_cells (mkPoint3D 50 0 75) = mkPoint3D 50 0 75.
Proof.
  destruct (snap_to_cells_nearest_grid_point (mkPoint3D 50 0 75)) as (_ & H & _).
  apply (H 2%Z 3%Z); unfold GRID_SIZE; cbn [x z]; lra.
Defined.

(** *** [clamp_to_grid] *)

Lemma clamp_to_grid_inside (p : Planner) (pos : Point3D) :
  0 <= grid_width p -> 0 <= grid_depth p ->
  - (grid_width p / 2) <= x (clamp_to_grid p pos) <= grid_width p / 2 /\
  - (grid_depth p / 2) <= z (clamp_to_grid p pos) <= grid_depth p / 2 /\
  y (clamp_to_grid p pos) = y pos.
Proof.
  intros Hw Hd. unfold clamp_to_grid. cbn [x y z].
  split; [apply clamp_range; lra|].
  split; [apply clamp_range; lra | reflexivity].
Qed.

(** X14.  For a room of non-negative width and depth, [clamp_to_grid]
    returns a point with [x] within half the width and [z] within half
    the depth of the origin and [y] unchanged; clamping twice is
    clamping once; a point already inside is returned as it is, and an
    [x] beyond a wall is put on that wall. *)
Theorem clamp_to_grid_keeps_inside_room :
  forall (p : Planner) (pos : Point3D),
    0 <= grid_width p -> 0 <= grid_depth p ->
    let q := clamp_to_grid p pos in
    (- (grid_width p / 2) <= x q <= grid_width p / 2 /\
     - (grid_depth p / 2) <= z q <= grid_depth p / 2 /\
     y q = y pos) /\
    clamp_to_grid p q = q /\
    (- (grid_width p / 2) <= x pos <= grid_width p / 2 ->
     - (grid_depth p / 2) <= z pos <= grid_depth p / 2 ->
     q = pos) /\
    (grid_width p / 2 <= x pos -> x q = grid_width p / 2) /\
    (x pos <= - (grid_width p / 2) -> x q = - (grid_width p / 2)).
Proof.
  intros p pos Hw Hd q.
  pose proof (clamp_to_grid_inside p pos Hw Hd) as (Hx & Hz & Hy).
  fold q in Hx, Hz, Hy.
  split; [auto|]. split; [| split; [| split]].
  - unfold clamp_to_grid. cbn [x y z].
    rewrite !clamp_inside by assumption. destruct q; reflexivity.
  - intros Hx' Hz'. unfold q, clamp_to_grid. cbn [x y z].
    rewrite !clamp_inside by assumption. destruct pos; reflexivity.
  - intros H. unfold q, clamp_to_grid. cbn [x y z].
    rewrite Rmin_left by lra. rewrite Rmax_right by lra. reflexivity.
  - intros H. unfold q, clamp_to_grid. cbn [x y z].
    rewrite Rmin_right by lra. rewrite Rmax_left by lra. reflexivity.
Qed.

Lemma clamp_to_grid_keeps_inside_room_witness :
  x (clamp_to_grid small_room (mkPoint3D 400 0 10)) = 250 /\
  z (clamp_to_grid small_room (mkPoint3D 400 0 10)) = 10.
Proof.
  destruct (@clamp_to_grid_keeps_inside_room small_room (mkPoint3D 400 0 10))
    as (_ & _ & _ & Hx & _).
  - cbn [grid_width small_room]. lra.
  - cbn [grid_depth small_room]. lra.
  - split.
    + rewrite Hx; cbn [grid_width small_room x]; lra.
    + unfold clamp_to_grid. cbn [grid_depth small_room x y z].
      apply clamp_inside. lra.
Defined.

Lemma unproject_zero_distance (c : Camera) (sx sy w h : Z) (plane_y : R) :
  distance c = 0 -> Camera.unproject c sx sy w h plane_y = Raise ZeroDivisionError.
Proof.
  intros H. unfold Camera.unproject.
  rewrite (screen_to_ray_zero_distance c sx sy w h H). reflexivity.
Qed.

Lemma place_object_unfold (mouse_pos : Z * Z) (p : Planner) (wp : Point3D) :
  Camera.unproject (camera (core p)) (fst mouse_pos) (snd mouse_pos)
                   (window_width (core p)) (window_height (core p)) 0 = Ok wp ->
  place_object mouse_pos p
  = Ok (set_core
          (commit (objects (core p)
                   ++ [placed p (clamp_to_grid p
                                   (if snap_to_grid p then snap_to_cells wp else wp))])
                  (core p))
          (set_next_id (next_id p + 1) p)).
Proof.
  intros Hun. unfold place_object. rewrite Hun. cbn [bind].
  destruct p; reflexivity.
Qed.

(** X15.  For a room of width and depth between 0 and [10^6]: at
    [distance] zero [place_object] raises [ZeroDivisionError]; with
    camera and window in the ordinary range and an ordinary pointer
    position it returns, having appended exactly one object to the scene
    and committed the new scene to the history.  The object carries the
    id [next_id], which is then incremented, the selected type as type
    and name, scale 1, the [selected] flag off, and a position on the
    ground ([y = 0]) inside the room. *)
Theorem place_object_adds_one_object_inside_room :
  forall (p : Planner) (mouse_pos : Z * Z),
    0 <= grid_width p <= 10 ^ 6 -> 0 <= grid_depth p <= 10 ^ 6 ->
    (distance (camera (core p)) = 0 ->
     place_object mouse_pos p = Raise ZeroDivisionError) /\
    (ordinary_view (core p) -> ordinary_pixel mouse_pos ->
     exists obj : Object3D,
       place_object mouse_pos p
       = Ok (set_core (commit (objects (core p) ++ [obj]) (core p))
                      (set_next_id (next_id p + 1) p)) /\
       id obj = next_id p /\
       obj_type obj = selected_object_type p /\
       name obj = selected_object_type p /\
       scale obj = 1 /\ selected obj = false /\
       y (position obj) = 0 /\
       - (grid_width p / 2) <= x (position obj) <= grid_width p / 2 /\
       - (grid_depth p / 2) <= z (position obj) <= grid_depth p / 2).
Proof.
  intros p mouse_pos [Hw _] [Hd _]. split.
  - intros H0. unfold place_object.
    rewrite unproject_zero_distance by exact H0. reflexivity.
  - intros (Hcam & Hfov & Hwin) Hpx. destruct mouse_pos as [mx my].
    destruct (@unproject_ordinary (camera (core p)) mx my
                (window_width (core p)) (window_height (core p)) 0
                Hcam Hfov Hwin Hpx) as [wp Hun].
    pose proof (unproject_on_plane _ _ _ _ _ _ Hun) as Hy.
    set (wp' := if snap_to_grid p then snap_to_cells wp else wp).
    assert (Hy' : y wp' = 0).
    { unfold wp'. destruct (snap_to_grid p); [| exact Hy]. exact Hy. }
    exists (placed p (clamp_to_grid p wp')).
    split; [exact (place_object_unfold (mx, my) p Hun)|].
    pose proof (clamp_to_grid_inside p wp' Hw Hd) as (Hx & Hz & Hyc).
    cbn [placed id obj_type name scale selected position].
    repeat split; try reflexivity; try tauto; rewrite Hyc; exact Hy'.
Qed.

Lemma small_room_view : ordinary_view (core small_room).
Proof.
  split; [exact init_ordinary|]. split; [reflexivity | exact window_1600_900].
Qed.

Lemma place_object_adds_one_object_inside_room_witness :
  exists obj : Object3D,
    place_object (800, 450)%Z small_room
    = Ok (set_core (commit [obj] (core small_room)) (set_next_id 2 small_room)) /\
    id obj = 1%Z.
Proof.
  destruct (@place_object_adds_one_object_inside_room small_room (800, 450)%Z)
    as [_ H].
  - cbn [grid_width small_room]. lra.
  - cbn [grid_depth small_room]. lra.
  - destruct (H small_room_view pixel_800_450) as (obj & Hp & Hid & _).
    exists obj. split; [exact Hp | exact Hid].
Defined.

(** ** Editing sessions and object ids *)

Lemma scene_ok_nil (n : Z) : scene_ok n [].
Proof. split; [apply NoDup_nil | apply Forall_nil]. Qed.

Lemma scene_ok_mono (n m : Z) (scene : list Object3D) :
  (n <= m)%Z -> scene_ok n scene -> scene_ok m scene.
Proof.
  intros H [Hn Hf]. split; [exact Hn|].
  eapply Forall_impl; [| exact Hf]. cbv beta. intros o Ho. lia.
Qed.

Lemma map_id_snapshot (scene : list Object3D) : map id (snapshot scene) = map id scene.
Proof. unfold snapshot. rewrite map_map. reflexivity. Qed.

Lemma scene_ok_same_ids (n : Z) (l l' : list Object3D) :
  map id l' = map id l -> scene_ok n l -> scene_ok n l'.
Proof.
  intros E [Hn Hf]. split; [rewrite E; exact Hn|].
  apply Forall_forall. intros o Ho.
  assert (Hi : In (id o) (map id l)) by (rewrite <- E; apply in_map; exact Ho).
  apply in_map_iff in Hi. destruct Hi as (o' & Ho' & Hin).
  rewrite Forall_forall in Hf. rewrite <- Ho'. apply Hf. exact Hin.
Qed.

Lemma scene_ok_snapshot (n : Z) (scene : list Object3D) :
  scene_ok n scene -> scene_ok n (snapshot scene).
Proof. apply scene_ok_same_ids. apply map_id_snapshot. Qed.

Lemma NoDup_map_filter {A B : Type} (f : A -> B) (g : A -> bool) (l : list A) :
  NoDup (map f l) -> NoDup (map f (filter g l)).
Proof.
  induction l as [| a l IH]; cbn [map filter]; intros H; [exact H|].
  inversion H as [| ? ? Hnin Hnd]; subst.
  destruct (g a); cbn [map]; [| apply IH; exact Hnd].
  apply NoDup_cons; [| apply IH; exact Hnd].
  intros Hin. apply Hnin. apply in_map_iff in Hin.
  destruct Hin as (b & Hb & Hbin). apply filter_In in Hbin.
  rewrite <- Hb. apply in_map. tauto.
Qed.

Lemma scene_ok_filter (n : Z) (g : Object3D -> bool) (scene : list Object3D) :
  scene_ok n scene -> scene_ok n (filter g scene).
Proof.
  intros [Hn Hf]. split; [apply NoDup_map_filter; exact Hn|].
  apply Forall_forall. intros o Ho. apply filter_In in Ho.
  rewrite Forall_forall in Hf. apply Hf. tauto.
Qed.

Lemma scene_ok_append (n : Z) (scene : list Object3D) (obj : Object3D) :
  id obj = n -> scene_ok n scene -> scene_ok (n + 1) (scene ++ [obj]).
Proof.
  intros Hid [Hn Hf]. split.
  - rewrite map_app. cbn [map].
    apply NoDup_rev in Hn. rewrite <- (rev_involutive (map id scene ++ [id obj])).
    apply NoDup_rev. rewrite rev_app_distr. cbn [rev app].
    apply NoDup_cons; [| exact Hn].
    intros Hin. apply in_rev in Hin. apply in_map_iff in Hin.
    destruct Hin as (o & Ho & Hoin). rewrite Forall_forall in Hf.
    specialize (Hf o Hoin). lia.
  - apply Forall_app. split.
    + eapply Forall_impl; [| exact Hf]. cbv beta. intros o Ho. lia.
    + apply Forall_cons; [lia | apply Forall_nil].
Qed.

Lemma In_firstn {A : Type} (a : A) (n : nat) (l : list A) :
  In a (firstn n l) -> In a l.
Proof.
  intros H. rewrite <- (firstn_skipn n l). apply in_or_app. left. exact H.
Qed.

Lemma save_state_history_In (s : t) (e : list Object3D) :
  cursor_ok s -> In e (history (save_state s)) ->
  In e (history s) \/ e = snapshot (objects s).
Proof.
  intros Hok Hin. destruct (save_state_cursor Hok) as (Hh & _).
  rewrite Hh in Hin. unfold trim in Hin.
  assert (H : In e (kept s ++ [snapshot (objects s)])).
  { destruct (len (kept s ++ [snapshot (objects s)]) >? max_history s)%Z;
      [apply In_tl; exact Hin | exact Hin]. }
  apply in_app_or in H. destruct H as [H | [H | []]].
  - left. rewrite (kept_firstn Hok) in H. eapply In_firstn. exact H.
  - right. symmetry. exact H.
Qed.

Lemma save_state_scenes (n : Z) (s : t) :
  history_wf s -> scene_ok n (objects s) -> Forall (scene_ok n) (history s) ->
  Forall (scene_ok n) (history (save_state s)).
Proof.
  intros Hwf Ho Hh. apply Forall_forall. intros e He.
  destruct (@save_state_history_In s e (history_wf_cursor_ok Hwf) He) as [H | ->].
  - rewrite Forall_forall in Hh. apply Hh. exact H.
  - apply scene_ok_snapshot. exact Ho.
Qed.

Lemma save_state_ok (n : Z) (s : t) : state_ok n s -> state_ok n (save_state s).
Proof.
  intros (Hwf & Ho & Hh). split; [apply save_state_history_wf; exact Hwf|].
  destruct (save_state_frame s) as (Hobj & _). rewrite Hobj.
  split; [exact Ho | apply save_state_scenes; assumption].
Qed.

Lemma Forall_scene_ok_mono (n m : Z) (h : list (list Object3D)) :
  (n <= m)%Z -> Forall (scene_ok n) h -> Forall (scene_ok m) h.
Proof.
  intros H Hf. eapply Forall_impl; [| exact Hf].
  intros e. apply scene_ok_mono. exact H.
Qed.

Lemma hit_loop_In (s : t) (mouse_pos : Z * Z) (l : list Object3D) (obj : Object3D) :
  hit_loop s mouse_pos l = Ok (Some obj) -> In obj l.
Proof.
  induction l as [| o rest IH]; cbn [hit_loop]; intros H; [discriminate|].
  destruct (Camera.project (camera s) (position o) (window_width s) (window_height s))
    as [pt | e]; cbn [bind] in H; [| discriminate].
  match type of H with
  | (if ?c then _ else _) = _ => destruct c
  end.
  - injection H as <-. left. reflexivity.
  - right. apply IH. exact H.
Qed.

Lemma get_object_at_mouse_In (s : t) (mouse_pos : Z * Z) (obj : Object3D) :
  get_object_at_mouse s mouse_pos = Ok (Some obj) -> In obj (objects s).
Proof.
  unfold get_object_at_mouse. intros H.
  destruct (objects s) as [| o l] eqn:E; [discriminate|].
  destruct (Camera.get_basis (camera s)) as [[[[r u] f] cam_pos] | e];
    cbn [bind] in H; [| discriminate].
  apply hit_loop_In in H.
  eapply Permutation_in; [apply sorted_perm | exact H].
Qed.

Lemma get_object_at_mouse_returns (s : t) (mouse_pos : Z * Z) :
  ordinary_view s ->
  exists hit : option Object3D, get_object_at_mouse s mouse_pos = Ok hit.
Proof.
  intros (Hcam & Hfov & Hwin).
  rewrite (get_object_at_mouse_find mouse_pos Hcam (projects_usable s Hcam Hfov Hwin)).
  eexists. reflexivity.
Qed.

Lemma history_wf_frame (s s' : t) :
  history s' = history s -> history_index s' = history_index s ->
  max_history s' = max_history s -> history_wf s -> history_wf s'.
Proof. unfold history_wf. intros -> -> ->. tauto. Qed.

Lemma map_id_set_selected (f : Object3D -> bool) (l : list Object3D) :
  map id (map (fun o => set_selected (f o) o) l) = map id l.
Proof. rewrite map_map. reflexivity. Qed.

Lemma state_ok_mono (n m : Z) (s : t) : (n <= m)%Z -> state_ok n s -> state_ok m s.
Proof.
  intros H (Hwf & Ho & Hh). split; [exact Hwf|].
  split; [eapply scene_ok_mono; eassumption | eapply Forall_scene_ok_mono; eassumption].
Qed.

Lemma state_ok_frame (n : Z) (s s' : t) :
  history s' = history s -> history_index s' = history_index s ->
  max_history s' = max_history s -> scene_ok n (objects s') ->
  state_ok n s -> state_ok n s'.
Proof.
  intros Hh Hi Hm Ho (Hwf & _ & Hf). split; [eapply history_wf_frame; eassumption|].
  split; [exact Ho | rewrite Hh; exact Hf].
Qed.

Lemma same_view_refl (s : t) : same_view s s.
Proof. repeat split. Qed.

Lemma same_view_trans (s1 s2 s3 : t) :
  same_view s1 s2 -> same_view s2 s3 -> same_view s1 s3.
Proof.
  intros (H1 & H2 & H3) (H4 & H5 & H6). unfold same_view.
  rewrite H4, H5, H6. auto.
Qed.

Lemma ordinary_view_same (s s' : t) :
  same_view s s' -> ordinary_view s -> ordinary_view s'.
Proof. unfold ordinary_view. intros (-> & -> & ->). tauto. Qed.

Lemma save_state_view (s : t) : same_view s (save_state s).
Proof.
  destruct (save_state_frame s) as (_ & Hc & Hw & Hh & _). repeat split; assumption.
Qed.

Lemma delete_clicked_ok (n : Z) (obj : Object3D) (s : t) :
  state_ok n s -> state_ok n (delete_clicked obj s).
Proof.
  intros H. unfold delete_clicked. apply save_state_ok.
  apply (@state_ok_frame n s); try reflexivity; [| exact H].
  cbn [objects set_objects set_selected_object].
  apply scene_ok_filter. apply H.
Qed.

Lemma delete_clicked_view (obj : Object3D) (s : t) :
  same_view s (delete_clicked obj s).
Proof.
  unfold delete_clicked.
  eapply same_view_trans; [| apply save_state_view]. repeat split.
Qed.

Lemma undo_ok (n : Z) (s : t) :
  state_ok n s ->
  exists s' : t, undo s = Ok s' /\ state_ok n s' /\ same_view s s'.
Proof.
  intros Hs. pose proof Hs as ((Hcur & Hcap) & Ho & Hf).
  destruct (Z_lt_le_dec 0 (history_index s)) as [Hpos | Hz].
  - assert (Hin : (0 < history_index s < len (history s))%Z).
    { destruct Hcur as [[_ Hi] | Hin]; lia. }
    rewrite undo_step by exact Hin. eexists. split; [reflexivity|]. split.
    + split; [| split].
      * unfold history_wf.
        cbn [history history_index max_history set_objects set_history_index].
        split; [right; lia | exact Hcap].
      * cbn [objects set_objects]. apply scene_ok_snapshot.
        rewrite Forall_forall in Hf. apply Hf. apply nth_In. unfold len in Hin. lia.
      * exact Hf.
    + repeat split.
  - rewrite undo_at_zero by exact Hz. exists s.
    split; [reflexivity|]. split; [exact Hs | apply same_view_refl].
Qed.

Lemma redo_ok (n : Z) (s : t) :
  state_ok n s ->
  exists s' : t, redo s = Ok s' /\ state_ok n s' /\ same_view s s'.
Proof.
  intros Hs. pose proof Hs as ((Hcur & Hcap) & Ho & Hf).
  destruct (Z_lt_le_dec (history_index s) (len (history s) - 1)) as [Hlt | Hge].
  - assert (Hin : (-1 <= history_index s < len (history s) - 1)%Z).
    { destruct Hcur as [[_ Hi] | Hin]; lia. }
    rewrite redo_step by exact Hin. eexists. split; [reflexivity|]. split.
    + split; [| split].
      * unfold history_wf.
        cbn [history history_index max_history set_objects set_history_index].
        split; [right; lia | exact Hcap].
      * cbn [objects set_objects]. apply scene_ok_snapshot.
        rewrite Forall_forall in Hf. apply Hf. apply nth_In. unfold len in Hin. lia.
      * exact Hf.
    + repeat split.
  - unfold redo. replace (history_index s <? len (history s) - 1)%Z with false by lia.
    exists s. split; [reflexivity|]. split; [exact Hs | apply same_view_refl].
Qed.

Lemma release_flags_ok (n : Z) (s : t) :
  state_ok n s -> state_ok n (release_flags s) /\ same_view s (release_flags s).
Proof.
  intros Hs. split; [| repeat split].
  apply (@state_ok_frame n s); try reflexivity; [apply Hs | exact Hs].
Qed.

(** What a secondary release leaves behind when it returns. *)
Lemma on_mousebuttonup_3_step (n : Z) (pos : Z * Z) (s s' : t) :
  state_ok n s -> on_mousebuttonup_3 pos s = Ok s' ->
  state_ok n s' /\ same_view s s'.
Proof.
  intros Hs. destruct (release_flags_ok Hs) as [Hrs Hrv].
  rewrite on_mousebuttonup_3_unfold. cbv zeta.
  match goal with
  | |- context [if ?c then _ else _] => destruct c
  end; [| intros [= <-]; auto].
  destruct (get_object_at_mouse s pos) as [[obj |] | e]; cbn [bind];
    [| intros [= <-]; auto | discriminate].
  intros [= <-]. split; [apply delete_clicked_ok; exact Hrs|].
  eapply same_view_trans; [exact Hrv | apply delete_clicked_view].
Qed.

Lemma on_mousebuttonup_3_returns (pos : Z * Z) (s : t) :
  ordinary_view s -> exists s' : t, on_mousebuttonup_3 pos s = Ok s'.
Proof.
  intros Hv. rewrite on_mousebuttonup_3_unfold. cbv zeta.
  match goal with
  | |- context [if ?c then _ else _] => destruct c
  end; [| eexists; reflexivity].
  destruct (get_object_at_mouse_returns pos Hv) as [[obj |] Hhit];
    rewrite Hhit; cbn [bind]; eexists; reflexivity.
Qed.

Lemma on_keydown_delete_ok (n : Z) (s : t) :
  state_ok n s ->
  state_ok n (on_keydown_delete s) /\ same_view s (on_keydown_delete s).
Proof.
  intros Hs. unfold on_keydown_delete.
  destruct (selected_object s) as [sel |]; [| split; [exact Hs | apply same_view_refl]].
  split; [apply (delete_clicked_ok sel Hs) | apply (delete_clicked_view sel s)].
Qed.

Lemma on_clear_ok (n : Z) (s : t) :
  state_ok n s ->
  state_ok n (on_clear s) /\ same_view s (on_clear s).
Proof.
  intros Hs. unfold on_clear. split.
  - apply save_state_ok. apply (@state_ok_frame n s); try reflexivity; [| exact Hs].
    apply scene_ok_nil.
  - eapply same_view_trans; [| apply save_state_view]. repeat split.
Qed.

Lemma place_object_step (pos : Z * Z) (p p' : Planner) :
  editor_ok p -> place_object pos p = Ok p' ->
  editor_ok p' /\ same_view (core p) (core p') /\
  next_id p' = (next_id p + 1)%Z.
Proof.
  intros Hs Hpl.
  destruct (Camera.unproject (camera (core p)) (fst pos) (snd pos)
              (window_width (core p)) (window_height (core p)) 0%R)
    as [wp | e] eqn:Hun.
  2: { unfold place_object in Hpl. rewrite Hun in Hpl. discriminate. }
  rewrite (place_object_unfold pos p Hun) in Hpl. injection Hpl as <-.
  unfold editor_ok. cbn [core next_id set_core set_next_id].
  split; [| split; [| reflexivity]].
  - unfold commit. apply save_state_ok.
    apply (@state_ok_frame (next_id p + 1) (core p)); try reflexivity.
    + cbn [objects set_objects]. apply scene_ok_append; [reflexivity | apply Hs].
    + apply state_ok_mono with (n := next_id p); [lia | exact Hs].
  - unfold commit. eapply same_view_trans; [| apply save_state_view]. repeat split.
Qed.

Lemma place_object_returns (pos : Z * Z) (p : Planner) :
  ordinary_view (core p) -> ordinary_pixel pos ->
  exists p' : Planner, place_object pos p = Ok p'.
Proof.
  intros (Hcam & Hfov & Hwin) Hpx. destruct pos as [mx my].
  destruct (@unproject_ordinary (camera (core p)) mx my
              (window_width (core p)) (window_height (core p)) 0%R
              Hcam Hfov Hwin Hpx) as [wp Hun].
  rewrite (place_object_unfold (mx, my) p Hun). eexists. reflexivity.
Qed.

Lemma deselect_all_ok (p : Planner) :
  editor_ok p ->
  editor_ok (set_core (set_objects (map (set_selected false)
                                        (objects (set_selected_object None (core p))))
                                   (set_selected_object None (core p))) p).
Proof.
  intros Hs. unfold editor_ok. cbn [core next_id set_core].
  apply (@state_ok_frame (next_id p) (core p)); try reflexivity; [| exact Hs].
  cbn [objects set_objects set_selected_object].
  apply scene_ok_same_ids with (l := objects (core p)); [| apply Hs].
  rewrite map_map. reflexivity.
Qed.

Lemma on_mousebuttondown_1_step (clicked_ui : bool) (pos : Z * Z) (p p' : Planner) :
  editor_ok p -> on_mousebuttondown_1 clicked_ui pos p = Ok p' ->
  editor_ok p' /\ same_view (core p) (core p') /\ (next_id p <= next_id p')%Z.
Proof.
  intros Hs. unfold on_mousebuttondown_1.
  match goal with
  | |- context [if ?c then _ else _] => destruct c
  end; [| intros [= <-]; split; [exact Hs|]; split; [apply same_view_refl | lia]].
  destruct (get_object_at_mouse (core p) pos) as [[obj |] | e]; cbn [bind];
    [| | discriminate].
  - intros [= <-].
    unfold editor_ok. cbn [core next_id set_core set_dragging_object].
    split; [| split; [repeat split | lia]].
    apply (@state_ok_frame (next_id p) (core p)); try reflexivity; [| exact Hs].
    cbn [objects set_objects set_selected_object].
    apply scene_ok_same_ids with (l := objects (core p));
      [apply map_id_set_selected | apply Hs].
  - intros Hpl.
    destruct (place_object_step pos (deselect_all_ok Hs) Hpl) as (Hok & Hv & Hn).
    split; [exact Hok|]. split.
    + eapply same_view_trans; [| exact Hv]. repeat split.
    + rewrite Hn. cbn [next_id set_core]. lia.
Qed.

Lemma on_mousebuttondown_1_returns (clicked_ui : bool) (pos : Z * Z) (p : Planner) :
  ordinary_view (core p) -> ordinary_pixel pos ->
  exists p' : Planner, on_mousebuttondown_1 clicked_ui pos p = Ok p'.
Proof.
  intros Hv Hpx. unfold on_mousebuttondown_1.
  match goal with
  | |- context [if ?c then _ else _] => destruct c
  end; [| eexists; reflexivity].
  destruct (get_object_at_mouse_returns pos Hv) as [[obj |] Hhit];
    rewrite Hhit; cbn [bind]; [eexists; reflexivity|].
  apply place_object_returns; [| exact Hpx].
  cbn [core set_core]. revert Hv. apply ordinary_view_same. repeat split.
Qed.

Lemma on_mousebuttonup_1_ok (b : released_on) (p : Planner) :
  editor_ok p ->
  exists p' : Planner,
    on_mousebuttonup_1 b p = Ok p' /\ editor_ok p' /\
    same_view (core p) (core p') /\ next_id p' = next_id p.
Proof.
  intros Hs. unfold on_mousebuttonup_1.
  assert (Htail : forall q : Planner,
            editor_ok q -> same_view (core p) (core q) -> next_id q = next_id p ->
            exists p' : Planner,
              Ok (set_dragging_object false
                    (if dragging_object q
                     then set_core (save_state (core q)) q else q)) = Ok p' /\
              editor_ok p' /\ same_view (core p) (core p') /\ next_id p' = next_id p).
  { intros q Hq Hvq Hn. eexists. split; [reflexivity|].
    destruct (dragging_object q);
      unfold editor_ok; cbn [core next_id set_core set_dragging_object].
    - split; [apply save_state_ok; exact Hq|].
      split; [eapply same_view_trans; [exact Hvq | apply save_state_view] | exact Hn].
    - split; [exact Hq|]. split; [exact Hvq | exact Hn]. }
  destruct b as [| | | | name |]; cbn [bind].
  - apply Htail; [exact Hs | apply same_view_refl | reflexivity].
  - destruct (on_clear_ok Hs) as [H1 H2]. apply Htail; [exact H1 | exact H2 | reflexivity].
  - destruct (undo_ok Hs) as (s' & Hr & H1 & H2). rewrite Hr. cbn [bind].
    apply Htail; [exact H1 | exact H2 | reflexivity].
  - destruct (redo_ok Hs) as (s' & Hr & H1 & H2). rewrite Hr. cbn [bind].
    apply Htail; [exact H1 | exact H2 | reflexivity].
  - apply Htail; [exact Hs | apply same_view_refl | reflexivity].
  - apply Htail; [exact Hs | apply same_view_refl | reflexivity].
Qed.

(** What one event of an editing session leaves behind when its handler
    returns. *)
Lemma run_edit_step (op : edit_op) (p p' : Planner) :
  editor_ok p -> run_edit op p = Ok p' ->
  editor_ok p' /\ same_view (core p) (core p') /\ (next_id p <= next_id p')%Z.
Proof.
  intros Hs. destruct op as [ui pos | b | | pos | |]; cbn [run_edit].
  - apply on_mousebuttondown_1_step. exact Hs.
  - destruct (on_mousebuttonup_1_ok b Hs) as (q & Hr & H1 & H2 & Hn).
    rewrite Hr. intros [= <-]. split; [exact H1|]. split; [exact H2 | lia].
  - destruct (on_keydown_delete_ok Hs) as [H1 H2].
    intros [= <-]. unfold editor_ok. cbn [core next_id set_core].
    split; [exact H1|]. split; [exact H2 | lia].
  - destruct (on_mousebuttonup_3 pos (core p)) as [s' | e] eqn:Hr; cbn [bind];
      [| discriminate].
    destruct (on_mousebuttonup_3_step pos Hs Hr) as [H1 H2].
    intros [= <-]. unfold editor_ok. cbn [core next_id set_core].
    split; [exact H1|]. split; [exact H2 | lia].
  - destruct (undo_ok Hs) as (s' & Hr & H1 & H2).
    rewrite Hr. cbn [bind]. intros [= <-].
    unfold editor_ok. cbn [core next_id set_core].
    split; [exact H1|]. split; [exact H2 | lia].
  - destruct (redo_ok Hs) as (s' & Hr & H1 & H2).
    rewrite Hr. cbn [bind]. intros [= <-].
    unfold editor_ok. cbn [core next_id set_core].
    split; [exact H1|]. split; [exact H2 | lia].
Qed.

Lemma run_edit_returns (op : edit_op) (p : Planner) :
  editor_ok p -> ordinary_view (core p) -> ordinary_op op ->
  exists p' : Planner, run_edit op p = Ok p'.
Proof.
  intros Hs Hv Hop. destruct op as [ui pos | b | | pos | |]; cbn [run_edit].
  - apply on_mousebuttondown_1_returns; assumption.
  - destruct (on_mousebuttonup_1_ok b Hs) as (q & Hr & _). exists q. exact Hr.
  - eexists. reflexivity.
  - destruct (on_mousebuttonup_3_returns pos Hv) as [s' Hr].
    rewrite Hr. cbn [bind]. eexists. reflexivity.
  - destruct (undo_ok Hs) as (s' & Hr & _). rewrite Hr. cbn [bind].
    eexists. reflexivity.
  - destruct (redo_ok Hs) as (s' & Hr & _). rewrite Hr. cbn [bind].
    eexists. reflexivity.
Qed.

Lemma run_edits_step (ops : list edit_op) :
  forall p p' : Planner,
    editor_ok p -> run_edits ops p = Ok p' ->
    editor_ok p' /\ same_view (core p) (core p') /\ (next_id p <= next_id p')%Z.
Proof.
  induction ops as [| op ops IH]; intros p p' Hs; cbn [run_edits].
  - intros [= <-]. split; [exact Hs|]. split; [apply same_view_refl | lia].
  - destruct (run_edit op p) as [p1 | e] eqn:Hr; cbn [bind]; [| discriminate].
    destruct (run_edit_step op Hs Hr) as (Hs1 & Hv1 & Hn1).
    intros Hrest. destruct (IH p1 p' Hs1 Hrest) as (Hs' & Hv' & Hn').
    split; [exact Hs'|]. split; [eapply same_view_trans; eassumption | lia].
Qed.

Lemma run_edits_returns (ops : list edit_op) :
  forall p : Planner,
    editor_ok p -> ordinary_view (core p) -> Forall ordinary_op ops ->
    exists p' : Planner, run_edits ops p = Ok p'.
Proof.
  induction ops as [| op ops IH]; intros p Hs Hv Hops; cbn [run_edits].
  - exists p. reflexivity.
  - inversion Hops as [| ? ? Hop Hrest]; subst.
    destruct (@run_edit_returns op p Hs Hv Hop) as [p1 Hr].
    rewrite Hr. cbn [bind].
    destruct (run_edit_step op Hs Hr) as (Hs1 & Hv1 & _).
    apply IH; [exact Hs1 | exact (ordinary_view_same Hv1 Hv) | exact Hrest].
Qed.

(** X16.  From a state with a well-formed history and scenes (the live
    one and those in the history) whose ids are pairwise distinct and
    below [next_id]: whenever a sequence of primary presses, primary
    releases (on no button, on the clear, undo or redo button, on a type
    button or on the snap toggle), delete keys, secondary-button
    releases and undo and redo keys runs to its end, all of this still
    holds, no two objects of the scene share an id, [next_id] has not
    decreased, and camera and window are unchanged.  The sequence does
    run to its end when camera and window are in the ordinary range,
    room, scene and history are ordinary, and every pointer position is
    an ordinary pixel. *)
Theorem editing_session_keeps_ids_distinct :
  forall (ops : list edit_op) (p : Planner),
    editor_ok p ->
    (forall p' : Planner,
        run_edits ops p = Ok p' ->
        editor_ok p' /\
        NoDup (map id (objects (core p'))) /\
        Forall (fun o => (id o < next_id p')%Z) (objects (core p')) /\
        (next_id p <= next_id p')%Z /\
        same_view (core p) (core p')) /\
    (ordinary_view (core p) -> ordinary_editor p -> Forall ordinary_op ops ->
     exists p' : Planner, run_edits ops p = Ok p').
Proof.
  intros ops p Hs. split.
  - intros p' Hr. destruct (run_edits_step ops Hs Hr) as (Hs' & Hv & Hn).
    split; [exact Hs'|]. destruct Hs' as (_ & [Hnd Hlt] & _). auto.
  - intros Hv _ Hops. apply run_edits_returns; assumption.
Qed.

Lemma init_editor_ok : editor_ok Editing.initial.
Proof.
  unfold editor_ok, state_ok. cbn [core next_id Editing.initial].
  split; [exact init_history_wf|].
  split; [apply scene_ok_nil | apply Forall_nil].
Qed.

Lemma init_view : ordinary_view App.init.
Proof.
  split; [exact init_ordinary|]. split; [reflexivity | exact window_1600_900].
Qed.

Lemma init_ordinary_editor : ordinary_editor Editing.initial.
Proof.
  unfold ordinary_editor.
  cbn [grid_width grid_depth core Editing.initial objects history App.init].
  assert (0 < 10 ^ 6)%R by (apply pow_lt; lra).
  split; [lra|]. split; [lra|]. split; constructor.
Qed.

Lemma editing_session_keeps_ids_distinct_witness :
  exists p' : Planner,
    run_edits [Click false (800, 450)%Z; Release NoButton; Click false (800, 450)%Z;
               Release NoButton; PressDelete; CtrlZ; CtrlY;
               RightRelease (800, 450)%Z; Click true (1200, 30)%Z;
               Release ClearButton]
              Editing.initial = Ok p' /\
    NoDup (map id (objects (core p'))).
Proof.
  pose proof (@editing_session_keeps_ids_distinct
              [Click false (800, 450)%Z; Release NoButton; Click false (800, 450)%Z;
               Release NoButton; PressDelete; CtrlZ; CtrlY;
               RightRelease (800, 450)%Z; Click true (1200, 30)%Z;
               Release ClearButton]
              Editing.initial init_editor_ok) as [Hstep Hret].
  destruct Hret as [p' Hr].
  - exact init_view.
  - exact init_ordinary_editor.
  - repeat constructor; cbn [fst snd]; lia.
  - exists p'. split; [exact Hr|]. exact (proj1 (proj2 (Hstep p' Hr))).
Defined.

(** ** Deleting and selecting *)

Lemma filter_other_ids_length (l : list Object3D) (i : Z) :
  NoDup (map id l) -> In i (map id l) ->
  len (filter (fun o => negb (id o =? i)%Z) l) = (len l - 1)%Z.
Proof.
  unfold len. induction l as [| a l IH]; cbn [map filter List.length]; intros Hnd Hin.
  - destruct Hin.
  - inversion Hnd as [| ? ? Hnin Hnd']; subst.
    destruct (Z.eqb_spec (id a) i) as [E | N]; cbn [negb].
    + assert (Hall : filter (fun o => negb (id o =? i)%Z) l = l).
      { apply forallb_filter_id. apply forallb_forall. intros o Ho.
        destruct (Z.eqb_spec (id o) i) as [E' | _]; [| reflexivity].
        exfalso. apply Hnin. rewrite E, <- E'. apply in_map. exact Ho. }
      rewrite Hall. lia.
    + destruct Hin as [Hin | Hin]; [contradiction|].
      cbn [List.length]. rewrite Nat2Z.inj_succ, (IH Hnd' Hin).
      assert (0 < List.length l)%nat.
      { destruct l; [destruct Hin | cbn; lia]. }
      lia.
Qed.

Lemma save_state_last_entry (s : t) :
  cursor_ok s -> (1 <= max_history s)%Z ->
  history_index (save_state s) = (len (history (save_state s)) - 1)%Z /\
  nth (Z.to_nat (history_index (save_state s))) (history (save_state s)) []
  = snapshot (objects s).
Proof.
  intros Hok Hcap. destruct (save_state_cursor Hok) as (Hh & Hi & _).
  split; [exact Hi|]. rewrite Hi, Hh.
  pose proof (len_kept Hok) as Hk. pose proof Hok as [Hlo Hhi].
  assert (Hlast : forall h : list (list Object3D),
            nth (Z.to_nat (len (h ++ [snapshot (objects s)]) - 1))
                (h ++ [snapshot (objects s)]) [] = snapshot (objects s)).
  { intros h. rewrite len_app. unfold len. cbn [List.length].
    rewrite app_nth2 by lia.
    replace (Z.to_nat (Z.of_nat (List.length h) + Z.of_nat 1 - 1) - List.length h)%nat
      with 0%nat by lia.
    reflexivity. }
  unfold trim.
  destruct (len (kept s ++ [snapshot (objects s)]) >? max_history s)%Z eqn:E.
  - assert (Hne : kept s <> []).
    { intros E0. rewrite E0 in E. unfold len in E. cbn in E. lia. }
    destruct (kept s) as [| e0 k] eqn:Ek; [contradiction|].
    cbn [app tl]. apply Hlast.
  - apply Hlast.
Qed.

(** X17.  The delete key does nothing without a selection.  With one, it
    clears the selection and keeps exactly the objects whose id differs
    from the selected object's; when ids are distinct and the selected
    id is in the scene, the scene shrinks by exactly one object; and,
    with a cursor in range and room for one entry, the cursor ends on
    the newest history entry, which is a snapshot of the new scene. *)
Theorem delete_key_removes_selected_object :
  forall s : t,
    (selected_object s = None -> on_keydown_delete s = s) /\
    (forall sel : Object3D,
        selected_object s = Some sel ->
        let s' := on_keydown_delete s in
        selected_object s' = None /\
        (forall o : Object3D,
            In o (objects s') <-> In o (objects s) /\ id o <> id sel) /\
        (NoDup (map id (objects s)) -> In (id sel) (map id (objects s)) ->
         len (objects s') = (len (objects s) - 1)%Z) /\
        (cursor_ok s -> (1 <= max_history s)%Z ->
         history_index s' = (len (history s') - 1)%Z /\
         nth (Z.to_nat (history_index s')) (history s') [] = snapshot (objects s'))).
Proof.
  intros s. split.
  - intros Hsel. unfold on_keydown_delete. rewrite Hsel. reflexivity.
  - intros sel Hsel s'.
    assert (Hs' : s' = delete_clicked sel s).
    { unfold s', on_keydown_delete. rewrite Hsel. reflexivity. }
    rewrite Hs'. unfold delete_clicked.
    match goal with
    | |- context [save_state ?u] => set (s0 := u)
    end.
    destruct (save_state_frame s0) as (Hobj & _ & _ & _ & Hso).
    rewrite Hobj, Hso.
    assert (Hobj0 : objects s0 = filter (fun o => negb (id o =? id sel)%Z) (objects s))
      by reflexivity.
    split; [reflexivity|]. split; [| split].
    + intros o. rewrite Hobj0, filter_In.
      destruct (Z.eqb_spec (id o) (id sel)); cbn [negb]; split; intros [H1 H2];
        (split; [exact H1|]); try congruence; try reflexivity.
    + intros Hnd Hin. rewrite Hobj0. apply filter_other_ids_length; assumption.
    + intros Hok Hcap. apply (@save_state_last_entry s0); [exact Hok | exact Hcap].
Qed.

Lemma delete_key_removes_selected_object_witness :
  selected_object (on_keydown_delete placed_then_selected) = None.
Proof.
  destruct (delete_key_removes_selected_object placed_then_selected) as [_ H].
  exact (proj1 (H selected_chair eq_refl)).
Defined.

(** X18.  If the history entry under the cursor is a snapshot of the
    live scene and there is room for two entries, then pressing delete
    on a selection and undoing brings back a copy of the whole scene as
    it was before the deletion, with the selection cleared. *)
Theorem delete_then_undo_restores_scene :
  forall (s : t) (sel : Object3D),
    selected_object s = Some sel ->
    (0 <= history_index s < len (history s))%Z ->
    (2 <= max_history s)%Z ->
    nth (Z.to_nat (history_index s)) (history s) [] = snapshot (objects s) ->
    exists s1 : t,
      undo (on_keydown_delete s) = Ok s1 /\
      objects s1 = snapshot (objects s) /\
      selected_object s1 = None.
Proof.
  intros s sel Hsel Hin Hcap Hcur.
  assert (E : on_keydown_delete s
              = commit (filter (fun o => negb (id o =? id sel)%Z) (objects s))
                       (set_selected_object None s)).
  { unfold on_keydown_delete, commit. rewrite Hsel. destruct s; reflexivity. }
  rewrite E.
  destruct (@commit_undo_redo (set_selected_object None s)
              (filter (fun o => negb (id o =? id sel)%Z) (objects s)))
    as (s1 & Hu & Ho & Hs1 & _).
  - exact Hin.
  - exact Hcap.
  - exists s1. split; [exact Hu|]. split; [| exact Hs1].
    rewrite Ho. cbn [history history_index set_selected_object].
    rewrite Hcur. apply snapshot_idem.
Qed.

Lemma delete_then_undo_restores_scene_witness :
  exists s1 : t,
    undo (on_keydown_delete placed_then_selected) = Ok s1 /\
    objects s1 = snapshot [selected_chair] /\
    selected_object s1 = None.
Proof.
  apply (@delete_then_undo_restores_scene placed_then_selected selected_chair).
  - reflexivity.
  - cbn [history_index history placed_then_selected]. unfold len. simpl. lia.
  - cbn [max_history placed_then_selected]. lia.
  - reflexivity.
Defined.

(** X19.  A primary click on a button, in the top 70 pixels, or in AR
    mode leaves the state alone.  Otherwise, when the hit test returns
    an object, the click starts an object drag, makes that object the
    selection, sets the [selected] flag on exactly the objects with its
    id, keeps the ids and order of the scene, and touches neither the
    history nor [next_id]; when the hit test returns nothing, the click
    clears the selection and all flags and places an object. *)
Theorem primary_click_selects_exactly_the_hit_object :
  forall (p : Planner) (pos : Z * Z),
    (forall clicked_ui : bool,
        clicked_ui = true \/ (snd pos <= 70)%Z \/ ar_mode_active (core p) = true ->
        on_mousebuttondown_1 clicked_ui pos p = Ok p) /\
    ((70 < snd pos)%Z -> ar_mode_active (core p) = false ->
     (forall obj : Object3D,
         get_object_at_mouse (core p) pos = Ok (Some obj) ->
         exists p' : Planner,
           on_mousebuttondown_1 false pos p = Ok p' /\
           dragging_object p' = true /\
           selected_object (core p') = Some (set_selected true obj) /\
           In (set_selected true obj) (objects (core p')) /\
           map id (objects (core p')) = map id (objects (core p)) /\
           (forall o : Object3D,
               In o (objects (core p')) -> (selected o = true <-> id o = id obj)) /\
           history (core p') = history (core p) /\
           history_index (core p') = history_index (core p) /\
           next_id p' = next_id p) /\
     (get_object_at_mouse (core p) pos = Ok None ->
      on_mousebuttondown_1 false pos p
      = place_object pos
          (set_core (set_objects (map (set_selected false) (objects (core p)))
                                 (set_selected_object None (core p))) p))).
Proof.
  intros p pos. split.
  - intros ui H. unfold on_mousebuttondown_1.
    destruct ui; [reflexivity|]. cbn [negb andb].
    destruct H as [H | [H | H]]; [discriminate | |].
    + replace (snd pos >? 70)%Z with false by lia. reflexivity.
    + rewrite H. cbn [negb]. rewrite andb_false_r. reflexivity.
  - intros Hy Har. unfold on_mousebuttondown_1. rewrite Har. cbn [negb andb].
    replace (snd pos >? 70)%Z with true by lia. cbn [andb]. split.
    + intros obj Hhit. rewrite Hhit. cbn [bind].
      eexists. split; [reflexivity|].
      cbn [dragging_object core next_id set_core set_dragging_object
           selected_object objects history history_index
           set_selected_object set_objects].
      split; [reflexivity|]. split; [reflexivity|].
      pose proof (get_object_at_mouse_In _ _ Hhit) as Hin.
      split; [| split; [| split; [| auto]]].
      * apply in_map_iff. exists obj. split; [| exact Hin].
        rewrite Z.eqb_refl. reflexivity.
      * apply map_id_set_selected.
      * intros o Ho. apply in_map_iff in Ho. destruct Ho as (o0 & <- & _).
        cbn [set_selected selected id].
        destruct (Z.eqb_spec (id o0) (id obj)); split; intros H;
          try reflexivity; try assumption; try discriminate; contradiction.
    + intros Hmiss. rewrite Hmiss. cbn [bind]. reflexivity.
Qed.

Lemma primary_click_selects_exactly_the_hit_object_witness :
  exists p' : Planner,
    on_mousebuttondown_1 false (800, 450)%Z chair_in_view = Ok p' /\
    dragging_object p' = true /\
    selected_object (core p') = Some (set_selected true origin_chair).
Proof.
  destruct (@primary_click_selects_exactly_the_hit_object chair_in_view (800, 450)%Z)
    as [_ H].
  destruct H as [H _].
  - cbn. lia.
  - reflexivity.
  - destruct (H origin_chair) as (p' & Hc & Hd & Hs & _).
    + exact release_at_threshold_target.
    + exists p'. auto.
Defined.

(** ** Hit testing: misses and errors *)

Lemma base_radius_pos (ty : string) : 40 <= base_radius ty <= 80.
Proof.
  unfold base_radius.
  repeat match goal with
         | |- context [if ?c then _ else _] => destruct c
         end; lra.
Qed.

Lemma get_object_at_mouse_zero_distance (s : t) (mouse_pos : Z * Z) :
  objects s <> [] -> distance (camera s) = 0 ->
  get_object_at_mouse s mouse_pos = Raise ZeroDivisionError.
Proof.
  intros Hne H0. unfold get_object_at_mouse.
  destruct (objects s) as [| o l]; [contradiction|].
  rewrite (get_basis_zero_distance _ H0). reflexivity.
Qed.

Lemma find_none_iff {A : Type} (f : A -> bool) (l : list A) :
  find f l = None <-> forall a : A, In a l -> f a = false.
Proof.
  split; [apply find_none|].
  induction l as [| a l IH]; intros H; cbn [find]; [reflexivity|].
  rewrite (H a (or_introl eq_refl)). apply IH. intros b Hb. apply H. right. exact Hb.
Qed.

(** X20.  On an empty scene [get_object_at_mouse] returns [None]
    whatever the camera; on a non-empty scene at [distance] zero it
    raises [ZeroDivisionError].  With camera and window in the ordinary
    range, an ordinary pointer position and ordinary object positions it
    returns; it returns [None] exactly when no object of the scene
    passes the acceptance test, and it never returns an object of
    negative scale. *)
Theorem hit_test_miss_and_error_cases :
  forall (s : t) (mouse_pos : Z * Z),
    (objects s = [] -> get_object_at_mouse s mouse_pos = Ok None) /\
    (objects s <> [] -> distance (camera s) = 0 ->
     get_object_at_mouse s mouse_pos = Raise ZeroDivisionError) /\
    (ordinary_view s -> ordinary_pixel mouse_pos ->
     Forall (fun o => ordinary_point (position o)) (objects s) ->
     (exists hit : option Object3D, get_object_at_mouse s mouse_pos = Ok hit) /\
     (get_object_at_mouse s mouse_pos = Ok None <->
      forall obj : Object3D, In obj (objects s) -> hitb s mouse_pos obj = false) /\
     (forall obj : Object3D,
         In obj (objects s) -> scale obj < 0 ->
         get_object_at_mouse s mouse_pos <> Ok (Some obj))).
Proof.
  intros s mouse_pos. split; [| split].
  - intros E. unfold get_object_at_mouse. rewrite E. reflexivity.
  - apply get_object_at_mouse_zero_distance.
  - intros (Hcam & Hf & Hwin) _ _.
    pose proof (projects_usable s Hcam Hf Hwin) as Hp.
    rewrite (get_object_at_mouse_find mouse_pos Hcam Hp).
    split; [eexists; reflexivity|]. split.
    + split.
      * intros H obj Hin. injection H as H.
        apply (proj1 (find_none_iff _ _) H).
        eapply Permutation_in; [apply Permutation_sym, sorted_perm | exact Hin].
      * intros H. f_equal. apply find_none_iff. intros a Ha. apply H.
        eapply Permutation_in; [apply sorted_perm | exact Ha].
    + intros obj Hin Hsc H. injection H as H.
      apply find_some in H. destruct H as [_ Hhit].
      apply hitb_spec in Hhit. destruct Hhit as (pt & _ & Hle).
      pose proof (sqrt_pos (IZR (fst mouse_pos - fst pt) ^ 2
                            + IZR (snd mouse_pos - snd pt) ^ 2)) as Hs.
      pose proof (base_radius_pos (obj_type obj)) as Hb.
      nra.
Qed.

Lemma release_at_threshold_view : ordinary_view release_at_threshold.
Proof.
  split; [exact release_at_threshold_ordinary|].
  split; [reflexivity | exact window_1600_900].
Qed.

Lemma origin_chair_scene :
  Forall (fun o => ordinary_point (position o)) (objects release_at_threshold).
Proof. constructor; [exact zero_point_ordinary | constructor]. Qed.

Lemma hit_test_miss_and_error_cases_witness :
  exists hit : option Object3D,
    get_object_at_mouse release_at_threshold (5, 5)%Z = Ok hit.
Proof.
  refine (proj1 (proj2 (proj2 (hit_test_miss_and_error_cases
                                 release_at_threshold (5, 5)%Z))
                   release_at_threshold_view _ origin_chair_scene)).
  unfold ordinary_pixel. cbn [fst snd]. lia.
Defined.

(** X21.  With camera and window in the ordinary range and ordinary
    object positions, [project] returns a pixel for an object of the
    scene whose scale is between 0 and [10^6], and the pixel it returns
    is inside that object's own hit disc: the hit test at that pixel
    returns an object of the scene whose squared Euclidean distance from
    the camera position is at most that of the object. *)
Theorem click_on_projected_position_hits :
  forall (s : t) (obj : Object3D),
    ordinary_view s ->
    Forall (fun o => ordinary_point (position o)) (objects s) ->
    In obj (objects s) -> 0 <= scale obj <= 10 ^ 6 ->
    let cam_pos := Camera.get_position (camera s) in
    let squared_distance := fun o : Object3D =>
      (x (position o) - x cam_pos) * (x (position o) - x cam_pos)
      + (y (position o) - y cam_pos) * (y (position o) - y cam_pos)
      + (z (position o) - z cam_pos) * (z (position o) - z cam_pos) in
    (exists screen_pt : Z * Z,
        Camera.project (camera s) (position obj) (window_width s) (window_height s)
        = Ok screen_pt) /\
    (forall screen_pt : Z * Z,
        Camera.project (camera s) (position obj) (window_width s) (window_height s)
        = Ok screen_pt ->
        exists hit : Object3D,
          get_object_at_mouse s screen_pt = Ok (Some hit) /\
          In hit (objects s) /\
          squared_distance hit <= squared_distance obj).
Proof.
  intros s obj (Hcam & Hf & Hwin) _ Hin [Hsc _] cam_pos key.
  pose proof (projects_usable s Hcam Hf Hwin) as Hp.
  split; [exact (Hp (position obj))|].
  intros pt Hpt.
  assert (Hhit : hitb s pt obj = true).
  { apply hitb_under_pointer; [exact Hpt|].
    pose proof (base_radius_pos (obj_type obj)). nra. }
  assert (Hin' : In obj (sorted key (objects s))).
  { eapply Permutation_in; [apply Permutation_sym, sorted_perm | exact Hin]. }
  pose proof (get_object_at_mouse_find pt Hcam Hp) as Hget.
  change (sorted (dist2 (Camera.get_position (camera s))) (objects s))
    with (sorted key (objects s)) in Hget.
  destruct (find (hitb s pt) (sorted key (objects s))) as [hit |] eqn:E.
  - exists hit. split; [exact Hget|].
    split.
    + apply find_some in E. eapply Permutation_in; [apply sorted_perm | apply E].
    + apply (@find_sorted_least _ key (hitb s pt) (sorted key (objects s)) hit);
        [apply sorted_sorted | exact E | exact Hin' | exact Hhit].
  - exfalso. pose proof (find_none _ _ E obj Hin') as H. congruence.
Qed.

Lemma click_on_projected_position_hits_witness :
  exists screen_pt : Z * Z,
    Camera.project (camera release_at_threshold) (position origin_chair)
                   (window_width release_at_threshold)
                   (window_height release_at_threshold) = Ok screen_pt.
Proof.
  refine (proj1 (@click_on_projected_position_hits release_at_threshold origin_chair
                   release_at_threshold_view origin_chair_scene _ _)).
  - left. reflexivity.
  - cbn [scale origin_chair]. split; [lra|].
    apply Rle_trans with (10 ^ 0); [simpl; lra | apply Rle_pow; [lra | lia]].
Defined.

(** ** Camera drags and view events *)

Lemma fmod_add_period (a b : R) (k : Z) :
  b <> 0 -> Py.fmod (a + b * IZR k) b = Py.fmod a b.
Proof.
  intros Hb. unfold Py.fmod.
  replace ((a + b * IZR k) / b) with (a / b + IZR k) by (field; exact Hb).
  assert (Hf : Zfloor (a / b + IZR k) = (Zfloor (a / b) + k)%Z).
  { apply Zfloor_eq. destruct (Zfloor_bound (a / b)) as [Hlo Hhi].
    rewrite plus_IZR. split; lra. }
  rewrite Hf, plus_IZR. ring.
Qed.

Lemma fmod_small (a b : R) : 0 <= a < b -> Py.fmod a b = a.
Proof.
  intros [Hlo Hhi]. unfold Py.fmod.
  assert (Hf : Zfloor (a / b) = 0%Z).
  { apply Zfloor_eq. cbn [IZR]. split.
    - apply Rmult_le_pos; [exact Hlo | left; apply Rinv_0_lt_compat; lra].
    - rewrite Rplus_0_l. apply (Rmult_lt_reg_r b); [lra|].
      unfold Rdiv. rewrite Rmult_assoc, Rinv_l by lra. lra. }
  rewrite Hf. cbn [IZR]. ring.
Qed.

Lemma fmod_there_and_back (a d : R) :
  0 <= a < 360 -> Py.fmod (Py.fmod (a + d) 360 - d) 360 = a.
Proof.
  intros Ha. destruct (fmod_congruent (a + d) 360) as [k Hk]. rewrite Hk.
  replace (a + d - 360 * IZR k - d) with (a + 360 * IZR (- k))
    by (rewrite opp_IZR; ring).
  rewrite fmod_add_period by lra. apply fmod_small. exact Ha.
Qed.

(** X22.  From angles in range, dragging the camera to a position and
    back to where the drag started restores [angle_h] and the pointer
    position and never changes [distance]; it restores the whole camera
    when the vertical angle did not hit a clamp on the way.  When the
    way out ran into the lower clamp, the way back starts from -85
    instead. *)
Theorem camera_drag_there_and_back :
  forall (s : t) (pos : Z * Z),
    0 <= angle_h (camera s) < 360 ->
    -85 <= angle_v (camera s) <= 85 ->
    let back := drag_camera (last_mouse_pos s) (drag_camera pos s) in
    angle_h (camera back) = angle_h (camera s) /\
    last_mouse_pos back = last_mouse_pos s /\
    distance (camera back) = distance (camera s) /\
    (-85 <= angle_v (camera s) - IZR (snd pos - snd (last_mouse_pos s)) * (3 / 10) <= 85 ->
     camera back = camera s) /\
    (angle_v (camera s) - IZR (snd pos - snd (last_mouse_pos s)) * (3 / 10) < -85 ->
     angle_v (camera back)
     = Rmin 85 (-85 + IZR (snd pos - snd (last_mouse_pos s)) * (3 / 10))).
Proof.
  intros s pos Hh Hv back.
  assert (Hah : angle_h (camera back) = angle_h (camera s)).
  { unfold back. rewrite camera_drag_camera. cbn [angle_h].
    rewrite camera_drag_camera. cbn [angle_h last_mouse_pos drag_camera set_last_mouse_pos fst].
    replace (IZR (fst (last_mouse_pos s) - fst pos) * (1 / 2))
      with (- (IZR (fst pos - fst (last_mouse_pos s)) * (1 / 2)))
      by (rewrite !minus_IZR; ring).
    apply fmod_there_and_back. exact Hh. }
  assert (Hav : angle_v (camera back)
                = Rmax (-85) (Rmin 85
                    (Rmax (-85) (Rmin 85 (angle_v (camera s)
                        - IZR (snd pos - snd (last_mouse_pos s)) * (3 / 10)))
                     + IZR (snd pos - snd (last_mouse_pos s)) * (3 / 10)))).
  { unfold back. rewrite camera_drag_camera. cbn [angle_v].
    rewrite camera_drag_camera. cbn [angle_v last_mouse_pos drag_camera set_last_mouse_pos snd].
    f_equal. f_equal. rewrite !minus_IZR. ring. }
  split; [exact Hah|]. split; [reflexivity|]. split; [reflexivity|]. split.
  - intros Hin.
    assert (Hv' : angle_v (camera back) = angle_v (camera s)).
    { rewrite Hav. rewrite (clamp_inside Hin).
      match goal with
      | |- Rmax _ (Rmin _ ?v) = _ => replace v with (angle_v (camera s)) by ring
      end.
      apply clamp_inside. exact Hv. }
    assert (Hd : distance (camera back) = distance (camera s)) by reflexivity.
    assert (Ht : target (camera back) = target (camera s)) by reflexivity.
    assert (Hf : fov (camera back) = fov (camera s)) by reflexivity.
    destruct (camera back), (camera s). cbn in *. congruence.
  - intros Hlow. rewrite Hav.
    set (dlt := IZR (snd pos - snd (last_mouse_pos s)) * (3 / 10)) in *.
    rewrite (Rmin_right 85 (angle_v (camera s) - dlt)) by lra.
    rewrite (Rmax_left (-85) (angle_v (camera s) - dlt)) by lra.
    apply Rmax_right. apply Rmin_glb; lra.
Qed.

Lemma camera_drag_there_and_back_witness :
  camera (drag_camera (last_mouse_pos init) (drag_camera (300, -40)%Z init))
  = camera init.
Proof.
  destruct (@camera_drag_there_and_back init (300, -40)%Z) as (_ & _ & _ & H & _).
  - cbn. lra.
  - cbn. lra.
  - apply H. cbn. lra.
Defined.

Lemma on_mousewheel_view (lshift : bool) (ev_y : Z) (s : t) :
  ordinary_view s -> ordinary_view (on_mousewheel lshift ev_y s).
Proof.
  intros (Hcam & Hf & Hwin). unfold on_mousewheel.
  assert (Hz : ordinary_view
                 (set_camera
                    (mkCamera (Rmax 200 (Rmin 1500 (distance (camera s) - IZR ev_y * 40)))
                              (angle_h (camera s)) (angle_v (camera s))
                              (target (camera s)) (fov (camera s))) s)).
  { destruct Hcam as (_ & Hh & Hv & Ht).
    pose proof (@clamp_range 200 1500 (distance (camera s) - IZR ev_y * 40)
                  ltac:(lra)) as Hr.
    unfold ordinary_view, ordinary_camera.
    cbn [camera set_camera distance angle_h angle_v target fov window_width
         window_height].
    repeat split; try assumption; try lra; try apply Hwin; try apply Ht. }
  destruct (selected_object s) as [sel |];
    [destruct (lshift && negb (ar_mode_active s))|]; try exact Hz.
  unfold ordinary_view.
  cbn [camera set_selected_object window_width window_height]. auto.
Qed.

Lemma drag_camera_view (pos : Z * Z) (s : t) :
  ordinary_view s -> ordinary_view (drag_camera pos s).
Proof.
  intros (Hcam & Hf & Hwin). unfold ordinary_view.
  rewrite camera_drag_camera.
  change (window_width (drag_camera pos s)) with (window_width s).
  change (window_height (drag_camera pos s)) with (window_height s).
  split; [| split; [exact Hf | exact Hwin]].
  destruct Hcam as (Hd & _ & _ & Ht).
  unfold ordinary_camera. cbn [distance angle_h angle_v target].
  split; [exact Hd|]. split; [| split; [apply clamp_range; lra | exact Ht]].
  match goal with
  | |- Rabs (Py.fmod ?a 360) <= _ =>
      pose proof (@fmod_range a 360 ltac:(lra)) as Hr
  end.
  apply bounds_Rabs. lra.
Qed.

Lemma on_videoresize_view (w h : Z) (s : t) :
  (w <= 10 ^ 5)%Z -> (h <= 10 ^ 5)%Z ->
  ordinary_view s -> ordinary_view (on_videoresize w h s).
Proof.
  intros Hw Hh (Hcam & Hf & _). unfold ordinary_view, ordinary_window.
  unfold on_videoresize, MIN_W, MIN_H. cbn [camera window_width window_height].
  split; [exact Hcam|]. split; [exact Hf|]. lia.
Qed.

Lemma run_view_op_view (op : view_op) (s : t) :
  ordinary_view_op op -> ordinary_view s -> ordinary_view (run_view_op op s).
Proof.
  destruct op as [lshift ev_y | pos | w h]; cbn [run_view_op ordinary_view_op].
  - intros _. apply on_mousewheel_view.
  - intros _. apply drag_camera_view.
  - intros [Hw Hh]. apply on_videoresize_view; assumption.
Qed.

Lemma run_view_view (ops : list view_op) :
  forall s : t,
    Forall ordinary_view_op ops -> ordinary_view s -> ordinary_view (run_view ops s).
Proof.
  induction ops as [| op ops IH]; intros s Hops Hv; [exact Hv|].
  inversion Hops as [| ? ? Hop Hrest]; subst.
  apply (IH (run_view_op op s) Hrest). apply run_view_op_view; assumption.
Qed.

(** X23.  From camera and window in the ordinary range with the field of
    view of 60 degrees, any sequence of wheel events, camera drags to
    ordinary pixels and window resizes to at most [10^5] pixels keeps
    camera and window in the ordinary range, so that afterwards
    [project] returns for every ordinary point, [unproject] for every
    ordinary pixel and plane height, and the hit test for every ordinary
    pointer position over an ordinary scene. *)
Theorem view_events_keep_projection_defined :
  forall (ops : list view_op) (s : t),
    ordinary_view s -> ordinary_pixel (last_mouse_pos s) ->
    Forall ordinary_view_op ops ->
    let s' := run_view ops s in
    ordinary_view s' /\
    (forall p : Point3D,
        ordinary_point p ->
        exists pt : Z * Z,
          Camera.project (camera s') p (window_width s') (window_height s') = Ok pt) /\
    (forall (pos : Z * Z) (plane_y : R),
        ordinary_pixel pos -> Rabs plane_y <= 10 ^ 6 ->
        exists p : Point3D,
          Camera.unproject (camera s') (fst pos) (snd pos)
                           (window_width s') (window_height s') plane_y = Ok p) /\
    (forall pos : Z * Z,
        ordinary_pixel pos ->
        Forall (fun o => ordinary_point (position o)) (objects s') ->
        exists hit : option Object3D, get_object_at_mouse s' pos = Ok hit).
Proof.
  intros ops s Hv _ Hops s'.
  pose proof (run_view_view Hops Hv) as Hv'. fold s' in Hv'.
  split; [exact Hv'|].
  pose proof Hv' as (Hcam & Hf & Hwin).
  split; [| split].
  - intros p _. apply (projects_usable s' Hcam Hf Hwin).
  - intros [px py] plane_y Hpx _. cbn [fst snd].
    apply unproject_ordinary; assumption.
  - intros pos _ _. apply get_object_at_mouse_returns. exact Hv'.
Qed.

Lemma view_events_keep_projection_defined_witness :
  exists pt : Z * Z,
    Camera.project
      (camera (run_view [Wheel false 40; DragTo (500, 900)%Z; Resize 0 0] init))
      (mkPoint3D 0 0 0) 1024 640 = Ok pt.
Proof.
  destruct (@view_events_keep_projection_defined
              [Wheel false 40; DragTo (500, 900)%Z; Resize 0 0] init)
    as (_ & Hp & _).
  - exact init_view.
  - unfold ordinary_pixel. cbn. lia.
  - constructor; [cbn [ordinary_view_op]; lia|].
    constructor; [unfold ordinary_view_op, ordinary_pixel; cbn [fst snd]; lia|].
    constructor; [cbn [ordinary_view_op]; lia | constructor].
  - exact (Hp (mkPoint3D 0 0 0) zero_point_ordinary).
Defined.

(** ** Start-up *)

Lemma int_units (w : R) :
  8 <= w ->
  (200 <= Py.int (w * UNITS_PER_FOOT))%Z /\
  IZR (Py.int (w * UNITS_PER_FOOT)) <= w * 25 < IZR (Py.int (w * UNITS_PER_FOOT)) + 1.
Proof.
  intros Hw. unfold Py.int, UNITS_PER_FOOT.
  destruct (Rle_dec 0 (w * 25)) as [H | H]; [| lra].
  destruct (Zfloor_bound (w * 25)) as [Hlo Hhi].
  split; [| lra].
  assert (Hlt : (199 < Zfloor (w * 25))%Z).
  { apply lt_IZR. lra. }
  lia.
Qed.

(** X24.  When one of the three inputs does not parse,
    [validate_and_start] only sets the message asking for valid numbers;
    when all parse and one is below 8, it only sets the message about
    the minimum.  Otherwise, for inputs up to [10^6], the state becomes
    WELCOME, each room dimension becomes an integer that is at least 200
    and less than one away from the input times 25 (its truncation, up
    to the rounding of the product), and the camera distance becomes the
    larger of 1100 and twice the largest dimension, so at least 1100;
    scene and history are untouched. *)
Theorem validate_and_start_outcomes :
  forall (w d h : option R) (p : Planner),
    let p' := validate_and_start w d h p in
    (w = None \/ d = None \/ h = None ->
     p' = set_setup_error_msg "Please enter valid numbers." p) /\
    (forall w0 d0 h0 : R,
        w = Some w0 -> d = Some d0 -> h = Some h0 ->
        (w0 < 8 \/ d0 < 8 \/ h0 < 8 ->
         p' = set_setup_error_msg "Dimensions must be at least 8 feet" p) /\
        (8 <= w0 <= 10 ^ 6 -> 8 <= d0 <= 10 ^ 6 -> 8 <= h0 <= 10 ^ 6 ->
         app_state p' = "WELCOME"%string /\
         (exists gw gd gh : Z,
             grid_width p' = IZR gw /\ grid_depth p' = IZR gd /\
             grid_height p' = IZR gh /\
             (200 <= gw)%Z /\ (200 <= gd)%Z /\ (200 <= gh)%Z /\
             truncates_to (w0 * 25) gw /\ Rabs (IZR gw - w0 * 25) < 1 /\
             truncates_to (d0 * 25) gd /\ Rabs (IZR gd - d0 * 25) < 1 /\
             truncates_to (h0 * 25) gh /\ Rabs (IZR gh - h0 * 25) < 1) /\
         1100 <= distance (camera (core p')) /\
         2 * grid_width p' <= distance (camera (core p')) /\
         2 * grid_depth p' <= distance (camera (core p')) /\
         2 * grid_height p' <= distance (camera (core p')) /\
         (distance (camera (core p')) = 1100 \/
          distance (camera (core p')) = 2 * grid_width p' \/
          distance (camera (core p')) = 2 * grid_depth p' \/
          distance (camera (core p')) = 2 * grid_height p') /\
         objects (core p') = objects (core p) /\
         history (core p') = history (core p))).
Proof.
  intros w d h p p'. split.
  - intros H. unfold p', validate_and_start.
    destruct w as [w0 |]; [| reflexivity].
    destruct d as [d0 |]; [| reflexivity].
    destruct h as [h0 |]; [| reflexivity].
    destruct H as [H | [H | H]]; discriminate.
  - intros w0 d0 h0 -> -> ->. split.
    + intros H. unfold p', validate_and_start.
      destruct (Rlt_dec w0 8); [reflexivity|].
      destruct (Rlt_dec d0 8); [reflexivity|].
      destruct (Rlt_dec h0 8); [reflexivity | lra].
    + intros [Hw _] [Hd _] [Hh _]. unfold p', validate_and_start.
      destruct (Rlt_dec w0 8); [lra|].
      destruct (Rlt_dec d0 8); [lra|].
      destruct (Rlt_dec h0 8); [lra|].
      cbv zeta.
      cbn [app_state grid_width grid_depth grid_height core camera set_camera
           distance objects history].
      destruct (int_units Hw) as [Hw1 Hw2].
      destruct (int_units Hd) as [Hd1 Hd2].
      destruct (int_units Hh) as [Hh1 Hh2].
      set (gw := Py.int (w0 * UNITS_PER_FOOT)) in *.
      set (gd := Py.int (d0 * UNITS_PER_FOOT)) in *.
      set (gh := Py.int (h0 * UNITS_PER_FOOT)) in *.
      split; [reflexivity|].
      split.
      { exists gw, gd, gh.
        split; [reflexivity|]. split; [reflexivity|]. split; [reflexivity|].
        split; [exact Hw1|]. split; [exact Hd1|]. split; [exact Hh1|].
        split; [apply truncates_exact|]. split; [apply Rabs_def1; lra|].
        split; [apply truncates_exact|]. split; [apply Rabs_def1; lra|].
        split; [apply truncates_exact | apply Rabs_def1; lra]. }
      pose proof (Rmax_l 1100 (IZR (Z.max (Z.max gw gd) gh) * 2)) as H1.
      pose proof (Rmax_r 1100 (IZR (Z.max (Z.max gw gd) gh) * 2)) as H2.
      assert (Hgw : IZR gw <= IZR (Z.max (Z.max gw gd) gh)) by (apply IZR_le; lia).
      assert (Hgd : IZR gd <= IZR (Z.max (Z.max gw gd) gh)) by (apply IZR_le; lia).
      assert (Hgh : IZR gh <= IZR (Z.max (Z.max gw gd) gh)) by (apply IZR_le; lia).
      split; [exact H1|]. split; [lra|]. split; [lra|]. split; [lra|].
      split; [| split; reflexivity].
      unfold Rmax. destruct (Rle_dec 1100 (IZR (Z.max (Z.max gw gd) gh) * 2));
        [right | left; reflexivity].
      destruct (Z.max_spec (Z.max gw gd) gh) as [[_ E] | [_ E]]; rewrite E.
      * right. right. ring.
      * destruct (Z.max_spec gw gd) as [[_ E'] | [_ E']]; rewrite E'.
        -- right. left. ring.
        -- left. ring.
Qed.

Lemma validate_and_start_outcomes_witness :
  app_state (validate_and_start (Some 20) (Some 30) (Some 10) Editing.initial)
  = "WELCOME"%string.
Proof.
  destruct (@validate_and_start_outcomes (Some 20) (Some 30) (Some 10) Editing.initial)
    as [_ H].
  destruct (H 20 30 10 eq_refl eq_refl eq_refl) as [_ H'].
  assert (H6 : 30 <= 10 ^ 6) by lra.
  destruct H' as [Hs _]; [lra | lra | lra | exact Hs].
Defined.

Lemma door_gap_step (p : Planner) (n : nat) :
  door_gap p (S n) = door_gap p n * (94 / 100).
Proof. unfold door_gap. cbn [pow]. ring. Qed.

Lemma door_gap_pos (p : Planner) (n : nat) :
  door_angle p < 100 -> 0 < door_gap p n.
Proof.
  intros H. unfold door_gap. apply Rmult_lt_0_compat; [lra|].
  apply pow_lt. lra.
Qed.

Lemma welcome_frame_opening (p : Planner) :
  app_state p = "OPENING"%string ->
  door_angle (welcome_frame p) = 100 - (100 - door_angle p) * (94 / 100) /\
  (95 < door_angle (welcome_frame p) -> app_state (welcome_frame p) = "RUNNING"%string) /\
  (door_angle (welcome_frame p) <= 95 -> app_state (welcome_frame p) = "OPENING"%string).
Proof.
  intros Hs. unfold welcome_frame. rewrite Hs. cbn [String.eqb Ascii.eqb Bool.eqb].
  cbn [door_angle app_state].
  split; [field|].
  destruct (Rlt_dec 95 (door_angle p + (100 - door_angle p) * (6 / 100))); split;
    intros H; try reflexivity; try lra; try exact Hs.
Qed.

Lemma welcome_frame_other (p : Planner) :
  app_state p <> "OPENING"%string -> welcome_frame p = p.
Proof.
  intros H. unfold welcome_frame.
  destruct (String.eqb_spec (app_state p) "OPENING"); [contradiction | reflexivity].
Qed.

Lemma frames_while_opening (p : Planner) (n : nat) :
  app_state p = "OPENING"%string -> door_angle p < 100 ->
  (n = 0%nat \/ 5 <= door_gap p n) ->
  app_state (frames n p) = "OPENING"%string /\
  door_angle (frames n p) = 100 - door_gap p n.
Proof.
  intros Hs Ha. induction n as [| n IH]; intros Hn.
  - cbn [frames]. split; [exact Hs|]. unfold door_gap. cbn [pow]. ring.
  - destruct Hn as [Hn | Hn]; [discriminate|].
    pose proof (door_gap_pos p n Ha) as Hpos.
    rewrite door_gap_step in Hn.
    destruct IH as [IHs IHa]; [right; lra|].
    cbn [frames].
    destruct (welcome_frame_opening _ IHs) as (Hang & _ & Hstay).
    rewrite IHa in Hang.
    assert (E : door_angle (welcome_frame (frames n p))
                = 100 - door_gap p (S n)).
    { rewrite Hang, door_gap_step. ring. }
    split; [| exact E]. apply Hstay. rewrite E, door_gap_step. lra.
Qed.

Lemma frames_flip (p : Planner) (n : nat) :
  app_state p = "OPENING"%string -> door_angle p < 100 ->
  (n = 0%nat \/ 5 <= door_gap p n) -> door_gap p (S n) < 5 ->
  app_state (frames (S n) p) = "RUNNING"%string /\
  door_angle (frames (S n) p) = 100 - door_gap p (S n).
Proof.
  intros Hs Ha Hn Hflip.
  destruct (@frames_while_opening p n Hs Ha Hn) as [IHs IHa].
  cbn [frames].
  destruct (welcome_frame_opening _ IHs) as (Hang & Hrun & _).
  rewrite IHa in Hang.
  assert (E : door_angle (welcome_frame (frames n p))
              = 100 - door_gap p (S n)).
  { rewrite Hang, door_gap_step. ring. }
  split; [| exact E]. apply Hrun. rewrite E. lra.
Qed.

Lemma door_gap_first_below (p : Planner) (N : nat) :
  door_angle p < 100 -> door_gap p N < 5 ->
  exists n : nat, (n = 0%nat \/ 5 <= door_gap p n) /\ door_gap p (S n) < 5.
Proof.
  intros Ha. induction N as [| N IH]; intros HN.
  - exists 0%nat. split; [left; reflexivity|].
    rewrite door_gap_step. pose proof (door_gap_pos p 0 Ha). lra.
  - destruct (Rlt_dec (door_gap p N) 5) as [Hlt | Hge].
    + apply IH. exact Hlt.
    + exists N. split; [right; lra | exact HN].
Qed.

Lemma door_gap_vanishes (p : Planner) :
  door_angle p < 100 -> exists N : nat, door_gap p N < 5.
Proof.
  intros Ha.
  assert (Hq : Rabs (94 / 100) < 1) by (rewrite Rabs_pos_eq; lra).
  assert (Hy : 0 < 5 / (100 - door_angle p)).
  { apply Rdiv_lt_0_compat; lra. }
  destruct (pow_lt_1_zero (94 / 100) Hq (5 / (100 - door_angle p)) Hy) as [N HN].
  exists N. specialize (HN N (le_n N)).
  rewrite Rabs_pos_eq in HN by (apply pow_le; lra).
  unfold door_gap.
  apply (Rmult_lt_compat_l (100 - door_angle p)) in HN; [| lra].
  replace ((100 - door_angle p) * (5 / (100 - door_angle p))) with 5 in HN
    by (field; lra).
  exact HN.
Qed.

Lemma pow_94 (n : nat) :
  (94 / 100) ^ n = IZR (47 ^ Z.of_nat n) / IZR (50 ^ Z.of_nat n).
Proof.
  replace (94 / 100) with (IZR 47 * / IZR 50) by lra.
  rewrite Rpow_mult_distr, pow_inv, !pow_IZR. reflexivity.
Qed.

Lemma gap_48 : 5 <= 100 * (94 / 100) ^ 48.
Proof.
  rewrite pow_94.
  assert (Hb : 0 < IZR (50 ^ Z.of_nat 48)) by (apply IZR_lt; reflexivity).
  assert (H : 5 * IZR (50 ^ Z.of_nat 48) <= 100 * IZR (47 ^ Z.of_nat 48)).
  { rewrite <- !mult_IZR. apply IZR_le. vm_compute. discriminate. }
  generalize dependent (IZR (50 ^ Z.of_nat 48)).
  generalize (IZR (47 ^ Z.of_nat 48)). intros a b Hb H.
  apply (Rmult_le_reg_r b); [exact Hb|].
  unfold Rdiv. replace (100 * (a * / b) * b) with (100 * a * (/ b * b)) by ring.
  rewrite Rinv_l by lra. lra.
Qed.

Lemma gap_49 : 100 * (94 / 100) ^ 49 < 5.
Proof.
  rewrite pow_94.
  assert (Hb : 0 < IZR (50 ^ Z.of_nat 49)) by (apply IZR_lt; reflexivity).
  assert (H : 100 * IZR (47 ^ Z.of_nat 49) < 5 * IZR (50 ^ Z.of_nat 49)).
  { rewrite <- !mult_IZR. apply IZR_lt. vm_compute. reflexivity. }
  generalize dependent (IZR (50 ^ Z.of_nat 49)).
  generalize (IZR (47 ^ Z.of_nat 49)). intros a b Hb H.
  apply (Rmult_lt_reg_r b); [exact Hb|].
  unfold Rdiv. replace (100 * (a * / b) * b) with (100 * a * (/ b * b)) by ring.
  rewrite Rinv_l by lra. lra.
Qed.

(** X25.  While the state is OPENING with the door below 100 degrees,
    the door angle after [k] frames is [100 - (100 - a) * 0.94^k]; after
    finitely many frames the state becomes RUNNING, at a door angle
    strictly between 95 and 100, and further frames change nothing.
    From a closed door this takes exactly 49 frames. *)
Theorem door_opens_and_stops_short_of_100 :
  forall p : Planner,
    app_state p = "OPENING"%string -> door_angle p < 100 ->
    (exists n : nat,
        app_state (frames (S n) p) = "RUNNING"%string /\
        app_state (frames n p) = "OPENING"%string /\
        95 < door_angle (frames (S n) p) < 100 /\
        (forall k : nat, (k <= S n)%nat ->
           door_angle (frames k p) = 100 - (100 - door_angle p) * (94 / 100) ^ k) /\
        (forall k : nat, frames k (frames (S n) p) = frames (S n) p)) /\
    (door_angle p = 0 ->
     app_state (frames 48 p) = "OPENING"%string /\
     app_state (frames 49 p) = "RUNNING"%string).
Proof.
  intros p Hs Ha. split.
  - destruct (@door_gap_vanishes p Ha) as [N HN].
    destruct (@door_gap_first_below p N Ha HN) as (n & Hn & Hflip).
    exists n.
    destruct (@frames_flip p n Hs Ha Hn Hflip) as [Hrun Hang].
    destruct (@frames_while_opening p n Hs Ha Hn) as [Hopen Hang'].
    split; [exact Hrun|]. split; [exact Hopen|]. split; [| split].
    + rewrite Hang. pose proof (@door_gap_pos p (S n) Ha). lra.
    + intros k Hk. fold (door_gap p k).
      destruct (Nat.eq_dec k (S n)) as [-> | Hne]; [exact Hang|].
      assert (Hle : (k <= n)%nat) by lia.
      apply frames_while_opening; [exact Hs | exact Ha|].
      destruct Hn as [-> | Hn]; [left; lia|].
      right. clear - Hn Hle Ha.
      induction Hle as [| m Hle IH]; [exact Hn|].
      apply IH. rewrite door_gap_step in Hn.
      pose proof (@door_gap_pos p m Ha). lra.
    + clear Hang. revert Hrun. generalize (frames (S n) p). intros q Hrun k.
      induction k as [| k IH]; [reflexivity|].
      cbn [frames]. rewrite IH.
      apply welcome_frame_other. rewrite Hrun. discriminate.
  - intros H0.
    assert (H48 : 5 <= door_gap p 48).
    { unfold door_gap. rewrite H0. replace (100 - 0) with 100 by ring. exact gap_48. }
    assert (H49 : door_gap p 49 < 5).
    { unfold door_gap. rewrite H0. replace (100 - 0) with 100 by ring. exact gap_49. }
    split.
    + apply (@frames_while_opening p 48 Hs Ha). right. exact H48.
    + apply (@frames_flip p 48 Hs Ha); [right; exact H48 | exact H49].
Qed.

Lemma door_opens_and_stops_short_of_100_witness :
  app_state (frames 49 door_clicked) = "RUNNING"%string.
Proof.
  destruct (@door_opens_and_stops_short_of_100 door_clicked) as [_ H].
  - reflexivity.
  - cbn. lra.
  - apply H. reflexivity.
Defined.

(** ** Drawing order *)









(** ** Layout files *)

Lemma load_objects_spec (l : list obj_data) :
  forall p : Planner,
    Layout.load_objects l p
    = set_next_id (next_id_after l (next_id p))
        (set_core (set_objects (objects (core p) ++ map of_data l) (core p)) p).
Proof.
  induction l as [| d l IH]; intros p.
  - cbn [Layout.load_objects next_id_after fold_left map].
    rewrite app_nil_r. destruct p as [c ? ? ? ? ? ? ? ? ? ?]. destruct c. reflexivity.
  - cbn [Layout.load_objects]. cbv zeta. rewrite IH.
    cbn [next_id_after fold_left map core objects next_id
         set_core set_next_id set_objects].
    rewrite <- app_assoc. reflexivity.
Qed.

Lemma next_id_after_ge (l : list obj_data) :
  forall n : Z,
    (n <= next_id_after l n)%Z /\
    Forall (fun d => (d_id d < next_id_after l n)%Z) l.
Proof.
  induction l as [| d l IH]; intros n; cbn [next_id_after fold_left].
  - split; [lia | apply Forall_nil].
  - destruct (IH (Z.max n (d_id d + 1))) as [Hge Hall].
    fold (next_id_after l (Z.max n (d_id d + 1))) in *.
    split; [lia|]. apply Forall_cons; [lia | exact Hall].
Qed.

Lemma next_id_after_same (l : list obj_data) :
  forall n : Z,
    Forall (fun d => (d_id d < n)%Z) l -> next_id_after l n = n.
Proof.
  induction l as [| d l IH]; intros n H; cbn [next_id_after fold_left]; [reflexivity|].
  inversion H as [| ? ? Hd Hl]; subst.
  replace (Z.max n (d_id d + 1)) with n by lia. apply IH. exact Hl.
Qed.

Lemma load_layout_objects (data : layout) (q : Planner) (l : list obj_data) :
  l_objects data = Some l ->
  exists s0 : t,
    core (Layout.load_layout data q) = save_state s0 /\
    objects s0 = map of_data l /\
    selected_object s0 = None /\
    history s0 = history (core q) /\
    history_index s0 = history_index (core q) /\
    max_history s0 = max_history (core q) /\
    next_id (Layout.load_layout data q) = next_id_after l (next_id q).
Proof.
  intros Hl. unfold Layout.load_layout. cbv zeta. rewrite Hl.
  rewrite load_objects_spec.
  eexists. split; [reflexivity|].
  destruct (l_camera data), (l_grid data); repeat split; reflexivity.
Qed.

Lemma load_layout_camera (data : layout) (q : Planner) :
  camera (core (Layout.load_layout data q))
  = match l_camera data with
    | Some cd =>
        mkCamera (Layout.get (d_distance cd) 700) (Layout.get (d_angle_h cd) 45)
                 (Layout.get (d_angle_v cd) 35)
                 (target (camera (core q))) (fov (camera (core q)))
    | None => camera (core q)
    end.
Proof.
  unfold Layout.load_layout. cbv zeta.
  destruct (l_objects data) as [l |].
  - rewrite load_objects_spec. cbn [core set_core set_next_id].
    match goal with
    | |- camera (save_state ?s) = _ =>
        destruct (save_state_frame s) as (_ & Hc & _); rewrite Hc
    end.
    destruct (l_camera data), (l_grid data); reflexivity.
  - destruct (l_camera data), (l_grid data); reflexivity.
Qed.

Lemma load_layout_grid (data : layout) (q : Planner) :
  grid_width (Layout.load_layout data q)
  = match l_grid data with
    | Some gd => Layout.get (d_width gd) 600
    | None => 600
    end /\
  grid_depth (Layout.load_layout data q)
  = match l_grid data with
    | Some gd => Layout.get (d_depth gd) 600
    | None => 600
    end /\
  grid_height (Layout.load_layout data q) = grid_height q.
Proof.
  unfold Layout.load_layout. cbv zeta.
  destruct (l_objects data) as [l |]; try rewrite load_objects_spec;
    destruct (l_camera data), (l_grid data); repeat split; reflexivity.
Qed.

Lemma load_layout_scene (data : layout) (q : Planner) (l : list obj_data) :
  l_objects data = Some l ->
  objects (core (Layout.load_layout data q)) = map of_data l /\
  selected_object (core (Layout.load_layout data q)) = None /\
  next_id (Layout.load_layout data q) = next_id_after l (next_id q) /\
  (cursor_ok (core q) ->
   history (core (Layout.load_layout data q))
   = trim (max_history (core q)) (kept (core q) ++ [snapshot (map of_data l)])).
Proof.
  intros Hl.
  destruct (load_layout_objects data q Hl)
    as (s0 & Hc & Ho & Hs & Hh & Hi & Hm & Hn).
  destruct (save_state_frame s0) as (Hobj & _ & _ & _ & Hsel).
  rewrite Hc, Hobj, Hsel, Ho, Hn.
  split; [reflexivity|]. split; [exact Hs|]. split; [reflexivity|].
  intros Hok.
  assert (Hok0 : cursor_ok s0) by (unfold cursor_ok; rewrite Hh, Hi; exact Hok).
  destruct (save_state_cursor Hok0) as (Hhist & _).
  rewrite Hhist, Hm, Ho. unfold kept. rewrite Hh, Hi. reflexivity.
Qed.

(** X27.  [load_layout] on a document without the list of objects
    empties the scene and stops there: selection, history and [next_id]
    stay as they were.  With the list, the scene becomes the objects
    built from its entries, all unselected, the selection is cleared,
    every id is below the new [next_id], which has not decreased, and
    the scene is committed to the history.  The camera keeps its target
    and field of view and takes distance and angles from the document
    (700, 45 and 35 for missing keys) or stays as it is without a camera
    entry; the room takes width and depth from the document, 600 for
    whatever is missing, and keeps its height. *)
Theorem load_layout_reads_what_the_file_holds :
  forall (data : layout) (q : Planner),
    let q' := Layout.load_layout data q in
    (l_objects data = None ->
     objects (core q') = [] /\
     selected_object (core q') = selected_object (core q) /\
     history (core q') = history (core q) /\
     history_index (core q') = history_index (core q) /\
     next_id q' = next_id q) /\
    (forall l : list obj_data,
        l_objects data = Some l ->
        objects (core q') = map of_data l /\
        selected_object (core q') = None /\
        Forall unselected (objects (core q')) /\
        Forall (fun o => (id o < next_id q')%Z) (objects (core q')) /\
        (next_id q <= next_id q')%Z /\
        (cursor_ok (core q) ->
         history (core q')
         = trim (max_history (core q))
                (kept (core q) ++ [snapshot (map of_data l)]))) /\
    (l_camera data = None -> camera (core q') = camera (core q)) /\
    (forall cd : camera_data,
        l_camera data = Some cd ->
        camera (core q')
        = mkCamera (Layout.get (d_distance cd) 700) (Layout.get (d_angle_h cd) 45)
                   (Layout.get (d_angle_v cd) 35)
                   (target (camera (core q))) (fov (camera (core q)))) /\
    (l_grid data = None -> grid_width q' = 600 /\ grid_depth q' = 600) /\
    (forall gd : grid_data,
        l_grid data = Some gd ->
        grid_width q' = Layout.get (d_width gd) 600 /\
        grid_depth q' = Layout.get (d_depth gd) 600) /\
    grid_height q' = grid_height q.
Proof.
  intros data q q'.
  pose proof (load_layout_camera data q) as Hcam.
  destruct (load_layout_grid data q) as (Hgw & Hgd & Hgh).
  fold q' in Hcam, Hgw, Hgd, Hgh.
  split; [| split; [| split; [| split; [| split; [| split]]]]].
  - intros Hn. unfold q', Layout.load_layout. cbv zeta. rewrite Hn.
    destruct (l_camera data), (l_grid data); repeat split; reflexivity.
  - intros l Hl.
    destruct (load_layout_scene data q Hl) as (Ho & Hs & Hn & Hh).
    fold q' in Ho, Hs, Hn, Hh. rewrite Ho, Hn.
    destruct (next_id_after_ge l (next_id q)) as [Hge Hall].
    split; [reflexivity|]. split; [exact Hs|]. split; [| split; [| split]].
    + apply Forall_forall. intros o Hin. apply in_map_iff in Hin.
      destruct Hin as (d & <- & _). reflexivity.
    + apply Forall_forall. intros o Hin. apply in_map_iff in Hin.
      destruct Hin as (d & <- & Hd). rewrite Forall_forall in Hall.
      exact (Hall d Hd).
    + exact Hge.
    + exact Hh.
  - intros Hn. rewrite Hcam, Hn. reflexivity.
  - intros cd Hcd. rewrite Hcam, Hcd. reflexivity.
  - intros Hn. rewrite Hgw, Hgd, Hn. split; reflexivity.
  - intros gd Hg. rewrite Hgw, Hgd, Hg. split; reflexivity.
  - exact Hgh.
Qed.

Lemma load_layout_reads_what_the_file_holds_witness :
  objects (core (Layout.load_layout no_objects_layout chair_in_view)) = [] /\
  history (core (Layout.load_layout no_objects_layout chair_in_view))
  = history (core chair_in_view).
Proof.
  destruct (load_layout_reads_what_the_file_holds no_objects_layout chair_in_view)
    as [H _].
  destruct (H eq_refl) as (Ho & _ & Hh & _). split; [exact Ho | exact Hh].
Defined.

Lemma map_of_data_saved (scene : list Object3D) :
  map of_data
      (map (fun obj =>
              mkObjData (id obj) (obj_type obj) (name obj)
                        (mkPoint3D (x (position obj)) (y (position obj))
                                   (z (position obj)))
                        (rotation obj) (Some (scale obj))) scene)
  = snapshot scene.
Proof. unfold snapshot. rewrite map_map. reflexivity. Qed.

(** X28.  Loading the document [save_layout] writes for a planner [p]
    into any planner [q] installs a copy of the scene of [p] with the
    [selected] flags off, the distance and angles of the camera of [p],
    and the width and depth of the room of [p]; the camera target, the
    field of view and the room height stay those of [q].  The selection
    is cleared, [next_id] does not decrease and is unchanged when it was
    already above the ids of the scene, and the loaded scene is
    committed to the history of [q]. *)
Theorem load_after_save_restores_layout :
  forall p q : Planner,
    let q' := Layout.load_layout (Layout.save_layout p) q in
    objects (core q') = snapshot (objects (core p)) /\
    distance (camera (core q')) = distance (camera (core p)) /\
    angle_h (camera (core q')) = angle_h (camera (core p)) /\
    angle_v (camera (core q')) = angle_v (camera (core p)) /\
    target (camera (core q')) = target (camera (core q)) /\
    fov (camera (core q')) = fov (camera (core q)) /\
    grid_width q' = grid_width p /\
    grid_depth q' = grid_depth p /\
    grid_height q' = grid_height q /\
    selected_object (core q') = None /\
    (next_id q <= next_id q')%Z /\
    (Forall (fun o => (id o < next_id q)%Z) (objects (core p)) ->
     next_id q' = next_id q) /\
    (cursor_ok (core q) ->
     history (core q')
     = trim (max_history (core q))
            (kept (core q) ++ [snapshot (objects (core p))])).
Proof.
  intros p q q'.
  pose proof (load_layout_camera (Layout.save_layout p) q) as Hcam.
  destruct (load_layout_grid (Layout.save_layout p) q) as (Hgw & Hgd & Hgh).
  destruct (@load_layout_scene (Layout.save_layout p) q _ eq_refl)
    as (Ho & Hs & Hn & Hh).
  fold q' in Hcam, Hgw, Hgd, Hgh, Ho, Hs, Hn, Hh.
  rewrite map_of_data_saved in Ho, Hh. rewrite snapshot_idem in Hh.
  cbn [Layout.save_layout l_camera l_grid Layout.get
       d_distance d_angle_h d_angle_v d_width d_depth] in Hcam, Hgw, Hgd.
  rewrite Hcam. cbn [distance angle_h angle_v target fov].
  split; [exact Ho|]. split; [reflexivity|]. split; [reflexivity|].
  split; [reflexivity|]. split; [reflexivity|]. split; [reflexivity|].
  split; [exact Hgw|]. split; [exact Hgd|]. split; [exact Hgh|].
  split; [exact Hs|]. rewrite Hn.
  split; [apply next_id_after_ge|]. split; [| exact Hh].
  intros Hall. apply next_id_after_same.
  apply Forall_forall. intros d Hd'.
  cbn [Layout.save_layout l_objects] in Hd'. apply in_map_iff in Hd'.
  destruct Hd' as (o & <- & Ho'). rewrite Forall_forall in Hall.
  exact (Hall o Ho').
Qed.

Lemma load_after_save_restores_layout_witness :
  objects (core (Layout.load_layout (Layout.save_layout chair_in_view) small_room))
  = snapshot [origin_chair].
Proof.
  exact (proj1 (load_after_save_restores_layout chair_in_view small_room)).
Defined.
